(** * Smart Scheduler: availability calculator, time normalizer and
      tool-call dispatch loop

    A shallow embedding of [calendar_tools.py] and [main.py].

    Conventions of the embedding.
    - Python [int] is [Z].
    - Python [str] is [string]; the embedding covers ASCII text, which is
      what the prompts, the tool-call wire format and the time expressions
      use.
    - A naive [datetime.datetime] is the number of microseconds since
      0001-01-01T00:00:00, a [Z]; the bounded range of the Python type
      ([datetime.min] .. [datetime.max]) is written out, and arithmetic that
      leaves it raises [OverflowError] as in the interpreter.
    - A Python exception is a value of [exn] carried by the error monad
      [res]; a [try]/[except] is a [match] on it. *)

From Stdlib Require Import ZArith List String Ascii Bool Lia Sorted.
From Stdlib Require Import Permutation.
Import ListNotations.
Open Scope Z_scope.

(** ** Exceptions and the error monad *)

Inductive exn : Type :=
| ValueError
| OverflowError
| TypeError
| KeyError
| JSONDecodeError
| ServiceError.

Inductive res (A : Type) : Type :=
| Ok (a : A)
| Raise (e : exn).
Arguments Ok {A} a.
Arguments Raise {A} e.

Definition bind {A B : Type} (m : res A) (k : A -> res B) : res B :=
  match m with
  | Ok a => k a
  | Raise e => Raise e
  end.

Notation "x <- m ;; k" := (bind m (fun x => k))
  (at level 61, m at next level, right associativity).

(** ** Characters and decimal digits *)

Definition code (c : ascii) : Z := Z.of_N (N_of_ascii c).

Definition is_digit (c : ascii) : bool := (48 <=? code c) && (code c <=? 57).

Definition digit_value (c : ascii) : Z := code c - 48.

Definition digit_char (d : Z) : ascii := ascii_of_N (Z.to_N (48 + d)).

(** ** [datetime]: dates, instants and durations *)

Module Datetime.

Definition MINYEAR : Z := 1.
Definition MAXYEAR : Z := 9999.
(** [date.max.toordinal()] *)
Definition MAXORDINAL : Z := 3652059.

Definition us_per_minute : Z := 60000000.
Definition us_per_hour : Z := 3600000000.
Definition us_per_day : Z := 86400000000.

Definition is_leap (y : Z) : bool :=
  (y mod 4 =? 0) && (negb (y mod 100 =? 0) || (y mod 400 =? 0)).

Definition DAYS_IN_MONTH : list Z := [31; 28; 31; 30; 31; 30; 31; 31; 30; 31; 30; 31].
Definition DAYS_BEFORE_MONTH : list Z :=
  [0; 31; 59; 90; 120; 151; 181; 212; 243; 273; 304; 334].

Definition days_in_month (y m : Z) : Z :=
  if (m =? 2) && is_leap y then 29
  else nth (Z.to_nat (m - 1)) DAYS_IN_MONTH 0.

Definition days_before_year (y : Z) : Z :=
  let y1 := y - 1 in y1 * 365 + y1 / 4 - y1 / 100 + y1 / 400.

(** Days of year [y] before the first day of month [m]. *)
Definition days_before_month (y m : Z) : Z :=
  nth (Z.to_nat (m - 1)) DAYS_BEFORE_MONTH 0
  + (if (2 <? m) && is_leap y then 1 else 0).

(** [date(y, m, d).toordinal()]; the constructor raises [ValueError]
    outside the calendar. *)
Definition ymd2ord (y m d : Z) : res Z :=
  if (MINYEAR <=? y) && (y <=? MAXYEAR) && (1 <=? m) && (m <=? 12)
     && (1 <=? d) && (d <=? days_in_month y m)
  then Ok (days_before_year y + days_before_month y m + d)
  else Raise ValueError.

(** A naive datetime: microseconds since 0001-01-01T00:00:00. *)
Definition datetime : Type := Z.

Definition in_range (t : Z) : bool :=
  (0 <=? t) && (t <? MAXORDINAL * us_per_day).

(** [datetime.combine(day, time(h, mi))] for the day of ordinal [ord]. *)
Definition combine (ord h mi : Z) : datetime :=
  (ord - 1) * us_per_day + h * us_per_hour + mi * us_per_minute.

(** [timedelta(minutes=n)]: the value in microseconds; the constructor
    raises [OverflowError] when the day count leaves +-999999999. *)
Definition timedelta_minutes (n : Z) : res Z :=
  if Z.abs (n / 1440) <=? 999999999 then Ok (n * us_per_minute)
  else Raise OverflowError.

(** [t + delta] on a datetime. *)
Definition add (t : datetime) (delta : Z) : res datetime :=
  if in_range (t + delta) then Ok (t + delta) else Raise OverflowError.

Definition hour (t : datetime) : Z := (t mod us_per_day) / us_per_hour.
Definition minute (t : datetime) : Z :=
  ((t mod us_per_day) mod us_per_hour) / us_per_minute.

End Datetime.

(** Two decimal digits, zero padded: [%H], [%M], [%I] of [strftime] (whose
    arguments always lie in 0..59). *)
Definition two_digits (n : Z) : string :=
  String (digit_char (n / 10)) (String (digit_char (n mod 10)) EmptyString).

(** [t.strftime("%H:%M")] *)
Definition strftime_HM (t : Datetime.datetime) : string :=
  (two_digits (Datetime.hour t) ++ ":" ++ two_digits (Datetime.minute t))%string.

(** [t.strftime("%I:%M %p")] *)
Definition strftime_IMp (t : Datetime.datetime) : string :=
  let h := Datetime.hour t in
  let h12 := if h mod 12 =? 0 then 12 else h mod 12 in
  (two_digits h12 ++ ":" ++ two_digits (Datetime.minute t) ++ " "
     ++ (if (h <? 12)%Z then "AM" else "PM"))%string.

(** ** [datetime.strptime(date_str, "%Y-%m-%d").date()]

    The format compiles to the regular expression
    [(\d\d\d\d)-(1[0-2]|0[1-9]|[1-9])-(3[01]|[12]\d|0[1-9]|[1-9]| [1-9])],
    matched at the start of the text; text left over after the match is a
    [ValueError], and so is a date that is not in the calendar. *)

Definition in_chars (lo hi : string) (c : ascii) : bool :=
  match lo, hi with
  | String l _, String h _ => (code l <=? code c) && (code c <=? code h)
  | _, _ => false
  end.

Definition match_month (s : string) : option (Z * string) :=
  let one :=
    match s with
    | String c1 (String "-" rest) =>
        if in_chars "1" "9" c1 then Some (digit_value c1, rest) else None
    | _ => None
    end in
  match s with
  | String c1 (String c2 (String "-" rest)) =>
      if (Ascii.eqb c1 "1") && in_chars "0" "2" c2
      then Some (10 + digit_value c2, rest)
      else if (Ascii.eqb c1 "0") && in_chars "1" "9" c2
      then Some (digit_value c2, rest)
      else one
  | _ => one
  end.

Definition match_day (s : string) : option (Z * string) :=
  let one :=
    match s with
    | String c1 rest =>
        if in_chars "1" "9" c1 then Some (digit_value c1, rest)
        else match rest with
             | String c2 rest' =>
                 if (Ascii.eqb c1 " ") && in_chars "1" "9" c2
                 then Some (digit_value c2, rest') else None
             | EmptyString => None
             end
    | EmptyString => None
    end in
  match s with
  | String c1 (String c2 rest) =>
      if (Ascii.eqb c1 "3") && in_chars "0" "1" c2
      then Some (30 + digit_value c2, rest)
      else if in_chars "1" "2" c1 && is_digit c2
      then Some (10 * digit_value c1 + digit_value c2, rest)
      else if (Ascii.eqb c1 "0") && in_chars "1" "9" c2
      then Some (digit_value c2, rest)
      else one
  | _ => one
  end.

(** The ordinal of the parsed day. *)
Definition strptime_date (date_str : string) : res Z :=
  match date_str with
  | String y1 (String y2 (String y3 (String y4 (String "-" rest)))) =>
      if is_digit y1 && is_digit y2 && is_digit y3 && is_digit y4 then
        match match_month rest with
        | Some (m, rest') =>
            match match_day rest' with
            | Some (d, EmptyString) =>
                Datetime.ymd2ord
                  (1000 * digit_value y1 + 100 * digit_value y2
                   + 10 * digit_value y3 + digit_value y4) m d
            | _ => Raise ValueError
            end
        | None => Raise ValueError
        end
      else Raise ValueError
  | _ => Raise ValueError
  end.

(** ** [calendar_tools.find_available_slots] *)

(** The ["dateTime"] entry of an event's ["start"] or ["end"]: absent (an
    all-day event) or empty, text that [datetime.fromisoformat] rejects, or
    the instant it denotes once [replace(tzinfo=None)] has dropped the
    offset. *)
Inductive date_time_entry : Type :=
| Absent
| Malformed
| Instant (t : Datetime.datetime).

Record event : Type := { ev_start : date_time_entry; ev_end : date_time_entry }.

(** Lines 88-100: the busy intervals of the listed events, in order. *)
Fixpoint busy_slots_of (events : list event)
  : res (list (Datetime.datetime * Datetime.datetime)) :=
  match events with
  | [] => Ok []
  | ev :: rest =>
      match ev_start ev, ev_end ev with
      | Absent, _ => busy_slots_of rest
      | _, Absent => busy_slots_of rest
      | Malformed, _ => Raise ValueError
      | Instant _, Malformed => Raise ValueError
      | Instant s, Instant e =>
          busy <- busy_slots_of rest ;; Ok ((s, e) :: busy)
      end
  end.

(** Line 113: the overlap test of a slot against one busy interval. *)
Definition overlaps (slot_start slot_end busy_start busy_end : Z) : bool :=
  Z.max slot_start busy_start <? Z.min slot_end busy_end.

(** Lines 108-115: the inner [for] loop with its [break]. *)
Fixpoint is_free (slot_start slot_end : Z) (busy_slots : list (Z * Z)) : bool :=
  match busy_slots with
  | [] => true
  | (busy_start, busy_end) :: rest =>
      if overlaps slot_start slot_end busy_start busy_end then false
      else is_free slot_start slot_end rest
  end.

(** Lines 106-125: the [while] loop. One unit of [fuel] is one evaluation
    of the loop condition; [None] is fuel exhausted. A slot is stored as its
    [slot_start]; the three rendered entries of the slot dictionary are
    [strftime_IMp], [strftime_HM] and the date with [strftime_HM]. *)
Fixpoint scan_slots (fuel : nat) (duration_minutes : Z) (busy_slots : list (Z * Z))
    (time_max slot_start : Datetime.datetime)
    (available_slots : list Datetime.datetime)
  : option (res (list Datetime.datetime)) :=
  match fuel with
  | O => None
  | S fuel' =>
      match Datetime.timedelta_minutes duration_minutes with
      | Raise e => Some (Raise e)
      | Ok delta =>
          match Datetime.add slot_start delta with
          | Raise e => Some (Raise e)
          | Ok slot_end =>
              if slot_end <=? time_max then
                let available_slots' :=
                  if is_free slot_start slot_end busy_slots
                  then available_slots ++ [slot_start]
                  else available_slots in
                match Datetime.add slot_start (30 * Datetime.us_per_minute) with
                | Raise e => Some (Raise e)
                | Ok next => scan_slots fuel' duration_minutes busy_slots
                               time_max next available_slots'
                end
              else Some (Ok available_slots)
          end
      end
  end.

(** Evaluations of the loop condition that the window 09:00-17:00 allows:
    the cursor moves by 30 minutes from 09:00 and the condition fails once
    it passes 17:00 minus the duration. *)
Definition scan_fuel (duration_minutes : Z) : nat :=
  Z.to_nat (Z.max 1 ((480 - duration_minutes) / 30 + 2)).

(** The dictionary handed to [json.dumps], by its ["status"]. The message
    of an error ([str(e)]) is not modelled. *)
Inductive slots_result : Type :=
| Success (date : string) (duration_minutes : Z)
          (available_slots : list Datetime.datetime)
| NoSlots (duration_minutes : Z) (date : string)
| Error.

(** [service] is what the calendar collaborator answers:
    [get_calendar_service()] followed by [events().list(...).execute()]
    and [.get("items", [])], or the exception either raises. Every
    exception of the body ends in the same error result, so the order in
    which the collaborator and [strptime] fail is not observable. The
    fuel [scan_fuel] always suffices ([scan_window_terminates]): the
    branch of exhausted fuel is never taken. *)
Definition find_available_slots (duration_minutes : Z) (date_str : string)
    (service : res (list event)) : slots_result :=
  let body : res slots_result :=
    day <- strptime_date date_str ;;
    let time_min := Datetime.combine day 9 0 in
    let time_max := Datetime.combine day 17 0 in
    events <- service ;;
    busy_slots <- busy_slots_of events ;;
    match scan_slots (scan_fuel duration_minutes) duration_minutes busy_slots
            time_max time_min [] with
    | None => Raise OverflowError
    | Some r =>
        available_slots <- r ;;
        match available_slots with
        | [] => Ok (NoSlots duration_minutes date_str)
        | _ => Ok (Success date_str duration_minutes (firstn 6 available_slots))
        end
    end in
  match body with
  | Ok r => r
  | Raise _ => Error
  end.

(** The contract of the specification (section 4.2), as it is worded there:
    from [open], advance a cursor by [step] while [cursor + duration <=
    close]; accept the candidate iff it overlaps no busy interval; stop once
    [limit] candidates are collected or the cursor exhausts the window.
    Times are plain integers (microseconds). *)
Fixpoint find_slots (fuel : nat) (duration step : Z) (limit : nat)
    (busy : list (Z * Z)) (close cursor : Z) (found : list Z) : list Z :=
  match fuel with
  | O => found
  | S fuel' =>
      if (limit <=? List.length found)%nat then found
      else if cursor + duration <=? close then
        find_slots fuel' duration step limit busy close (cursor + step)
          (if existsb (fun b => overlaps cursor (cursor + duration) (fst b) (snd b)) busy
           then found else found ++ [cursor])
      else found
  end.

(** The cursor positions the window admits for a duration: 09:00, 09:30, ...
    while the slot still ends by 17:00. *)
Definition cursor_count (duration_minutes : Z) : nat :=
  Z.to_nat ((480 - duration_minutes) / 30 + 1).

Definition cursor_positions (time_min : Z) (duration_minutes : Z) : list Z :=
  map (fun k => time_min + Z.of_nat k * (30 * Datetime.us_per_minute))
      (seq 0 (cursor_count duration_minutes)).

(** ** Python string operations used by [main.py] *)

Module Py.

Local Open Scope string_scope.
Local Open Scope Z_scope.

(** [str.isspace] on ASCII: TAB, LF, VT, FF, CR, FS, GS, RS, US, SPACE. *)
Definition is_space (c : ascii) : bool :=
  let n := code c in
  ((9 <=? n) && (n <=? 13)) || ((28 <=? n) && (n <=? 32)).

(** The whitespace that [int] skips around a literal: TAB .. CR, SPACE. *)
Definition is_int_space (c : ascii) : bool :=
  let n := code c in
  ((9 <=? n) && (n <=? 13)) || (n =? 32).

Fixpoint lstrip_with (sp : ascii -> bool) (s : string) : string :=
  match s with
  | String c s' => if sp c then lstrip_with sp s' else s
  | EmptyString => EmptyString
  end.

Fixpoint rstrip_with (sp : ascii -> bool) (s : string) : string :=
  match s with
  | String c s' =>
      match rstrip_with sp s' with
      | EmptyString => if sp c then EmptyString else String c EmptyString
      | r => String c r
      end
  | EmptyString => EmptyString
  end.

(** [s.strip()] *)
Definition strip (s : string) : string :=
  rstrip_with is_space (lstrip_with is_space s).

Definition upper_char (c : ascii) : ascii :=
  if (97 <=? code c) && (code c <=? 122)
  then ascii_of_N (Z.to_N (code c - 32)) else c.

Definition lower_char (c : ascii) : ascii :=
  if (65 <=? code c) && (code c <=? 90)
  then ascii_of_N (Z.to_N (code c + 32)) else c.

Fixpoint map_chars (f : ascii -> ascii) (s : string) : string :=
  match s with
  | String c s' => String (f c) (map_chars f s')
  | EmptyString => EmptyString
  end.

Definition upper : string -> string := map_chars upper_char.
Definition lower : string -> string := map_chars lower_char.

(** [sub in s] *)
Fixpoint contains (sub s : string) : bool :=
  if prefix sub s then true
  else match s with
       | String _ s' => contains sub s'
       | EmptyString => false
       end.

(** [s.find(sub)], [-1] when absent. *)
Fixpoint find_from (sub s : string) (i : Z) : Z :=
  if prefix sub s then i
  else match s with
       | String _ s' => find_from sub s' (i + 1)
       | EmptyString => -1
       end.
Definition find (s sub : string) : Z := find_from sub s 0.

(** [s.rfind(sub)], [-1] when absent. *)
Fixpoint rfind_from (sub s : string) (i : Z) : Z :=
  match s with
  | String _ s' =>
      let later := rfind_from sub s' (i + 1) in
      if 0 <=? later then later else if prefix sub s then i else -1
  | EmptyString => if prefix sub s then i else -1
  end.
Definition rfind (s sub : string) : Z := rfind_from sub s 0.

(** [s[a:b]] *)
Definition slice (s : string) (a b : Z) : string :=
  let n := Z.of_nat (String.length s) in
  let clamp i := if i <? 0 then Z.max 0 (i + n) else Z.min i n in
  substring (Z.to_nat (clamp a)) (Z.to_nat (clamp b - clamp a)) s.

(** [s.replace(old, new)] for a non-empty [old]: occurrences are replaced
    from the left and do not overlap; [skip] counts the characters of an
    occurrence still to pass. *)
Fixpoint replace_from (old new : string) (skip : nat) (s : string) : string :=
  match s with
  | EmptyString => EmptyString
  | String c s' =>
      match skip with
      | S k => replace_from old new k s'
      | O =>
          if prefix old s
          then new ++ replace_from old new (Nat.pred (String.length old)) s'
          else String c (replace_from old new O s')
      end
  end.
Definition replace (s old new : string) : string := replace_from old new O s.

(** [s.split(sep)] for a one-character separator. *)
Fixpoint split (s : string) (sep : ascii) : list string :=
  match s with
  | EmptyString => [EmptyString]
  | String c s' =>
      if Ascii.eqb c sep then EmptyString :: split s' sep
      else match split s' sep with
           | p :: ps => String c p :: ps
           | [] => [String c EmptyString]
           end
  end.

(** The interpreter's limit on the digits of a conversion between [int]
    and decimal text, [sys.get_int_max_str_digits()]: 4300 unless the
    process changes it, which this program does not. *)
Definition max_str_digits : Z := 4300.

(** The digits of a literal: underscores do not count, leading zeros do. *)
Fixpoint count_digits (s : string) : Z :=
  match s with
  | String c s' => (if is_digit c then 1 else 0) + count_digits s'
  | EmptyString => 0
  end.

(** The digits of a decimal literal; single underscores may separate
    digits. [prev] says that the previous character was a digit. *)
Fixpoint int_digits (s : string) (acc : Z) (prev : bool) : option Z :=
  match s with
  | EmptyString => if prev then Some acc else None
  | String c s' =>
      if is_digit c then int_digits s' (10 * acc + digit_value c) true
      else if Ascii.eqb c "_" && prev then int_digits s' acc false
      else None
  end.

(** [int(s)] on a string of ASCII characters: surrounding whitespace, an
    optional sign, decimal digits; a literal of more than [max_str_digits]
    digits is refused with [ValueError], as a malformed one is. *)
Definition int (s : string) : res Z :=
  let body := rstrip_with is_int_space (lstrip_with is_int_space s) in
  let signed :=
    match body with
    | String "-" r => (true, r)
    | String "+" r => (false, r)
    | _ => (false, body)
    end in
  if max_str_digits <? count_digits (snd signed) then Raise ValueError
  else
    match int_digits (snd signed) 0 false with
    | Some n => Ok (if fst signed then - n else n)
    | None => Raise ValueError
    end.

(** The decimal digits of a natural number, most significant first. *)
Fixpoint digits_of (fuel : nat) (n : Z) (acc : string) : string :=
  match fuel with
  | O => acc
  | S fuel' =>
      let acc' := String (digit_char (n mod 10)) acc in
      if n <? 10 then acc' else digits_of fuel' (n / 10) acc'
  end.

(** [str(n)] for [0 <= n]; a number has no more digits than bits. *)
Definition str_nonneg (n : Z) : string :=
  digits_of (S (Z.to_nat (Z.log2 n))) n EmptyString.

(** The number of decimal digits of [n], sign apart. *)
Definition decimal_digits (n : Z) : Z :=
  Z.of_nat (String.length (str_nonneg (Z.abs n))).

(** The text [format(n, "02d")] gives: sign-aware zero padding to
    width 2. *)
Definition zero_padded (n : Z) : string :=
  if n <? 0 then "-" ++ str_nonneg (- n)
  else if n <? 10 then "0" ++ str_nonneg n
  else str_nonneg n.

(** [format(n, "02d")]: the conversion of a number of more than
    [max_str_digits] digits raises [ValueError]. *)
Definition format_02d (n : Z) : res string :=
  if max_str_digits <? decimal_digits n then Raise ValueError
  else Ok (zero_padded n).

End Py.

(** ** [main.parse_time_to_24hour] *)

(** [hour, minute = map(int, parts)]: exactly two parts, both integers;
    anything else is a [ValueError]. *)
Definition unpack_hour_minute (parts : list string) : res (Z * Z) :=
  match parts with
  | [h; m] => hour <- Py.int h ;; minute <- Py.int m ;; Ok (hour, minute)
  | _ => Raise ValueError
  end.

Definition parse_time_to_24hour (time_str date_str : string) : option string :=
  let body : res string :=
    let time_str := Py.upper (Py.strip time_str) in
    hm <- (if Py.contains "AM" time_str || Py.contains "PM" time_str then
             let time_part :=
               Py.strip (Py.replace (Py.replace time_str "AM" "") "PM" "") in
             hm <- unpack_hour_minute (Py.split time_part ":") ;;
             let hour := fst hm in
             Ok (if Py.contains "PM" time_str && negb (hour =? 12) then hour + 12
                 else if Py.contains "AM" time_str && (hour =? 12) then 0
                 else hour,
                 snd hm)
           else unpack_hour_minute (Py.split time_str ":")) ;;
    hour_text <- Py.format_02d (fst hm) ;;
    minute_text <- Py.format_02d (snd hm) ;;
    Ok (date_str ++ " " ++ hour_text ++ ":" ++ minute_text)%string in
  match body with
  | Ok s => Some s
  | Raise _ => None
  end.

(** ** [json.loads]

    The decoder of the standard library on ASCII text: a scanner that cuts
    the text into tokens, then a parser with an explicit stack of open
    containers. Both recurse on their input, so decoding is total. A string
    value is kept as the UTF-8 bytes of its characters (an escape may denote
    a character outside ASCII). A float is kept as its literal. The
    interpreter's limits (recursion depth, digits of an integer literal) are
    not modelled. *)

#[warnings="-register-all"]
Inductive json : Type :=
| JNull
| JBool (b : bool)
| JInt (n : Z)
| JFloat (literal : string)
| JString (s : string)
| JArray (items : list json)
| JObject (members : list (string * json)).

Definition dquote : ascii := ascii_of_nat 34.
Definition backslash : ascii := ascii_of_nat 92.

(** A string literal of JSON or Python source: the text between double
    quotes. *)
Definition quoted (s : string) : string :=
  String dquote (s ++ String dquote EmptyString).

Module Json.

Local Open Scope string_scope.
Local Open Scope Z_scope.

(** A Python [dict] built from pairs in order: a later duplicate replaces
    the value and keeps the place of the first. *)
Fixpoint dict_set (k : string) (v : json) (d : list (string * json))
  : list (string * json) :=
  match d with
  | [] => [(k, v)]
  | (k', v') :: r =>
      if String.eqb k k' then (k, v) :: r else (k', v') :: dict_set k v r
  end.

Definition dict_of_pairs (ps : list (string * json)) : list (string * json) :=
  fold_left (fun d p => dict_set (fst p) (snd p) d) ps [].

Fixpoint dict_get (k : string) (d : list (string * json)) : option json :=
  match d with
  | [] => None
  | (k', v) :: r => if String.eqb k k' then Some v else dict_get k r
  end.

Fixpoint string_of_rev (l : list ascii) (acc : string) : string :=
  match l with
  | [] => acc
  | c :: r => string_of_rev r (String c acc)
  end.

Fixpoint span_digits (s : string) : string * string :=
  match s with
  | String c s' =>
      if is_digit c
      then let r := span_digits s' in (String c (fst r), snd r)
      else (EmptyString, s)
  | EmptyString => (EmptyString, EmptyString)
  end.

Fixpoint digits_value (s : string) (acc : Z) : Z :=
  match s with
  | String c s' => digits_value s' (10 * acc + digit_value c)
  | EmptyString => acc
  end.

(** A number: an optional minus sign, an integer part without leading
    zero, an optional fraction (a dot and digits), an optional exponent
    (e or E, an optional sign, digits). It is an [int] when it has neither
    fraction nor exponent. *)
Definition number_value (a : string) : option json :=
  let neg := match a with String "-" _ => true | _ => false end in
  let s1 := match a with String "-" r => r | _ => a end in
  let ip := fst (span_digits s1) in
  let s2 := snd (span_digits s1) in
  let int_ok :=
    match ip with
    | EmptyString => false
    | String "0" (String _ _) => false
    | _ => true
    end in
  let frac :=
    match s2 with
    | String "." r =>
        match fst (span_digits r) with
        | EmptyString => None
        | _ => Some (true, snd (span_digits r))
        end
    | _ => Some (false, s2)
    end in
  match frac with
  | None => None
  | Some (has_frac, s3) =>
      let expo :=
        match s3 with
        | String e r =>
            if Ascii.eqb e "e" || Ascii.eqb e "E" then
              let r' := match r with
                        | String "+" t => t
                        | String "-" t => t
                        | _ => r
                        end in
              match span_digits r' with
              | (EmptyString, _) => None
              | (_, EmptyString) => Some true
              | _ => None
              end
            else None
        | EmptyString => Some false
        end in
      match expo with
      | None => None
      | Some has_exp =>
          if int_ok then
            if has_frac || has_exp then Some (JFloat a)
            else Some (JInt (if neg then - digits_value ip 0 else digits_value ip 0))
          else None
      end
  end.

(** The value of a bare word or number. *)
Definition atom_value (a : string) : option json :=
  if String.eqb a "null" then Some JNull
  else if String.eqb a "true" then Some (JBool true)
  else if String.eqb a "false" then Some (JBool false)
  else if String.eqb a "NaN" || String.eqb a "Infinity" || String.eqb a "-Infinity"
  then Some (JFloat a)
  else number_value a.

Definition is_atom_char (c : ascii) : bool :=
  is_digit c || in_chars "a" "z" c || in_chars "A" "Z" c
  || Ascii.eqb c "+" || Ascii.eqb c "-" || Ascii.eqb c ".".

(** The whitespace of JSON: SPACE, TAB, LF, CR. *)
Definition is_ws (c : ascii) : bool :=
  (code c =? 32) || (code c =? 9) || (code c =? 10) || (code c =? 13).

Definition hex_value (c : ascii) : option Z :=
  if is_digit c then Some (digit_value c)
  else if in_chars "a" "f" c then Some (code c - 87)
  else if in_chars "A" "F" c then Some (code c - 55)
  else None.

Definition byte (n : Z) : ascii := ascii_of_N (Z.to_N n).

(** The UTF-8 bytes of a code point, last byte first. *)
Definition utf8_rev (cp : Z) : list ascii :=
  if cp <? 128 then [byte cp]
  else if cp <? 2048 then [byte (128 + cp mod 64); byte (192 + cp / 64)]
  else if cp <? 65536 then
    [byte (128 + cp mod 64); byte (128 + (cp / 64) mod 64); byte (224 + cp / 4096)]
  else
    [byte (128 + cp mod 64); byte (128 + (cp / 64) mod 64);
     byte (128 + (cp / 4096) mod 64); byte (240 + cp / 262144)].

Definition is_high_surrogate (v : Z) : bool := (55296 <=? v) && (v <=? 56319).
Definition is_low_surrogate (v : Z) : bool := (56320 <=? v) && (v <=? 57343).

Inductive token : Type :=
| TLBrace | TRBrace | TLBracket | TRBracket | TColon | TComma
| TString (s : string)
| TAtom (v : json).

(** Scanner modes. String content is kept reversed; [high] is a high
    surrogate just decoded from an escape, waiting for its other half. *)
Inductive mode : Type :=
| MDefault
| MAtom (acc : list ascii)
| MString (acc : list ascii) (high : option Z)
| MEscape (acc : list ascii) (high : option Z)
| MUnicode (acc : list ascii) (high : option Z) (todo : nat) (v : Z).

Definition flush (high : option Z) (acc : list ascii) : list ascii :=
  match high with
  | Some h => utf8_rev h ++ acc
  | None => acc
  end.

(** The character an escape letter denotes. *)
Definition simple_escape (c : ascii) : option ascii :=
  if Ascii.eqb c dquote then Some dquote
  else if Ascii.eqb c backslash then Some backslash
  else if Ascii.eqb c "/" then Some "/"%char
  else if Ascii.eqb c "b" then Some (byte 8)
  else if Ascii.eqb c "f" then Some (byte 12)
  else if Ascii.eqb c "n" then Some (byte 10)
  else if Ascii.eqb c "r" then Some (byte 13)
  else if Ascii.eqb c "t" then Some (byte 9)
  else None.

(** The mode after the four hex digits of an escape gave [v]. *)
Definition after_unicode (acc : list ascii) (high : option Z) (v : Z) : mode :=
  match high with
  | Some h =>
      if is_low_surrogate v
      then MString (utf8_rev (65536 + (h - 55296) * 1024 + (v - 56320)) ++ acc) None
      else if is_high_surrogate v then MString (utf8_rev h ++ acc) (Some v)
      else MString (utf8_rev v ++ utf8_rev h ++ acc) None
  | None =>
      if is_high_surrogate v then MString acc (Some v)
      else MString (utf8_rev v ++ acc) None
  end.

(** A character met outside any token. *)
Definition start_token (c : ascii) : option (mode * list token) :=
  if is_ws c then Some (MDefault, [])
  else if Ascii.eqb c "{" then Some (MDefault, [TLBrace])
  else if Ascii.eqb c "}" then Some (MDefault, [TRBrace])
  else if Ascii.eqb c "[" then Some (MDefault, [TLBracket])
  else if Ascii.eqb c "]" then Some (MDefault, [TRBracket])
  else if Ascii.eqb c ":" then Some (MDefault, [TColon])
  else if Ascii.eqb c "," then Some (MDefault, [TComma])
  else if Ascii.eqb c dquote then Some (MString [] None, [])
  else if is_atom_char c then Some (MAtom [c], [])
  else None.

(** The scanner; [out] is the tokens so far, last first. *)
Fixpoint scan (s : string) (m : mode) (out : list token) : option (list token) :=
  match s with
  | EmptyString =>
      match m with
      | MDefault => Some (rev out)
      | MAtom acc =>
          match atom_value (string_of_rev acc EmptyString) with
          | Some v => Some (rev (TAtom v :: out))
          | None => None
          end
      | _ => None
      end
  | String c s' =>
      match m with
      | MDefault =>
          match start_token c with
          | Some (m', ts) => scan s' m' (ts ++ out)
          | None => None
          end
      | MAtom acc =>
          if is_atom_char c then scan s' (MAtom (c :: acc)) out
          else
            match atom_value (string_of_rev acc EmptyString), start_token c with
            | Some v, Some (m', ts) => scan s' m' (ts ++ TAtom v :: out)
            | _, _ => None
            end
      | MString acc high =>
          if Ascii.eqb c dquote
          then scan s' MDefault
                 (TString (string_of_rev (flush high acc) EmptyString) :: out)
          else if Ascii.eqb c backslash then scan s' (MEscape acc high) out
          else if code c <? 32 then None
          else scan s' (MString (c :: flush high acc) None) out
      | MEscape acc high =>
          if Ascii.eqb c "u" then scan s' (MUnicode acc high 4 0) out
          else
            match simple_escape c with
            | Some ch => scan s' (MString (ch :: flush high acc) None) out
            | None => None
            end
      | MUnicode acc high todo v =>
          match hex_value c with
          | Some d =>
              match todo with
              | S (S k) => scan s' (MUnicode acc high (S k) (16 * v + d)) out
              | _ => scan s' (after_unicode acc high (16 * v + d)) out
              end
          | None => None
          end
      end
  end.

(** An open container: an array with its items so far, or an object with
    its members so far and the key whose value is awaited. Last first. *)
Inductive frame : Type :=
| FArray (items : list json)
| FObject (members : list (string * json)) (key : option string).

Inductive expect : Type :=
| SValue          (* a value *)
| SValueOrClose   (* just after an opening bracket *)
| SKeyOrClose     (* just after an opening brace *)
| SKey            (* after a comma in an object *)
| SColon
| SNext           (* a comma or the end of the container *)
| SDone (v : json).

(** A value is complete: it is the document, an item or a member. *)
Definition after_value (v : json) (stack : list frame)
  : option (expect * list frame) :=
  match stack with
  | [] => Some (SDone v, [])
  | FArray items :: r => Some (SNext, FArray (v :: items) :: r)
  | FObject ms (Some k) :: r => Some (SNext, FObject ((k, v) :: ms) None :: r)
  | FObject _ None :: _ => None
  end.

Definition close_array (stack : list frame) : option (expect * list frame) :=
  match stack with
  | FArray items :: r => after_value (JArray (rev items)) r
  | _ => None
  end.

Definition close_object (stack : list frame) : option (expect * list frame) :=
  match stack with
  | FObject ms None :: r => after_value (JObject (dict_of_pairs (rev ms))) r
  | _ => None
  end.

Definition step (t : token) (st : expect) (stack : list frame)
  : option (expect * list frame) :=
  let value :=
    match t with
    | TAtom v => after_value v stack
    | TString s => after_value (JString s) stack
    | TLBracket => Some (SValueOrClose, FArray [] :: stack)
    | TLBrace => Some (SKeyOrClose, FObject [] None :: stack)
    | _ => None
    end in
  let key :=
    match t, stack with
    | TString k, FObject ms None :: r => Some (SColon, FObject ms (Some k) :: r)
    | _, _ => None
    end in
  match st with
  | SValue => value
  | SValueOrClose => match t with TRBracket => close_array stack | _ => value end
  | SKeyOrClose => match t with TRBrace => close_object stack | _ => key end
  | SKey => key
  | SColon => match t with TColon => Some (SValue, stack) | _ => None end
  | SNext =>
      match t, stack with
      | TComma, FArray _ :: _ => Some (SValue, stack)
      | TComma, FObject _ _ :: _ => Some (SKey, stack)
      | TRBracket, _ => close_array stack
      | TRBrace, _ => close_object stack
      | _, _ => None
      end
  | SDone _ => None
  end.

Fixpoint parse (ts : list token) (st : expect) (stack : list frame) : option json :=
  match ts with
  | [] => match st with SDone v => Some v | _ => None end
  | t :: ts' =>
      match step t st stack with
      | Some (st', stack') => parse ts' st' stack'
      | None => None
      end
  end.

Definition loads (s : string) : res json :=
  match scan s MDefault [] with
  | Some ts =>
      match parse ts SValue [] with
      | Some v => Ok v
      | None => Raise JSONDecodeError
      end
  | None => Raise JSONDecodeError
  end.

End Json.

(** ** [main.main]: the tool-call parser and the dispatch loop *)

(** [v[key]] on a decoded value: a [dict] answers or raises [KeyError];
    every other value (a string, a list, a number, [None]) raises
    [TypeError] on a string subscript. *)
Definition getitem (v : json) (key : string) : res json :=
  match v with
  | JObject d =>
      match Json.dict_get key d with
      | Some x => Ok x
      | None => Raise KeyError
      end
  | _ => Raise TypeError
  end.

(** Lines 169-177: the detection heuristic and the extraction of the
    invocation. [Ok None] is the [else] branch of line 200. *)
Definition parse_tool_call (response_text : string) : res (option (json * json)) :=
  if Py.contains "tool_call" response_text && Py.contains "{" response_text then
    let json_start := Py.find response_text "{" in
    let json_end := Py.rfind response_text "}" + 1 in
    let json_str := Py.slice response_text json_start json_end in
    tool_call_data <- Json.loads json_str ;;
    tool_call <- getitem tool_call_data "tool_call" ;;
    function_name <- getitem tool_call "name" ;;
    tool_call' <- getitem tool_call_data "tool_call" ;;
    function_args <- getitem tool_call' "arguments" ;;
    Ok (Some (function_name, function_args))
  else Ok None.

(** A call of [f] with [function_args] unpacked as keyword arguments (the
    double-star form): the argument must be a mapping, every key must
    name a parameter of [f] and every parameter without default must be
    given; otherwise the call raises [TypeError] before the body of [f]
    runs. *)
Definition bind_keywords (parameters required : list string) (function_args : json)
  : res (list (string * json)) :=
  match function_args with
  | JObject d =>
      if forallb (fun kv => existsb (String.eqb (fst kv)) parameters) d
         && forallb (fun p => existsb (fun kv => String.eqb p (fst kv)) d) required
      then Ok d
      else Raise TypeError
  | _ => Raise TypeError
  end.

(** [function_name == name] *)
Definition is_name (function_name : json) (name : string) : bool :=
  match function_name with
  | JString s => String.eqb s name
  | _ => false
  end.

(** The value bound to a parameter that was given. *)
Definition argument (d : list (string * json)) (name : string) : json :=
  match Json.dict_get name d with
  | Some v => v
  | None => JNull
  end.

(** [json.dumps({"status": "error", "message": "Unknown tool."})] *)
Definition unknown_tool_result : string :=
  ("{" ++ quoted "status" ++ ": " ++ quoted "error" ++ ", "
   ++ quoted "message" ++ ": " ++ quoted "Unknown tool." ++ "}")%string.

Inductive role : Type := user | model.

(** An entry of [conversation_history]. *)
Record turn : Type := { turn_role : role; parts : list string }.

Definition user_turn (text : string) : turn :=
  {| turn_role := user; parts := [text] |}.
Definition model_turn (text : string) : turn :=
  {| turn_role := model; parts := [text] |}.

(** How an iteration of the [while True] loop ends: at the next iteration,
    at [break], or with an exception that nothing catches. *)
Inductive signal : Type :=
| Continue
| Break
| Uncaught (e : exn).

Inductive session : Type :=
| Running
| Ended
| Crashed (e : exn).

Definition exit_words : list string := ["exit"; "quit"; "goodbye"; "stop"]%string.

Definition greeting : string :=
  "Hello! I'm your Smart Scheduler assistant. I can help you find available times and schedule meetings in your calendar. What would you like to schedule?".

Section Dispatch.

(** The collaborators. [World] is everything outside the process: the
    microphone, the speaker, the language model and the calendar. Each
    tool of [calendar_tools] wraps its body in [try]/[except Exception]
    and returns the text of a status dictionary, so from the loop a tool
    is a total function of its bound arguments. *)
Variable World : Type.
Variable listen_for_input : World -> option string * World.
Variable speak_response : string -> World -> World.
(** [convo.send_message(message).text] for a chat started on [history].
    The chat keeps a list of its own, built from the one it is given, so
    what it records does not reach [conversation_history]. Failures of
    the microphone, the speaker or the language model are outside this
    model. *)
Variable send_message : list turn -> string -> World -> string * World.
Variable get_calendar_service : World -> res unit * World.
Variable find_available_slots_tool : json -> json -> World -> string * World.
Variable schedule_meeting_tool :
  json -> json -> json -> json -> World -> string * World.
Variable SYSTEM_PROMPT : string.

(** Lines 182-187. *)
Definition execute_tool (function_name function_args : json) (w : World)
  : res (string * World) :=
  if is_name function_name "find_available_slots" then
    d <- bind_keywords ["duration_minutes"; "date_str"]%string
           ["duration_minutes"; "date_str"]%string function_args ;;
    Ok (find_available_slots_tool (argument d "duration_minutes")
          (argument d "date_str") w)
  else if is_name function_name "schedule_meeting" then
    d <- bind_keywords
           ["title"; "duration_minutes"; "start_datetime"; "description"]%string
           ["title"; "duration_minutes"; "start_datetime"]%string function_args ;;
    Ok (schedule_meeting_tool (argument d "title")
          (argument d "duration_minutes") (argument d "start_datetime")
          (match Json.dict_get "description" d with
           | Some v => v
           | None => JString ""
           end) w)
  else Ok (unknown_tool_result, w).

(** Lines 167-187, up to the first statement that touches the history:
    what the [try] block computes before line 192, or the exception it
    raises there. *)
Definition detect_and_execute (response_text : string) (w : World)
  : res (option (string * World)) :=
  invocation <- parse_tool_call response_text ;;
  match invocation with
  | Some (function_name, function_args) =>
      r <- execute_tool function_name function_args w ;;
      Ok (Some r)
  | None => Ok None
  end.

(** Lines 149-209: one iteration of the loop. *)
Definition iteration (conversation_history : list turn) (w : World)
  : signal * list turn * World :=
  let (heard, w) := listen_for_input w in
  match heard with
  | None => (Continue, conversation_history, w)
  | Some EmptyString => (Continue, conversation_history, w)
  | Some user_input =>
      if existsb (String.eqb (Py.lower user_input)) exit_words then
        (Break, conversation_history,
         speak_response "Goodbye! Have a great day!" w)
      else
        let conversation_history :=
          conversation_history ++ [user_turn user_input] in
        let chat := conversation_history in
        let (response, w) := send_message chat user_input w in
        let response_text := Py.strip response in
        match detect_and_execute response_text w with
        | Ok (Some (tool_result, w)) =>
            let conversation_history :=
              conversation_history ++ [model_turn response_text] in
            let message := ("TOOL_RESPONSE: " ++ tool_result)%string in
            let conversation_history :=
              conversation_history ++ [user_turn message] in
            let (final_response, w) :=
              send_message (chat ++ [user_turn user_input; model_turn response])
                message w in
            let w := speak_response final_response w in
            (Continue, conversation_history ++ [model_turn final_response], w)
        | Ok None =>
            let w := speak_response response_text w in
            (Continue, conversation_history ++ [model_turn response_text], w)
        | Raise JSONDecodeError | Raise KeyError =>
            let w := speak_response response_text w in
            (Continue, conversation_history ++ [model_turn response_text], w)
        | Raise e => (Uncaught e, conversation_history, w)
        end
  end.

(** The first [n] iterations of the [while True] loop. *)
Fixpoint main_loop (n : nat) (conversation_history : list turn) (w : World)
  : session * list turn * World :=
  match n with
  | O => (Running, conversation_history, w)
  | S n' =>
      match iteration conversation_history w with
      | (Continue, h, w') => main_loop n' h w'
      | (Break, h, w') => (Ended, h, w')
      | (Uncaught e, h, w') => (Crashed e, h, w')
      end
  end.

(** Lines 125-146 and the loop, observed for [n] iterations. *)
Definition main (n : nat) (w : World) : session * list turn * World :=
  match get_calendar_service w with
  | (Raise _, w) => (Ended, [], w)
  | (Ok _, w) =>
      let conversation_history :=
        [user_turn SYSTEM_PROMPT; model_turn greeting] in
      main_loop n conversation_history (speak_response greeting w)
  end.

End Dispatch.

(** ** A scripted session

    Stub collaborators for closed examples: the utterances still to be
    heard, the outputs the model will give, and a log of what was spoken and
    of the tools that ran. *)

Record script : Type := {
  utterances : list (option string);
  model_outputs : list string;
  spoken : list string;
  tools_run : list string
}.

Definition stub_listen (w : script) : option string * script :=
  match utterances w with
  | u :: r => (u, {| utterances := r; model_outputs := model_outputs w;
                     spoken := spoken w; tools_run := tools_run w |})
  | [] => (Some "exit"%string, w)
  end.

Definition stub_speak (text : string) (w : script) : script :=
  {| utterances := utterances w; model_outputs := model_outputs w;
     spoken := spoken w ++ [text]; tools_run := tools_run w |}.

Definition stub_send (history : list turn) (message : string) (w : script)
  : string * script :=
  match model_outputs w with
  | o :: r => (o, {| utterances := utterances w; model_outputs := r;
                     spoken := spoken w; tools_run := tools_run w |})
  | [] => (EmptyString, w)
  end.

Definition stub_tool (name result : string) (w : script) : string * script :=
  (result, {| utterances := utterances w; model_outputs := model_outputs w;
              spoken := spoken w; tools_run := tools_run w ++ [name] |}).

Definition stub_result : string :=
  ("{" ++ quoted "status" ++ ": " ++ quoted "success" ++ "}")%string.

Definition stub_iteration : list turn -> script -> signal * list turn * script :=
  iteration script stub_listen stub_speak stub_send
    (fun _ _ => stub_tool "find_available_slots" stub_result)
    (fun _ _ _ _ => stub_tool "schedule_meeting" stub_result).

Definition hears_and_answers (utterance output : string) : script :=
  {| utterances := [Some utterance]; model_outputs := [output];
     spoken := []; tools_run := [] |}.

(** ** Vocabulary of the statements *)

(** The working window of the day of ordinal [day]. *)
Definition time_min_of (day : Z) : Datetime.datetime := Datetime.combine day 9 0.
Definition time_max_of (day : Z) : Datetime.datetime := Datetime.combine day 17 0.

Definition minutes (n : Z) : Z := n * Datetime.us_per_minute.

(** The half-open interval [start, start + duration) overlaps no busy
    interval, under the overlap test of the interval model. *)
Definition conflict_free (busy : list (Z * Z)) (duration start : Z) : Prop :=
  forall b, In b busy ->
    overlaps start (start + duration) (fst b) (snd b) = false.

(** The busy intervals cover every instant of [lo, hi). *)
Definition covers (busy : list (Z * Z)) (lo hi : Z) : Prop :=
  forall t, lo <= t < hi -> exists b, In b busy /\ fst b <= t < snd b.

(** The cursor positions whose slot is free. *)
Definition accepted (busy : list (Z * Z)) (duration_minutes : Z) (time_min : Z)
  : list Z :=
  filter (fun s => is_free s (s + minutes duration_minutes) busy)
         (cursor_positions time_min duration_minutes).

(** The first [n] cursor positions from [s], and the number of positions the
    loop still visits from [s]. *)
Definition positions_from (s : Z) (n : nat) : list Z :=
  map (fun k => s + Z.of_nat k * (30 * Datetime.us_per_minute)) (seq 0 n).

Definition remaining (duration_minutes time_max s : Z) : nat :=
  Z.to_nat ((time_max - minutes duration_minutes - s)
            / (30 * Datetime.us_per_minute) + 1).

(** The status dictionary built from what the loop collected (lines
    127-139). *)
Definition report (d : Z) (date : string) (l : list Z) : slots_result :=
  match l with
  | [] => NoSlots d date
  | _ => Success date d (firstn 6 l)
  end.

(** ** Example data: 24 June 2025 *)

Definition example_date : string := "2025-06-24".
Definition example_day : Z := 739426.

Definition at_time (h mi : Z) : Datetime.datetime :=
  Datetime.combine example_day h mi.

(** An event of the example day, from [h1:m1] to [h2:m2]. *)
Definition meeting (h1 m1 h2 m2 : Z) : event :=
  {| ev_start := Instant (at_time h1 m1); ev_end := Instant (at_time h2 m2) |}.

Definition all_day_event : event := {| ev_start := Absent; ev_end := Absent |}.

(** ** Vocabulary of the statements about the time normalizer *)

(** The text that [parse_time_to_24hour] splits at the colon. *)
Definition time_part (time_str : string) : string :=
  let t := Py.upper (Py.strip time_str) in
  if Py.contains "AM" t || Py.contains "PM" t
  then Py.strip (Py.replace (Py.replace t "AM" "") "PM" "")
  else t.

(** [s] is an integer literal for [int]. *)
Definition is_int_literal (s : string) : Prop := exists n, Py.int s = Ok n.

Inductive meridiem : Type := AM | PM.

(** The suffix in any case. *)
Definition suffix_texts (p : meridiem) : list string :=
  match p with
  | AM => ["AM"; "am"; "Am"; "aM"]%string
  | PM => ["PM"; "pm"; "Pm"; "pM"]%string
  end.

(** The suffix glued to the time or after a space. *)
Definition separators : list string := [""; " "]%string.

(** An hour as one writes it: bare, or zero padded below ten. *)
Definition hour_texts (h : Z) : list string :=
  if h <? 10
  then [String (digit_char h) EmptyString; two_digits h]
  else [two_digits h].

(** The hour of the 24-hour clock: 12 AM is 0, 12 PM stays 12, any other
    hour gains 12 with PM. *)
Definition to_24hour (h : Z) (p : meridiem) : Z :=
  match p with
  | AM => if h =? 12 then 0 else h
  | PM => if h =? 12 then 12 else h + 12
  end.

(** A well-formed 12-hour expression, and the canonical text of a time. *)
Definition clock_text (hour_text : string) (m : Z) (sep suffix : string) : string :=
  (hour_text ++ ":" ++ two_digits m ++ sep ++ suffix)%string.

Definition canonical (date : string) (h m : Z) : string :=
  (date ++ " " ++ two_digits h ++ ":" ++ two_digits m)%string.

Definition option_string_eqb (a b : option string) : bool :=
  match a, b with
  | Some x, Some y => String.eqb x y
  | None, None => true
  | _, _ => false
  end.

(** Every well-formed 12-hour expression, and every well-formed 24-hour
    expression, each with the hour and minute it denotes. *)
Definition well_formed_12hour : list (string * (Z * Z)) :=
  flat_map (fun h =>
    flat_map (fun m =>
      flat_map (fun p =>
        flat_map (fun ht =>
          flat_map (fun sep =>
            map (fun suf => (clock_text ht m sep suf, (to_24hour h p, m)))
                (suffix_texts p))
            separators)
          (hour_texts h))
        [AM; PM])
      (map Z.of_nat (seq 0 60)))
    (map Z.of_nat (seq 1 12)).

Definition well_formed_24hour : list (string * (Z * Z)) :=
  flat_map (fun h =>
    flat_map (fun m =>
      map (fun ht => (clock_text ht m EmptyString EmptyString, (h, m)))
          (hour_texts h))
      (map Z.of_nat (seq 0 60)))
    (map Z.of_nat (seq 0 24)).

(** The normalizer gives the canonical text of the time an expression
    denotes. *)
Definition normalizes (c : string * (Z * Z)) : bool :=
  option_string_eqb
    (parse_time_to_24hour (fst c) EmptyString)
    (Some (canonical EmptyString (fst (snd c)) (snd (snd c)))).

(** The hour after lines 80-83: the 12-hour adjustment, made only when the
    text carries AM or PM. *)
Definition adjust_hour (time_str : string) (hour : Z) : Z :=
  let t := Py.upper (Py.strip time_str) in
  if Py.contains "AM" t || Py.contains "PM" t then
    if Py.contains "PM" t && negb (hour =? 12) then hour + 12
    else if Py.contains "AM" t && (hour =? 12) then 0
    else hour
  else hour.

(** The characters an integer literal is made of. *)
Definition is_int_char (c : ascii) : bool :=
  is_digit c || Ascii.eqb c "_" || Ascii.eqb c "+" || Ascii.eqb c "-"
  || Py.is_int_space c.

Fixpoint all_chars (p : ascii -> bool) (s : string) : bool :=
  match s with
  | String c s' => p c && all_chars p s'
  | EmptyString => true
  end.

(** The text is made of ASCII characters. The string operations of [Py]
    are those of Python on such text; what Python does with other
    characters (Unicode digits and whitespace, case mappings) is outside
    the model. *)
Definition is_ascii (s : string) : bool := all_chars (fun c => code c <? 128) s.

(** A literal of [n] nines. *)
Fixpoint nines (n : nat) : string :=
  match n with
  | O => EmptyString
  | S n' => String "9" (nines n')
  end.

(** ** Example data: model outputs *)

(** The example of the specification: a tool call embedded in prose. *)
Definition example_tool_call : string :=
  ("Sure! {" ++ quoted "tool_call" ++ ": {" ++ quoted "name" ++ ": "
   ++ quoted "find_available_slots" ++ ", " ++ quoted "arguments" ++ ": {"
   ++ quoted "duration_minutes" ++ ": 30, " ++ quoted "date_str" ++ ": "
   ++ quoted "2025-06-24" ++ "}}}")%string.

(** A tool call whose argument names are not the parameters of the tool. *)
Definition mismatched_call : string :=
  ("{" ++ quoted "tool_call" ++ ": {" ++ quoted "name" ++ ": "
   ++ quoted "find_available_slots" ++ ", " ++ quoted "arguments" ++ ": {"
   ++ quoted "duration" ++ ": 30, " ++ quoted "date" ++ ": "
   ++ quoted "2025-06-24" ++ "}}}")%string.

(** A JSON object whose ["tool_call"] member is not an object. *)
Definition malformed_call : string :=
  ("{" ++ quoted "tool_call" ++ ": " ++ quoted "find_available_slots" ++ "}")%string.

(** A call of a tool that does not exist. *)
Definition unknown_call : string :=
  ("{" ++ quoted "tool_call" ++ ": {" ++ quoted "name" ++ ": "
   ++ quoted "cancel_meeting" ++ ", " ++ quoted "arguments" ++ ": {}}}")%string.

(** * The rest of [calendar_tools]: dates, texts, meetings and credentials *)
(** ** Dates of the calendar and their rendering *)

Module Date.

(** Days in 400, 100 and 4 years. *)
Definition DI400Y : Z := 146097.
Definition DI100Y : Z := 36524.
Definition DI4Y : Z := 1461.

(** The month and the day of the [n]-th day (from 0) of a year: the end of
    [_ord2ymd], from the estimate [month = (n + 50) >> 5] on. *)
Definition month_day (leapyear : bool) (n : Z) : Z * Z :=
  let month := Z.shiftr (n + 50) 5 in
  let preceding :=
    nth (Z.to_nat (month - 1)) Datetime.DAYS_BEFORE_MONTH 0
    + (if (2 <? month) && leapyear then 1 else 0) in
  if n <? preceding then
    let month := month - 1 in
    let preceding :=
      preceding
      - (nth (Z.to_nat (month - 1)) Datetime.DAYS_IN_MONTH 0
         + (if (month =? 2) && leapyear then 1 else 0)) in
    (month, n - preceding + 1)
  else (month, n - preceding + 1).

(** [_ord2ymd(n)]: year, month and day of the day of ordinal [n], the
    inverse of [ymd2ord]. *)
Definition ord2ymd (n : Z) : Z * Z * Z :=
  let n := n - 1 in
  let n400 := n / DI400Y in
  let n := n mod DI400Y in
  let year := n400 * 400 + 1 in
  let n100 := n / DI100Y in
  let n := n mod DI100Y in
  let n4 := n / DI4Y in
  let n := n mod DI4Y in
  let n1 := n / 365 in
  let n := n mod 365 in
  let year := year + n100 * 100 + n4 * 4 + n1 in
  if (n1 =? 4) || (n100 =? 4) then (year - 1, 12, 31)
  else
    let leapyear := (n1 =? 3) && (negb (n4 =? 24) || (n100 =? 3)) in
    let (month, day) := month_day leapyear n in
    (year, month, day).

(** The ordinal of the day of a datetime. *)
Definition toordinal (t : Datetime.datetime) : Z := t / Datetime.us_per_day + 1.

Definition year (t : Datetime.datetime) : Z := fst (fst (ord2ymd (toordinal t))).
Definition month (t : Datetime.datetime) : Z := snd (fst (ord2ymd (toordinal t))).
Definition day (t : Datetime.datetime) : Z := snd (ord2ymd (toordinal t)).

(** [t.weekday()]: Monday is 0. *)
Definition weekday (t : Datetime.datetime) : Z := (toordinal t + 6) mod 7.

Definition second (t : Datetime.datetime) : Z :=
  (t mod Datetime.us_per_minute) / 1000000.
Definition microsecond (t : Datetime.datetime) : Z := t mod 1000000.

End Date.

(** [str(n)] for any integer. *)
Definition str_int (n : Z) : string :=
  if n <? 0 then ("-" ++ Py.str_nonneg (- n))%string else Py.str_nonneg n.

(** Zero padding to four digits: the year of [isoformat]. *)
Definition four_digits (n : Z) : string :=
  (two_digits (n / 100) ++ two_digits (n mod 100))%string.

(** [%Y-%m-%d] of [strftime]. The C library writes the year without
    padding, so the text has a four-digit year from the year 1000 on. *)
Definition strftime_Ymd (t : Datetime.datetime) : string :=
  (Py.str_nonneg (Date.year t) ++ "-" ++ two_digits (Date.month t) ++ "-"
     ++ two_digits (Date.day t))%string.

(** [t.strftime("%Y-%m-%d %H:%M")] *)
Definition strftime_YmdHM (t : Datetime.datetime) : string :=
  (strftime_Ymd t ++ " " ++ strftime_HM t)%string.

(** [t.strftime("%Y-%m-%d %I:%M %p")] *)
Definition strftime_YmdIMp (t : Datetime.datetime) : string :=
  (strftime_Ymd t ++ " " ++ strftime_IMp t)%string.

Definition day_names : list string :=
  ["Monday"; "Tuesday"; "Wednesday"; "Thursday"; "Friday"; "Saturday";
   "Sunday"]%string.
Definition month_names : list string :=
  ["January"; "February"; "March"; "April"; "May"; "June"; "July"; "August";
   "September"; "October"; "November"; "December"]%string.

(** [t.strftime("%A, %B %d at %I:%M %p")], in the C locale. *)
Definition strftime_long (t : Datetime.datetime) : string :=
  (nth (Z.to_nat (Date.weekday t)) day_names "" ++ ", "
     ++ nth (Z.to_nat (Date.month t - 1)) month_names "" ++ " "
     ++ two_digits (Date.day t) ++ " at " ++ strftime_IMp t)%string.

(** Six digits, zero padded: the microseconds of [isoformat]. *)
Definition six_digits (n : Z) : string :=
  (two_digits (n / 10000) ++ two_digits (n / 100 mod 100)
     ++ two_digits (n mod 100))%string.

(** [t.isoformat()]: the microseconds are written only when there are
    some. *)
Definition isoformat (t : Datetime.datetime) : string :=
  (four_digits (Date.year t) ++ "-" ++ two_digits (Date.month t) ++ "-"
     ++ two_digits (Date.day t) ++ "T" ++ strftime_HM t ++ ":"
     ++ two_digits (Date.second t)
     ++ (if (Date.microsecond t =? 0)%Z then ""
         else "." ++ six_digits (Date.microsecond t)))%string.

(** The dictionary of an available slot (lines 117-121 of
    [calendar_tools.py]). *)
Record slot_entry : Type := {
  slot_time : string;
  slot_time_24h : string;
  slot_datetime : string
}.

Definition slot_entry_of (slot_start : Datetime.datetime) : slot_entry :=
  {| slot_time := strftime_IMp slot_start;
     slot_time_24h := strftime_HM slot_start;
     slot_datetime := strftime_YmdHM slot_start |}.

(** ** [datetime.strptime(start_datetime, "%Y-%m-%d %H:%M")]

    The format compiles to the regular expression of the date, followed by
    [\s+(2[0-3]|[0-1]\d|\d):([0-5]\d|\d)]; the rules are those of the
    date. *)

(** [\s+] *)
Definition match_spaces (s : string) : option string :=
  match s with
  | String c rest =>
      if Py.is_space c then Some (Py.lstrip_with Py.is_space rest) else None
  | EmptyString => None
  end.

(** The hour and the colon after it. *)
Definition match_hour (s : string) : option (Z * string) :=
  let one :=
    match s with
    | String c1 (String ":" rest) =>
        if is_digit c1 then Some (digit_value c1, rest) else None
    | _ => None
    end in
  match s with
  | String c1 (String c2 (String ":" rest)) =>
      if ((Ascii.eqb c1 "2") && in_chars "0" "3" c2)
         || (in_chars "0" "1" c1 && is_digit c2)
      then Some (10 * digit_value c1 + digit_value c2, rest)
      else one
  | _ => one
  end.

Definition match_minute (s : string) : option (Z * string) :=
  let one :=
    match s with
    | String c1 rest =>
        if is_digit c1 then Some (digit_value c1, rest) else None
    | EmptyString => None
    end in
  match s with
  | String c1 (String c2 rest) =>
      if in_chars "0" "5" c1 && is_digit c2
      then Some (10 * digit_value c1 + digit_value c2, rest)
      else one
  | _ => one
  end.

Definition strptime_datetime (start_datetime : string)
  : res Datetime.datetime :=
  match start_datetime with
  | String y1 (String y2 (String y3 (String y4 (String "-" rest)))) =>
      if is_digit y1 && is_digit y2 && is_digit y3 && is_digit y4 then
        match match_month rest with
        | Some (m, rest) =>
            match match_day rest with
            | Some (d, rest) =>
                match match_spaces rest with
                | Some rest =>
                    match match_hour rest with
                    | Some (h, rest) =>
                        match match_minute rest with
                        | Some (mi, EmptyString) =>
                            day <- Datetime.ymd2ord
                                     (1000 * digit_value y1
                                      + 100 * digit_value y2
                                      + 10 * digit_value y3
                                      + digit_value y4) m d ;;
                            Ok (Datetime.combine day h mi)
                        | _ => Raise ValueError
                        end
                    | None => Raise ValueError
                    end
                | None => Raise ValueError
                end
            | None => Raise ValueError
            end
        | None => Raise ValueError
        end
      else Raise ValueError
  | _ => Raise ValueError
  end.

(** ** [calendar_tools.schedule_meeting] *)

(** The event handed to [events().insert]; both ["timeZone"] entries are
    ['UTC']. *)
Record event_body : Type := {
  body_summary : string;
  body_description : string;
  body_start : string;
  body_end : string
}.

(** The ["details"] of a success. *)
Record meeting_details : Type := {
  details_title : string;
  details_start_time : string;
  details_end_time : string;
  details_duration : string
}.

(** The dictionary handed to [json.dumps]. The two [except] clauses give
    the same status with two messages: [http] tells the clause of
    [HttpError], whose message starts with "Failed to schedule meeting";
    the text of an exception is not modelled. *)
Inductive meeting_result : Type :=
| Scheduled (message : string) (event_id event_link : json)
            (details : meeting_details)
| NotScheduled (http : bool).

Definition schedule_message (title : string) (start_dt : Datetime.datetime)
  : string :=
  ("Meeting '" ++ title ++ "' scheduled successfully for "
     ++ strftime_long start_dt)%string.

Section ScheduleMeeting.

(** The calendar collaborator. [ServiceError] stands for the client's
    [HttpError]; [insert_event] is [events().insert(calendarId='primary',
    body=event).execute()], which answers the created event. *)
Variable Calendar : Type.
Variable get_calendar_service : Calendar -> res unit * Calendar.
Variable insert_event :
  event_body -> Calendar -> res (list (string * json)) * Calendar.

(** Lines 163-164: the start and the end of the meeting. *)
Definition meeting_span (duration_minutes : Z) (start_datetime : string)
  : res (Datetime.datetime * Datetime.datetime) :=
  start_dt <- strptime_datetime start_datetime ;;
  delta <- Datetime.timedelta_minutes duration_minutes ;;
  end_dt <- Datetime.add start_dt delta ;;
  Ok (start_dt, end_dt).

Definition schedule_meeting (title : string) (duration_minutes : Z)
    (start_datetime description : string) (c : Calendar)
  : meeting_result * Calendar :=
  let body : res meeting_result * Calendar :=
    let (service, c) := get_calendar_service c in
    match service with
    | Raise e => (Raise e, c)
    | Ok _ =>
        match meeting_span duration_minutes start_datetime with
        | Raise e => (Raise e, c)
        | Ok (start_dt, end_dt) =>
            let event :=
              {| body_summary := title;
                 body_description := description;
                 body_start := isoformat start_dt;
                 body_end := isoformat end_dt |} in
            let (created, c) := insert_event event c in
            match created with
            | Raise e => (Raise e, c)
            | Ok created_event =>
                (Ok (Scheduled
                       (schedule_message title start_dt)
                       (argument created_event "id")
                       (match Json.dict_get "htmlLink" created_event with
                        | Some link => link
                        | None => JString ""
                        end)
                       {| details_title := title;
                          details_start_time := strftime_YmdIMp start_dt;
                          details_end_time := strftime_YmdIMp end_dt;
                          details_duration :=
                            (str_int duration_minutes ++ " minutes")%string |}),
                 c)
            end
        end
    end in
  match body with
  | (Ok result, c) => (result, c)
  | (Raise ServiceError, c) => (NotScheduled true, c)
  | (Raise _, c) => (NotScheduled false, c)
  end.

End ScheduleMeeting.

(** A calendar that records what is inserted and answers an id. *)
Definition recording_service (c : list event_body) : res unit * list event_body :=
  (Ok tt, c).
Definition recording_insert (event : event_body) (c : list event_body)
  : res (list (string * json)) * list event_body :=
  (Ok [("id", JString "e1")]%string, c ++ [event]).

(** ** [calendar_tools.get_upcoming_events] *)

(** [d.get(key, default)] *)
Definition dict_get_default (key : string) (d : list (string * json))
    (default : json) : json :=
  match Json.dict_get key d with
  | Some v => v
  | None => default
  end.

(** The entry of one event (lines 237-243); [None] is an exception: the
    event has no ["start"], or it or its ["start"] is not a dictionary. *)
Definition upcoming_entry (event : json) : option (json * json * json) :=
  match event with
  | JObject e =>
      match Json.dict_get "start" e with
      | Some (JObject s) =>
          let start :=
            dict_get_default "dateTime" s (dict_get_default "date" s JNull) in
          Some (dict_get_default "summary" e (JString "No Title"), start,
                dict_get_default "id" e JNull)
      | _ => None
      end
  | _ => None
  end.

Fixpoint upcoming_entries (events : list json)
  : option (list (json * json * json)) :=
  match events with
  | [] => Some []
  | event :: rest =>
      match upcoming_entry event with
      | Some entry =>
          match upcoming_entries rest with
          | Some entries => Some (entry :: entries)
          | None => None
          end
      | None => None
      end
  end.

(** The dictionary handed to [json.dumps]: the entries are title, start
    and id. *)
Inductive upcoming_result : Type :=
| Upcoming (events : list (json * json * json))
| UpcomingError.

(** [listing] is what the collaborator answers to the request for at most
    [max_results] events from now on: the ["items"], or an exception. *)
Definition get_upcoming_events (listing : res (list json)) : upcoming_result :=
  match listing with
  | Ok events =>
      match upcoming_entries events with
      | Some upcoming_events => Upcoming upcoming_events
      | None => UpcomingError
      end
  | Raise _ => UpcomingError
  end.

(** ** [calendar_tools.get_calendar_service] *)

(** What the function reads of the stored credentials. *)
Record credentials : Type := {
  creds_valid : bool;
  creds_expired : bool;
  creds_refresh_token : bool
}.

(** What the function does to the world outside, in order. *)
Inductive auth_action : Type :=
| Refresh
| BrowserLogin
| SaveToken (creds : credentials)
| Build
| TestConnection.

(** The answers of the collaborators: the file system, the OAuth client
    and the calendar API. *)
Record auth_env : Type := {
  (** [token.json]: absent, or what [from_authorized_user_file] makes of
      it *)
  token_json : option (res credentials);
  (** [os.path.exists("credentials.json")] *)
  credentials_json : bool;
  (** [creds.refresh(Request())]: the credentials afterwards *)
  refresh : credentials -> res credentials;
  (** [from_client_secrets_file] and [flow.run_local_server(port=0)] *)
  browser_login : res credentials;
  (** writing [creds.to_json()] to [token.json] *)
  save_token : credentials -> res unit;
  (** [build("calendar", "v3", credentials=creds)] *)
  build : credentials -> res unit;
  (** [service.calendarList().list().execute()] *)
  test_connection : res unit
}.

Inductive auth_result : Type :=
| Service (creds : credentials)
| FileNotFoundError
| Failed (e : exn).

(** Lines 44-52: building the service and testing the connection; the
    [except HttpError] clause raises again what it caught. *)
Definition connect (env : auth_env) (creds : credentials)
    (done : list auth_action) : auth_result * list auth_action :=
  match build env creds with
  | Raise e => (Failed e, done ++ [Build])
  | Ok _ =>
      match test_connection env with
      | Raise e => (Failed e, done ++ [Build; TestConnection])
      | Ok _ => (Service creds, done ++ [Build; TestConnection])
      end
  end.

(** Lines 37-40: saving the credentials for the next run. *)
Definition save_and_connect (env : auth_env) (creds : credentials)
    (done : list auth_action) : auth_result * list auth_action :=
  match save_token env creds with
  | Raise e => (Failed e, done ++ [SaveToken creds])
  | Ok _ => connect env creds (done ++ [SaveToken creds])
  end.

(** Lines 27-35: the login in the browser. *)
Definition log_in (env : auth_env) : auth_result * list auth_action :=
  if credentials_json env then
    match browser_login env with
    | Raise e => (Failed e, [BrowserLogin])
    | Ok creds => save_and_connect env creds [BrowserLogin]
    end
  else (FileNotFoundError, []).

Definition get_calendar_service (env : auth_env)
  : auth_result * list auth_action :=
  match token_json env with
  | Some (Raise e) => (Failed e, [])
  | Some (Ok creds) =>
      if creds_valid creds then connect env creds []
      else if creds_expired creds && creds_refresh_token creds then
        match refresh env creds with
        | Raise e => (Failed e, [Refresh])
        | Ok creds => save_and_connect env creds [Refresh]
        end
      else log_in env
  | None => log_in env
  end.

(** ** Vocabulary of the further statements *)

(** The result of the function from the busy intervals. *)
Definition slots_from (d : Z) (date : string) (day : Z) (busy : list (Z * Z))
  : slots_result :=
  match scan_slots (scan_fuel d) d busy (time_max_of day) (time_min_of day) [] with
  | Some (Ok l) => report d date l
  | _ => Error
  end.


(** The day of the year [n] (from 0) falls in a month and on a day that
    the tables of [datetime] give back. *)
Definition check_month_day (leapyear : bool) (n : Z) : bool :=
  let (m, d) := Date.month_day leapyear n in
  (1 <=? m) && (m <=? 12) && (1 <=? d)
  && (d <=? (if (m =? 2) && leapyear then 29
             else nth (Z.to_nat (m - 1)) Datetime.DAYS_IN_MONTH 0))
  && (nth (Z.to_nat (m - 1)) Datetime.DAYS_BEFORE_MONTH 0
      + (if (2 <? m) && leapyear then 1 else 0) + d =? n + 1).


(** ** Vocabulary of the statements about the transcript *)

(** The roles of [n] exchanges: the user speaks, the model answers. *)
Fixpoint dialogue (n : nat) : list role :=
  match n with
  | O => []
  | S n' => user :: model :: dialogue n'
  end.

(** A stored token that is valid, for the examples. *)
Definition valid_credentials : credentials :=
  {| creds_valid := true; creds_expired := false; creds_refresh_token := true |}.

(** A stored token that has expired and can be refreshed. *)
Definition expired_credentials : credentials :=
  {| creds_valid := false; creds_expired := true; creds_refresh_token := true |}.

(** An environment in which every collaborator succeeds: the token file
    holds [stored], a refresh and a login give valid credentials. *)
Definition cooperative (stored : option credentials) : auth_env :=
  {| token_json := option_map (@Ok credentials) stored;
     credentials_json := true;
     refresh := fun _ => Ok valid_credentials;
     browser_login := Ok valid_credentials;
     save_token := fun _ => Ok tt;
     build := fun _ => Ok tt;
     test_connection := Ok tt |}.

(** * Properties of the availability calculator *)

Lemma positions_from_S s n :
  positions_from s (S n)
  = s :: positions_from (s + 30 * Datetime.us_per_minute) n.
Proof.
  unfold positions_from. cbn [seq map]. f_equal; [lia|].
  rewrite <- seq_shift, map_map. apply map_ext. intros k. lia.
Qed.

Section Scan.

Variables (duration_minutes : Z) (busy : list (Z * Z)) (time_max : Z).

Let delta := minutes duration_minutes.
Let step := 30 * Datetime.us_per_minute.
Let free (s : Z) : bool := is_free s (s + delta) busy.
(** Positions still to visit from [s]. *)
Let togo : Z -> nat := remaining duration_minutes time_max.

Lemma step_pos : 0 < step.
Proof. unfold step, Datetime.us_per_minute. lia. Qed.

Lemma remaining_continue s :
  s + delta <= time_max -> togo s = S (togo (s + step)).
Proof.
  intros H. unfold togo, remaining. fold delta. fold step.
  pose proof step_pos as Hs.
  replace (time_max - delta - s)
    with ((time_max - delta - (s + step)) + 1 * step) by lia.
  rewrite Z.div_add by lia.
  assert (0 <= (time_max - delta - (s + step) + 1 * step) / step)
    by (apply Z.div_pos; lia).
  rewrite Z.div_add in H0 by lia. lia.
Qed.

Lemma remaining_stop s : time_max < s + delta -> togo s = O.
Proof.
  intros H. unfold togo, remaining. fold delta. fold step.
  pose proof step_pos as Hs.
  assert ((time_max - delta - s) / step < 0)
    by (apply Z.div_lt_upper_bound; lia).
  lia.
Qed.

(** What the loop returns when it returns normally. *)
Lemma scan_slots_ok fuel : forall s acc l,
  scan_slots fuel duration_minutes busy time_max s acc = Some (Ok l) ->
  l = acc ++ filter free (positions_from s (togo s)).
Proof.
  induction fuel as [|fuel IH]; intros s acc l H; [discriminate|].
  cbn [scan_slots] in H. unfold Datetime.timedelta_minutes in H.
  destruct (Z.abs (duration_minutes / 1440) <=? 999999999); [|discriminate].
  unfold Datetime.add in H.
  fold (minutes duration_minutes) in H. fold delta in H.
  destruct (Datetime.in_range (s + delta)); [|discriminate].
  destruct (s + delta <=? time_max) eqn:C.
  - apply Z.leb_le in C. fold step in H.
    destruct (Datetime.in_range (s + step)); [|discriminate].
    apply IH in H. rewrite remaining_continue, positions_from_S by assumption.
    cbn [filter]. change (free s) with (is_free s (s + delta) busy).
    destruct (is_free s (s + delta) busy); rewrite H.
    + rewrite <- app_assoc. reflexivity.
    + reflexivity.
  - apply Z.leb_gt in C. rewrite remaining_stop by assumption.
    injection H as <-. cbn. now rewrite app_nil_r.
Qed.

(** The loop ends: fuel beyond the number of positions is never used up. *)
Lemma scan_slots_terminates fuel : forall s acc,
  (togo s < fuel)%nat ->
  scan_slots fuel duration_minutes busy time_max s acc <> None.
Proof.
  induction fuel as [|fuel IH]; intros s acc H; [lia|].
  cbn [scan_slots]. unfold Datetime.timedelta_minutes, Datetime.add.
  fold (minutes duration_minutes). fold delta. fold step.
  destruct (Z.abs (duration_minutes / 1440) <=? 999999999); [|discriminate].
  destruct (Datetime.in_range (s + delta)); [|discriminate].
  destruct (s + delta <=? time_max) eqn:C; [|discriminate].
  destruct (Datetime.in_range (s + step)); [|discriminate].
  apply IH. apply Z.leb_le in C. rewrite remaining_continue in H by assumption. lia.
Qed.

(** [timedelta] never overflows before [datetime] does. *)
Lemma timedelta_in_range s :
  Datetime.in_range s = true -> Datetime.in_range (s + delta) = true ->
  Datetime.timedelta_minutes duration_minutes = Ok delta.
Proof.
  unfold Datetime.in_range, Datetime.timedelta_minutes, delta, minutes,
    Datetime.us_per_minute, Datetime.MAXORDINAL, Datetime.us_per_day.
  intros A B.
  apply andb_true_iff in A as [A1 A2]. apply andb_true_iff in B as [B1 B2].
  apply Z.leb_le in A1, B1. apply Z.ltb_lt in A2, B2.
  assert (- 5258964960 < duration_minutes < 5258964960) by lia.
  pose proof (Z.div_le_mono duration_minutes 5258964960 1440 ltac:(lia) ltac:(lia)).
  pose proof (Z.div_le_mono (-5258964960) duration_minutes 1440 ltac:(lia) ltac:(lia)).
  change (5258964960 / 1440) with 3652059 in *.
  change (-5258964960 / 1440) with (-3652059) in *.
  replace (Z.abs (duration_minutes / 1440) <=? 999999999) with true; [reflexivity|].
  symmetry. apply Z.leb_le. lia.
Qed.

(** The loop raises nothing when the cursor and the end of the slot stay
    within the range of [datetime]. *)
Lemma scan_slots_no_raise fuel : forall s acc,
  Datetime.in_range s = true ->
  Datetime.in_range (s + delta) = true ->
  time_max + step < Datetime.MAXORDINAL * Datetime.us_per_day ->
  time_max - delta + step < Datetime.MAXORDINAL * Datetime.us_per_day ->
  (togo s < fuel)%nat ->
  exists l, scan_slots fuel duration_minutes busy time_max s acc = Some (Ok l).
Proof.
  induction fuel as [|fuel IH]; intros s acc H0 H1 H3 H4 H; [lia|].
  cbn [scan_slots]. rewrite (timedelta_in_range s) by assumption.
  unfold Datetime.add. rewrite H1. fold step.
  pose proof step_pos as Hs.
  destruct (s + delta <=? time_max) eqn:C; [|eauto].
  apply Z.leb_le in C.
  assert (R : Datetime.in_range (s + step) = true /\
              Datetime.in_range (s + step + delta) = true).
  { unfold Datetime.in_range in *.
    rewrite !andb_true_iff, !Z.leb_le, !Z.ltb_lt in *. lia. }
  destruct R as [R1 R2]. rewrite R1.
  apply IH; try assumption.
  rewrite remaining_continue in H by assumption. lia.
Qed.

(** The first evaluation of the loop condition raises when the end of the
    first slot is not a datetime. *)
Lemma scan_slots_raises fuel s acc :
  fuel <> O -> Datetime.in_range (s + delta) = false ->
  exists e, scan_slots fuel duration_minutes busy time_max s acc = Some (Raise e).
Proof.
  intros F H. destruct fuel as [|fuel]; [congruence|].
  cbn [scan_slots]. unfold Datetime.timedelta_minutes, Datetime.add.
  destruct (Z.abs (duration_minutes / 1440) <=? 999999999); [|eauto].
  fold (minutes duration_minutes). fold delta. rewrite H. eauto.
Qed.

(** The early stop of the specification against the full scan. *)
Lemma is_free_existsb s e :
  is_free s e busy
  = negb (existsb (fun b => overlaps s e (fst b) (snd b)) busy).
Proof.
  induction busy as [|[bs be] r IH]; [reflexivity|].
  cbn [is_free existsb fst snd]. destruct (overlaps s e bs be); [reflexivity|].
  exact IH.
Qed.

Lemma find_slots_early_stop limit fuel : forall s acc,
  (List.length acc <= limit)%nat -> (togo s < fuel)%nat ->
  find_slots fuel delta step limit busy time_max s acc
  = firstn limit (acc ++ filter free (positions_from s (togo s))).
Proof.
  induction fuel as [|fuel IH]; intros s acc L H; [lia|].
  cbn [find_slots]. destruct (limit <=? List.length acc)%nat eqn:Full.
  - apply Nat.leb_le in Full. assert (E : limit = List.length acc) by lia.
    rewrite firstn_app, E, firstn_all, Nat.sub_diag. cbn. now rewrite app_nil_r.
  - apply Nat.leb_gt in Full.
    destruct (s + delta <=? time_max) eqn:C.
    + apply Z.leb_le in C.
      rewrite remaining_continue in H |- * by assumption.
      rewrite positions_from_S. cbn [filter].
      change (free s) with (is_free s (s + delta) busy).
      rewrite is_free_existsb.
      destruct (existsb _ busy); cbn [negb].
      * apply IH; lia.
      * rewrite IH; [ | rewrite length_app; cbn; lia | lia].
        now rewrite <- app_assoc.
    + apply Z.leb_gt in C. rewrite remaining_stop by assumption.
      cbn. rewrite app_nil_r. symmetry. apply firstn_all2. lia.
Qed.

End Scan.

(** ** The day the date denotes *)

Lemma days_before_month_bound y m d :
  1 <= m <= 12 -> 1 <= d <= Datetime.days_in_month y m ->
  1 <= Datetime.days_before_month y m + d
       <= 365 + (if Datetime.is_leap y then 1 else 0).
Proof.
  intros Hm Hd.
  assert (E : m = 1 \/ m = 2 \/ m = 3 \/ m = 4 \/ m = 5 \/ m = 6 \/ m = 7
              \/ m = 8 \/ m = 9 \/ m = 10 \/ m = 11 \/ m = 12) by lia.
  unfold Datetime.days_before_month, Datetime.days_in_month in *.
  destruct (Datetime.is_leap y);
    repeat destruct E as [E|E]; subst m;
    repeat match goal with
      | H : context [Z.to_nat ?z] |- _ =>
          let v := eval vm_compute in (Z.to_nat z) in
          change (Z.to_nat z) with v in H
      | |- context [Z.to_nat ?z] =>
          let v := eval vm_compute in (Z.to_nat z) in
          change (Z.to_nat z) with v
      end;
    cbn -[Z.add] in Hd |- *; lia.
Qed.

Lemma ymd2ord_range y m d ord :
  Datetime.ymd2ord y m d = Ok ord -> 1 <= ord <= Datetime.MAXORDINAL.
Proof.
  unfold Datetime.ymd2ord, Datetime.MINYEAR, Datetime.MAXYEAR, Datetime.MAXORDINAL.
  destruct (_ && _) eqn:G; [|discriminate]. intros [= <-].
  rewrite !andb_true_iff, !Z.leb_le in G.
  destruct G as [[[[[Y1 Y2] M1] M2] D1] D2].
  pose proof (days_before_month_bound y m d (conj M1 M2) (conj D1 D2)) as B.
  unfold Datetime.days_before_year. cbv zeta.
  assert (L : Datetime.is_leap y = true -> y <= 9996).
  { unfold Datetime.is_leap. intros L. apply andb_true_iff in L as [L _].
    apply Z.eqb_eq in L. assert (y <> 9999 /\ y <> 9998 /\ y <> 9997); [|lia].
    repeat split; intros ->; discriminate. }
  destruct (Datetime.is_leap y); cbv iota in B.
  - specialize (L eq_refl). Z.div_mod_to_equations. lia.
  - Z.div_mod_to_equations. lia.
Qed.

Lemma strptime_date_range date_str day :
  strptime_date date_str = Ok day -> 1 <= day <= Datetime.MAXORDINAL.
Proof.
  unfold strptime_date.
  repeat match goal with
         | |- context [match ?x with _ => _ end] => destruct x; try discriminate
         end.
  apply ymd2ord_range.
Qed.

(** ** The working window *)

Lemma window_in_range day :
  1 <= day <= Datetime.MAXORDINAL ->
  Datetime.in_range (time_min_of day) = true
  /\ time_max_of day + minutes 30 < Datetime.MAXORDINAL * Datetime.us_per_day.
Proof.
  unfold Datetime.in_range, time_min_of, time_max_of, Datetime.combine, minutes,
    Datetime.MAXORDINAL, Datetime.us_per_day, Datetime.us_per_hour,
    Datetime.us_per_minute.
  rewrite andb_true_iff, Z.leb_le, Z.ltb_lt. lia.
Qed.

Lemma window_length day : time_max_of day = time_min_of day + minutes 480.
Proof.
  unfold time_min_of, time_max_of, Datetime.combine, minutes,
    Datetime.us_per_hour, Datetime.us_per_minute. lia.
Qed.

Lemma remaining_window d day :
  remaining d (time_max_of day) (time_min_of day) = cursor_count d.
Proof.
  unfold remaining, cursor_count. rewrite window_length. unfold minutes.
  replace (time_min_of day + 480 * Datetime.us_per_minute
           - d * Datetime.us_per_minute - time_min_of day)
    with ((480 - d) * Datetime.us_per_minute) by lia.
  rewrite Z.div_mul_cancel_r; [reflexivity | lia | discriminate].
Qed.

Lemma cursor_count_fuel d : (cursor_count d < scan_fuel d)%nat.
Proof. unfold cursor_count, scan_fuel. lia. Qed.

Lemma positions_from_window day d :
  positions_from (time_min_of day) (cursor_count d)
  = cursor_positions (time_min_of day) d.
Proof. reflexivity. Qed.

(** A cursor position lies in the window together with its slot. *)
Lemma cursor_positions_in_window t d s :
  In s (cursor_positions t d) ->
  t <= s /\ s + minutes d <= t + minutes 480.
Proof.
  unfold cursor_positions, cursor_count. intros H.
  destruct (proj1 (in_map_iff _ _ _) H) as (k & <- & K). apply in_seq in K.
  unfold minutes, Datetime.us_per_minute.
  assert (0 <= (480 - d) / 30 + 1) by lia.
  assert (Z.of_nat k <= (480 - d) / 30) by lia.
  pose proof (Z.mul_div_le (480 - d) 30 ltac:(lia)). lia.
Qed.

(** ** [find_available_slots] from its parts *)

Lemma find_available_slots_run d date events day busy :
  strptime_date date = Ok day -> busy_slots_of events = Ok busy ->
  find_available_slots d date (Ok events)
  = match scan_slots (scan_fuel d) d busy (time_max_of day) (time_min_of day) [] with
    | Some (Ok l) => report d date l
    | _ => Error
    end.
Proof.
  intros P B. unfold find_available_slots. rewrite P. cbn [bind]. rewrite B.
  cbn [bind]. fold (time_max_of day) (time_min_of day).
  destruct (scan_slots _ _ _ _ _ _) as [[l|e]|]; try reflexivity.
  cbn [bind]. destruct l; reflexivity.
Qed.

(** The loop, run on the working window, returns the accepted cursor
    positions whenever it returns. *)
Lemma scan_window d busy day l :
  scan_slots (scan_fuel d) d busy (time_max_of day) (time_min_of day) [] = Some (Ok l) ->
  l = accepted busy d (time_min_of day).
Proof.
  intros H. apply scan_slots_ok in H. rewrite remaining_window in H. exact H.
Qed.

(** The loop never exhausts the fuel [find_available_slots] gives it. *)
Lemma scan_window_terminates d busy day :
  scan_slots (scan_fuel d) d busy (time_max_of day) (time_min_of day) [] <> None.
Proof.
  apply scan_slots_terminates. rewrite remaining_window. apply cursor_count_fuel.
Qed.

Lemma find_available_slots_success d date events day busy date' d' slots :
  strptime_date date = Ok day -> busy_slots_of events = Ok busy ->
  find_available_slots d date (Ok events) = Success date' d' slots ->
  date' = date /\ d' = d /\ accepted busy d (time_min_of day) <> []
  /\ slots = firstn 6 (accepted busy d (time_min_of day)).
Proof.
  intros P B H. rewrite (find_available_slots_run _ _ _ _ _ P B) in H.
  destruct (scan_slots _ _ _ _ _ _) as [[l|e]|] eqn:S; try discriminate.
  apply scan_window in S. subst l. unfold report in H.
  destruct (accepted busy d (time_min_of day)) eqn:A; [discriminate|].
  injection H as <- <- <-. repeat split. discriminate.
Qed.

Lemma find_available_slots_in_range d date events day busy :
  strptime_date date = Ok day -> busy_slots_of events = Ok busy ->
  Datetime.in_range (time_min_of day + minutes d) = true ->
  time_max_of day + minutes 30 - minutes d
    < Datetime.MAXORDINAL * Datetime.us_per_day ->
  find_available_slots d date (Ok events)
  = report d date (accepted busy d (time_min_of day)).
Proof.
  intros P B R1 R2. rewrite (find_available_slots_run _ _ _ _ _ P B).
  destruct (window_in_range day (strptime_date_range _ _ P)) as [W1 W2].
  destruct (scan_slots_no_raise d busy (time_max_of day) (scan_fuel d)
              (time_min_of day) []) as [l S]; try assumption.
  - unfold minutes in *. lia.
  - rewrite remaining_window. apply cursor_count_fuel.
  - rewrite S. now rewrite (scan_window _ _ _ _ S).
Qed.

Lemma find_available_slots_out_of_range d date service day :
  strptime_date date = Ok day ->
  Datetime.in_range (time_min_of day + minutes d) = false ->
  find_available_slots d date service = Error.
Proof.
  intros P R. unfold find_available_slots. rewrite P. cbn [bind].
  destruct service as [events|e]; [|reflexivity]. cbn [bind].
  destruct (busy_slots_of events) as [busy|e]; [|reflexivity]. cbn [bind].
  destruct (scan_slots_raises d busy (Datetime.combine day 17 0) (scan_fuel d)
              (Datetime.combine day 9 0) []) as [e S].
  - unfold scan_fuel. lia.
  - exact R.
  - rewrite S. reflexivity.
Qed.

(** ** Free slots and conflicts *)

Lemma is_free_conflict_free busy s e :
  is_free s e busy = true <-> conflict_free busy (e - s) s.
Proof.
  unfold conflict_free. replace (s + (e - s)) with e by lia.
  induction busy as [|[bs be] r IH]; cbn [is_free In].
  - split; [intros _ b []|reflexivity].
  - destruct (overlaps s e bs be) eqn:O.
    + split; [discriminate|]. intros H. specialize (H (bs, be) (or_introl eq_refl)).
      cbn in H. congruence.
    + rewrite IH. split.
      * intros H b [<-|I]; [exact O|auto].
      * intros H b I. auto.
Qed.

Lemma accepted_free busy d t s :
  In s (accepted busy d t) -> conflict_free busy (minutes d) s.
Proof.
  unfold accepted. intros H. apply filter_In in H as [_ H].
  apply is_free_conflict_free in H.
  now replace (s + minutes d - s) with (minutes d) in H by lia.
Qed.

(** A slot of non-positive length overlaps nothing. *)
Lemma is_free_nonpositive busy s e : e <= s -> is_free s e busy = true.
Proof.
  intros H. induction busy as [|[bs be] r IH]; [reflexivity|].
  cbn [is_free]. unfold overlaps.
  replace (Z.max s bs <? Z.min e be) with false; [exact IH|].
  symmetry. apply Z.ltb_ge. lia.
Qed.

(** A slot of positive length that starts in a covered window is busy. *)
Lemma is_free_covered busy lo hi s e :
  covers busy lo hi -> lo <= s < hi -> s < e -> is_free s e busy = false.
Proof.
  intros C S E. destruct (C s S) as ([bs be] & I & B). cbn [fst snd] in B.
  clear C. induction busy as [|[bs' be'] r IH]; [destruct I|].
  cbn [is_free]. destruct I as [[= -> ->]|I].
  - unfold overlaps. replace (Z.max s bs <? Z.min e be) with true; [reflexivity|].
    symmetry. apply Z.ltb_lt. lia.
  - destruct (overlaps s e bs' be'); [reflexivity|auto].
Qed.

(** ** Order of the cursor positions *)

Lemma positions_sorted s n : StronglySorted Z.lt (positions_from s n).
Proof.
  revert s. induction n as [|n IH]; intros s; [constructor|].
  rewrite positions_from_S. constructor; [apply IH|].
  rewrite Forall_forall. intros x H. unfold positions_from in H.
  destruct (proj1 (in_map_iff _ _ _) H) as (k & <- & _).
  unfold Datetime.us_per_minute. lia.
Qed.

Lemma sorted_filter (f : Z -> bool) l :
  StronglySorted Z.lt l -> StronglySorted Z.lt (filter f l).
Proof.
  induction 1 as [|a l S IH F]; cbn [filter]; [constructor|].
  destruct (f a); [|exact IH]. constructor; [exact IH|].
  rewrite Forall_forall in *. intros x H. apply filter_In in H as [H _]. auto.
Qed.

Lemma sorted_firstn n (l : list Z) :
  StronglySorted Z.lt l -> StronglySorted Z.lt (firstn n l).
Proof.
  intros S. revert n. induction S as [|a l S IH F]; intros [|n]; cbn [firstn];
    try constructor; [apply IH|].
  rewrite Forall_forall in *. intros x H. apply F.
  rewrite <- (firstn_skipn n l). apply in_or_app. now left.
Qed.

Lemma strftime_HM_time_min day : strftime_HM (time_min_of day) = "09:00"%string.
Proof.
  unfold strftime_HM, Datetime.hour, Datetime.minute, time_min_of, Datetime.combine.
  replace ((day - 1) * Datetime.us_per_day + 9 * Datetime.us_per_hour
           + 0 * Datetime.us_per_minute)
    with (9 * Datetime.us_per_hour + (day - 1) * Datetime.us_per_day) by lia.
  rewrite Z_mod_plus_full. reflexivity.
Qed.

Lemma accepted_nonpositive busy d t :
  d <= 0 -> accepted busy d t = cursor_positions t d.
Proof.
  intros H. unfold accepted. apply forallb_filter_id. apply forallb_forall.
  intros s _. apply is_free_nonpositive. unfold minutes, Datetime.us_per_minute. lia.
Qed.

Lemma accepted_empty_calendar d t : accepted [] d t = cursor_positions t d.
Proof.
  unfold accepted. apply forallb_filter_id. apply forallb_forall. reflexivity.
Qed.

Lemma accepted_covered busy d t :
  0 < d -> covers busy t (t + minutes 480) -> accepted busy d t = [].
Proof.
  intros D C. unfold accepted.
  destruct (filter _ _) as [|s r] eqn:F; [reflexivity|].
  assert (I : In s (s :: r)) by now left. rewrite <- F in I.
  apply filter_In in I as [I Free].
  apply cursor_positions_in_window in I.
  rewrite (is_free_covered busy t (t + minutes 480)) in Free; try assumption;
    [discriminate| |]; unfold minutes, Datetime.us_per_minute in *; lia.
Qed.

Lemma cursor_positions_first t d :
  d <= 480 ->
  cursor_positions t d
  = t :: positions_from (t + 30 * Datetime.us_per_minute) (Nat.pred (cursor_count d)).
Proof.
  intros H. change (cursor_positions t d) with (positions_from t (cursor_count d)).
  assert (0 <= (480 - d) / 30) by (apply Z.div_pos; lia).
  assert (E : cursor_count d = S (Nat.pred (cursor_count d)))
    by (unfold cursor_count; lia).
  rewrite E at 1. apply positions_from_S.
Qed.

(** * The claims about the availability calculator *)

(** C1. Every candidate in the slot list of a [success] result is free of
    conflicts: for the duration asked, the half-open interval from its start
    overlaps no interval of the busy set, under the overlap test
    [max(a.start, b.start) < min(a.end, b.end)]. *)
Theorem slots_conflict_free d date events busy date' d' slots :
  busy_slots_of events = Ok busy ->
  find_available_slots d date (Ok events) = Success date' d' slots ->
  Forall (conflict_free busy (minutes d)) slots.
Proof.
  intros B H. destruct (strptime_date date) as [day|e] eqn:P.
  - destruct (find_available_slots_success _ _ _ _ _ _ _ _ P B H) as (_ & _ & _ & ->).
    apply Forall_forall. intros s I.
    apply (accepted_free busy d (time_min_of day)).
    rewrite <- (firstn_skipn 6). apply in_or_app. now left.
  - unfold find_available_slots in H. rewrite P in H. discriminate.
Qed.

(** C4, as amended. For a duration of at least one minute whose first slot
    still ends within the range of [datetime], and a busy set that covers
    the working window 09:00-17:00, the result has status [no_slots]. *)
Theorem fully_booked_no_slots d date events day busy :
  strptime_date date = Ok day -> busy_slots_of events = Ok busy ->
  covers busy (time_min_of day) (time_max_of day) ->
  0 < d -> Datetime.in_range (time_min_of day + minutes d) = true ->
  find_available_slots d date (Ok events) = NoSlots d date.
Proof.
  intros P B C D R.
  destruct (window_in_range day (strptime_date_range _ _ P)) as [_ W].
  rewrite (find_available_slots_in_range _ _ _ _ _ P B R).
  - rewrite accepted_covered; [reflexivity|assumption|].
    now rewrite <- window_length.
  - unfold minutes, Datetime.us_per_minute in *. lia.
Qed.

(** C5, as amended. With an empty busy set and a duration of at most the
    480 minutes of the window, for which the datetimes the loop computes
    stay in range, the result has status [success], and its first candidate
    starts at 09:00. *)
Theorem empty_calendar_first_slot d date events day :
  strptime_date date = Ok day -> busy_slots_of events = Ok [] ->
  d <= 480 ->
  Datetime.in_range (time_min_of day + minutes d) = true ->
  Datetime.in_range (time_max_of day + minutes 30 - minutes d) = true ->
  exists rest,
    find_available_slots d date (Ok events)
    = Success date d (time_min_of day :: rest)
    /\ strftime_HM (time_min_of day) = "09:00"%string.
Proof.
  intros P B D R1 R2.
  rewrite (find_available_slots_in_range _ _ _ _ _ P B R1).
  - rewrite accepted_empty_calendar, cursor_positions_first by assumption.
    cbn [report firstn]. eexists. split; [reflexivity|].
    apply strftime_HM_time_min.
  - unfold Datetime.in_range in R2. apply andb_true_iff in R2 as [_ R2].
    now apply Z.ltb_lt in R2.
Qed.

(** C6. A [success] result lists at most 6 candidates, in strictly
    increasing order; they are the first [min(6, n)] of the [n] accepted
    cursor positions; and the enumeration of the specification, which stops
    as soon as 6 candidates are collected, produces the same list as the
    code, which scans the whole window and truncates afterwards. *)
Theorem first_six_accepted d date events day busy date' d' slots :
  strptime_date date = Ok day -> busy_slots_of events = Ok busy ->
  find_available_slots d date (Ok events) = Success date' d' slots ->
  (List.length slots <= 6)%nat
  /\ StronglySorted Z.lt slots
  /\ slots = firstn (Nat.min 6 (List.length (accepted busy d (time_min_of day))))
               (accepted busy d (time_min_of day))
  /\ forall fuel, (scan_fuel d <= fuel)%nat ->
       find_slots fuel (minutes d) (minutes 30) 6 busy
         (time_max_of day) (time_min_of day) [] = slots.
Proof.
  intros P B H.
  destruct (find_available_slots_success _ _ _ _ _ _ _ _ P B H) as (_ & _ & _ & ->).
  repeat split.
  - apply firstn_le_length.
  - apply sorted_firstn, sorted_filter. apply positions_sorted.
  - destruct (Nat.min_spec 6 (List.length (accepted busy d (time_min_of day))))
      as [[_ ->]|[L ->]]; [reflexivity|].
    now rewrite firstn_all, firstn_all2.
  - intros fuel F.
    pose proof (find_slots_early_stop d busy (time_max_of day) 6 fuel
                  (time_min_of day) []) as E.
    rewrite remaining_window in E. apply E; [cbn; lia|].
    pose proof (cursor_count_fuel d). lia.
Qed.

(** C10, as amended. For a duration of zero or less for which the datetimes
    the loop computes stay in range, whatever the busy set, the result has
    status [success] and lists the six cursor positions 09:00, 09:30, ...,
    11:30: every cursor position is accepted, a fully booked day included. *)
Theorem nonpositive_duration_accepts_all d date events day busy :
  strptime_date date = Ok day -> busy_slots_of events = Ok busy ->
  d <= 0 ->
  Datetime.in_range (time_min_of day + minutes d) = true ->
  Datetime.in_range (time_max_of day + minutes 30 - minutes d) = true ->
  find_available_slots d date (Ok events)
  = Success date d
      (map (fun k => time_min_of day + minutes (30 * k)) [0; 1; 2; 3; 4; 5])
  /\ accepted busy d (time_min_of day) = cursor_positions (time_min_of day) d
  /\ strftime_HM (time_min_of day) = "09:00"%string.
Proof.
  intros P B D R1 R2. split; [|split].
  - rewrite (find_available_slots_in_range _ _ _ _ _ P B R1).
    + rewrite accepted_nonpositive by assumption.
      unfold cursor_positions.
      assert (16 <= (480 - d) / 30) by (apply Z.div_le_lower_bound; lia).
      assert (E : cursor_count d = (6 + (cursor_count d - 6))%nat)
        by (unfold cursor_count; lia).
      rewrite E, seq_app, map_app. cbn [seq map Nat.add report app firstn].
      reflexivity.
    + unfold Datetime.in_range in R2. apply andb_true_iff in R2 as [_ R2].
      now apply Z.ltb_lt in R2.
  - now apply accepted_nonpositive.
  - apply strftime_HM_time_min.
Qed.

(** A run of C1: a half-hour slot on a day with two meetings. *)
Lemma slots_conflict_free_witness :
  busy_slots_of [meeting 9 0 10 15; all_day_event; meeting 11 0 12 0]
  = Ok [(at_time 9 0, at_time 10 15); (at_time 11 0, at_time 12 0)]
  /\ Forall (conflict_free [(at_time 9 0, at_time 10 15); (at_time 11 0, at_time 12 0)]
                           (minutes 30))
            [at_time 10 30; at_time 12 0; at_time 12 30; at_time 13 0;
             at_time 13 30; at_time 14 0].
Proof.
  split; [reflexivity|].
  apply (slots_conflict_free 30 example_date
           [meeting 9 0 10 15; all_day_event; meeting 11 0 12 0]
           [(at_time 9 0, at_time 10 15); (at_time 11 0, at_time 12 0)]
           example_date 30).
  - reflexivity.
  - vm_compute. reflexivity.
Defined.

(** C4 fails as stated: with a duration of 0 minutes a day booked from
    09:00 to 17:00 yields six candidates. *)
Lemma fully_booked_zero_duration :
  busy_slots_of [meeting 9 0 17 0] = Ok [(at_time 9 0, at_time 17 0)]
  /\ covers [(at_time 9 0, at_time 17 0)] (at_time 9 0) (at_time 17 0)
  /\ find_available_slots 0 example_date (Ok [meeting 9 0 17 0])
     = Success example_date 0
         [at_time 9 0; at_time 9 30; at_time 10 0; at_time 10 30;
          at_time 11 0; at_time 11 30]
  /\ find_available_slots 0 example_date (Ok [meeting 9 0 17 0])
     <> NoSlots 0 example_date.
Proof.
  split; [reflexivity|]. split; [|split].
  - intros t Ht. exists (at_time 9 0, at_time 17 0). split; [now left|exact Ht].
  - vm_compute. reflexivity.
  - vm_compute. discriminate.
Qed.

(** A run of C4 as amended. *)
Lemma fully_booked_no_slots_witness :
  covers [(at_time 9 0, at_time 17 0)] (time_min_of example_day) (time_max_of example_day)
  /\ find_available_slots 30 example_date (Ok [meeting 9 0 17 0])
     = NoSlots 30 example_date.
Proof.
  assert (C : covers [(at_time 9 0, at_time 17 0)]
                (time_min_of example_day) (time_max_of example_day)).
  { intros t Ht. exists (at_time 9 0, at_time 17 0). split; [now left|exact Ht]. }
  split; [exact C|].
  apply (fully_booked_no_slots 30 example_date [meeting 9 0 17 0] example_day
           [(at_time 9 0, at_time 17 0)]).
  - reflexivity.
  - reflexivity.
  - exact C.
  - lia.
  - reflexivity.
Defined.

(** C5 fails as stated: a duration far below zero takes the end of the
    first slot out of the range of [datetime]; the [OverflowError] is
    reported as an [error] result. *)
Lemma empty_calendar_overflow :
  busy_slots_of [] = Ok []
  /\ -2000000000 <= 480
  /\ find_available_slots (-2000000000) example_date (Ok []) = Error.
Proof.
  split; [reflexivity|]. split; [lia|].
  apply (find_available_slots_out_of_range _ _ _ example_day); reflexivity.
Qed.

(** A run of C5 as amended. *)
Lemma empty_calendar_first_slot_witness :
  exists rest,
    find_available_slots 60 example_date (Ok [all_day_event])
    = Success example_date 60 (at_time 9 0 :: rest)
    /\ strftime_HM (at_time 9 0) = "09:00"%string.
Proof.
  apply (empty_calendar_first_slot 60 example_date [all_day_event] example_day).
  - reflexivity.
  - reflexivity.
  - lia.
  - reflexivity.
  - reflexivity.
Defined.

(** A run of C6. *)
Lemma first_six_accepted_witness :
  find_available_slots 30 example_date (Ok [meeting 9 0 10 15])
  = Success example_date 30
      [at_time 10 30; at_time 11 0; at_time 11 30; at_time 12 0;
       at_time 12 30; at_time 13 0]
  /\ find_slots (scan_fuel 30) (minutes 30) (minutes 30) 6
       [(at_time 9 0, at_time 10 15)] (at_time 17 0) (at_time 9 0) []
     = [at_time 10 30; at_time 11 0; at_time 11 30; at_time 12 0;
        at_time 12 30; at_time 13 0].
Proof.
  assert (H : find_available_slots 30 example_date (Ok [meeting 9 0 10 15])
              = Success example_date 30
                  [at_time 10 30; at_time 11 0; at_time 11 30; at_time 12 0;
                   at_time 12 30; at_time 13 0])
    by (vm_compute; reflexivity).
  split; [exact H|].
  apply (first_six_accepted 30 example_date [meeting 9 0 10 15] example_day
           [(at_time 9 0, at_time 10 15)] example_date 30 _
           eq_refl eq_refl H).
  apply Nat.le_refl.
Defined.

(** C10 fails as stated: a duration far below zero is an [error] result,
    whatever the calendar holds. *)
Lemma nonpositive_duration_overflow :
  -10000000000 <= 0
  /\ find_available_slots (-10000000000) example_date (Ok [meeting 9 0 17 0])
     = Error.
Proof.
  split; [lia|].
  apply (find_available_slots_out_of_range _ _ _ example_day); reflexivity.
Qed.

(** A run of C10 as amended: zero minutes on a fully booked day. *)
Lemma nonpositive_duration_accepts_all_witness :
  find_available_slots 0 example_date (Ok [meeting 9 0 17 0])
  = Success example_date 0
      (map (fun k => time_min_of example_day + minutes (30 * k)) [0; 1; 2; 3; 4; 5])
  /\ accepted [(at_time 9 0, at_time 17 0)] 0 (time_min_of example_day)
     = cursor_positions (time_min_of example_day) 0
  /\ strftime_HM (time_min_of example_day) = "09:00"%string.
Proof.
  apply (nonpositive_duration_accepts_all 0 example_date [meeting 9 0 17 0]
           example_day [(at_time 9 0, at_time 17 0)]).
  - reflexivity.
  - reflexivity.
  - lia.
  - reflexivity.
  - reflexivity.
Defined.

(** * Properties of the time normalizer *)

(** The date is only prefixed to the result. *)
Lemma parse_time_date time_str date :
  parse_time_to_24hour time_str date
  = option_map (String.append date) (parse_time_to_24hour time_str EmptyString).
Proof.
  unfold parse_time_to_24hour.
  match goal with
  | |- context [bind ?c _] => destruct c as [hm|e]
  end; [|reflexivity]. cbn [bind].
  destruct (Py.format_02d (fst hm)); [|reflexivity]. cbn [bind].
  destruct (Py.format_02d (snd hm)); reflexivity.
Qed.

Lemma option_string_eqb_eq a b : option_string_eqb a b = true -> a = b.
Proof.
  destruct a, b; cbn; try discriminate; [|reflexivity].
  intros H. apply String.eqb_eq in H. now subst.
Qed.

Lemma in_range_list lo n z :
  Z.of_nat lo <= z < Z.of_nat lo + Z.of_nat n -> In z (map Z.of_nat (seq lo n)).
Proof.
  intros H. replace z with (Z.of_nat (Z.to_nat z)) by lia.
  apply in_map, in_seq. lia.
Qed.

Lemma forallb_In {A} (f : A -> bool) l x :
  forallb f l = true -> In x l -> f x = true.
Proof. intros H. now apply forallb_forall. Qed.

Lemma well_formed_12hour_normalized : forallb normalizes well_formed_12hour = true.
Proof. vm_compute. reflexivity. Qed.

Lemma well_formed_24hour_normalized : forallb normalizes well_formed_24hour = true.
Proof. vm_compute. reflexivity. Qed.

Ltac in_flat_map x :=
  apply in_flat_map; exists x; split; [try assumption|].

Lemma parse_12hour h m p ht sep suf date :
  1 <= h <= 12 -> 0 <= m <= 59 ->
  In ht (hour_texts h) -> In sep separators -> In suf (suffix_texts p) ->
  parse_time_to_24hour (clock_text ht m sep suf) date
  = Some (canonical date (to_24hour h p) m).
Proof.
  intros H M Iht Isep Isuf. rewrite parse_time_date.
  assert (I : In (clock_text ht m sep suf, (to_24hour h p, m)) well_formed_12hour).
  { unfold well_formed_12hour.
    in_flat_map h; [apply (in_range_list 1 12); lia|].
    in_flat_map m; [apply (in_range_list 0 60); lia|].
    in_flat_map p; [destruct p; cbn; auto|].
    in_flat_map ht. in_flat_map sep.
    apply in_map_iff. exists suf. split; [reflexivity|assumption]. }
  pose proof (forallb_In _ _ _ well_formed_12hour_normalized I) as C.
  apply option_string_eqb_eq in C. cbn [fst snd] in C. rewrite C. reflexivity.
Qed.

Lemma parse_24hour h m ht date :
  0 <= h <= 23 -> 0 <= m <= 59 -> In ht (hour_texts h) ->
  parse_time_to_24hour (clock_text ht m EmptyString EmptyString) date
  = Some (canonical date h m).
Proof.
  intros H M Iht. rewrite parse_time_date.
  assert (I : In (clock_text ht m EmptyString EmptyString, (h, m)) well_formed_24hour).
  { unfold well_formed_24hour.
    in_flat_map h; [apply (in_range_list 0 24); lia|].
    in_flat_map m; [apply (in_range_list 0 60); lia|].
    apply in_map_iff. exists ht. split; [reflexivity|assumption]. }
  pose proof (forallb_In _ _ _ well_formed_24hour_normalized I) as C.
  apply option_string_eqb_eq in C. cbn [fst snd] in C. rewrite C. reflexivity.
Qed.

(** C7. On every well-formed 12-hour expression (hour 1..12, a colon, two
    minute digits, then AM or PM in any case, glued or after a space) and on
    every well-formed 24-hour expression (hour 0..23, a colon, two minute
    digits) the normalizer returns the zero-padded canonical string: hour 12
    with AM becomes 0, hour 12 with PM stays 12, any other hour gains 12
    exactly with PM. In particular "11:30 AM" and "2:00 PM" on 2025-06-24
    give "2025-06-24 11:30" and "2025-06-24 14:00". *)
Theorem normalizer_canonical :
  (forall h m p ht sep suf date,
      1 <= h <= 12 -> 0 <= m <= 59 ->
      In ht (hour_texts h) -> In sep separators -> In suf (suffix_texts p) ->
      parse_time_to_24hour (clock_text ht m sep suf) date
      = Some (canonical date (to_24hour h p) m))
  /\ (forall h m ht date,
      0 <= h <= 23 -> 0 <= m <= 59 -> In ht (hour_texts h) ->
      parse_time_to_24hour (clock_text ht m EmptyString EmptyString) date
      = Some (canonical date h m))
  /\ (forall h, 1 <= h <= 12 ->
      to_24hour 12 AM = 0 /\ to_24hour 12 PM = 12
      /\ to_24hour h AM = (if h =? 12 then 0 else h)
      /\ (h <> 12 -> to_24hour h PM = h + 12))
  /\ parse_time_to_24hour "11:30 AM" "2025-06-24" = Some "2025-06-24 11:30"%string
  /\ parse_time_to_24hour "2:00 PM" "2025-06-24" = Some "2025-06-24 14:00"%string.
Proof.
  split; [|split; [|split; [|split]]].
  - intros. now apply parse_12hour.
  - intros. now apply parse_24hour.
  - intros h H. split; [reflexivity|]. split; [reflexivity|].
    split; [reflexivity|]. intros N. unfold to_24hour.
    destruct (h =? 12) eqn:E; [apply Z.eqb_eq in E; contradiction|reflexivity].
  - reflexivity.
  - reflexivity.
Qed.

(** The examples of the specification, obtained from the general statement. *)
Lemma normalizer_canonical_witness :
  parse_time_to_24hour "12:05am" "2025-06-24" = Some "2025-06-24 00:05"%string
  /\ parse_time_to_24hour "12:05 Pm" "2025-06-24" = Some "2025-06-24 12:05"%string
  /\ parse_time_to_24hour "07:45 pm" "2025-06-24" = Some "2025-06-24 19:45"%string
  /\ parse_time_to_24hour "23:59" "2025-06-24" = Some "2025-06-24 23:59"%string.
Proof.
  destruct normalizer_canonical as (H12 & H24 & _).
  split; [|split; [|split]].
  - apply (H12 12 5 AM "12" "" "am" "2025-06-24")%string; cbn; auto; lia.
  - apply (H12 12 5 PM "12" " " "Pm" "2025-06-24")%string; cbn; auto; lia.
  - apply (H12 7 45 PM "07" " " "pm" "2025-06-24")%string; cbn; auto; lia.
  - apply (H24 23 59 "23" "2025-06-24")%string; cbn; auto; lia.
Defined.

(** An expression without minutes is not of the form the normalizer reads. *)
Lemma hour_without_minutes :
  parse_time_to_24hour "12 AM" "2025-06-24" = None.
Proof. reflexivity. Qed.

(** ** Parse failures *)

(** The function, seen from the fields it reads. *)
Lemma parse_time_fields time_str date :
  parse_time_to_24hour time_str date
  = match unpack_hour_minute (Py.split (time_part time_str) ":") with
    | Ok (hour, minute) =>
        match Py.format_02d (adjust_hour time_str hour),
              Py.format_02d minute with
        | Ok hour_text, Ok minute_text =>
            Some (date ++ " " ++ hour_text ++ ":" ++ minute_text)%string
        | _, _ => None
        end
    | Raise _ => None
    end.
Proof.
  unfold parse_time_to_24hour, time_part, adjust_hour. cbv zeta.
  destruct (Py.contains "AM" _ || Py.contains "PM" _);
    destruct (unpack_hour_minute _) as [[hour minute]|e]; try reflexivity;
    cbn [bind fst snd];
    (destruct (Py.format_02d _); [|reflexivity]); cbn [bind];
    destruct (Py.format_02d minute); reflexivity.
Qed.

Lemma unpack_ok parts hour minute :
  unpack_hour_minute parts = Ok (hour, minute) <->
  exists h m, parts = [h; m] /\ Py.int h = Ok hour /\ Py.int m = Ok minute.
Proof.
  split.
  - destruct parts as [|h [|m [|x r]]]; try discriminate. cbn.
    destruct (Py.int h) as [a|] eqn:H; [|discriminate]. cbn.
    destruct (Py.int m) as [b|] eqn:M; [|discriminate]. cbn.
    intros [= <- <-]. now exists h, m.
  - intros (h & m & -> & H & M). cbn. rewrite H. cbn. rewrite M. reflexivity.
Qed.

(** What is stripped from the left is whitespace; what remains is a suffix. *)
Lemma all_chars_lstrip p sp s :
  all_chars p (Py.lstrip_with sp s) = false -> all_chars p s = false.
Proof.
  induction s as [|c s IH]; cbn; [trivial|].
  destruct (sp c); cbn.
  - intros H. rewrite (IH H). apply andb_false_r.
  - trivial.
Qed.

Lemma all_chars_rstrip p sp s :
  (forall c, sp c = true -> p c = true) ->
  all_chars p (Py.rstrip_with sp s) = true -> all_chars p s = true.
Proof.
  intros SP. induction s as [|c s IH]; cbn; [trivial|].
  destruct (Py.rstrip_with sp s) as [|c' r] eqn:R.
  - destruct (sp c) eqn:C; cbn.
    + intros _. rewrite (SP c C). cbn. apply IH. reflexivity.
    + rewrite andb_true_r. intros ->. cbn. apply IH. reflexivity.
  - cbn. intros H. apply andb_true_iff in H as [-> H]. cbn. apply IH. exact H.
Qed.

Lemma all_chars_lstrip_true p sp s :
  (forall c, sp c = true -> p c = true) ->
  all_chars p (Py.lstrip_with sp s) = true -> all_chars p s = true.
Proof.
  intros SP. induction s as [|c s IH]; cbn; [trivial|].
  destruct (sp c) eqn:C; cbn.
  - intros H. rewrite (SP c C). cbn. apply IH. exact H.
  - trivial.
Qed.

Lemma int_digits_chars s : forall acc prev n,
  Py.int_digits s acc prev = Some n -> all_chars is_int_char s = true.
Proof.
  induction s as [|c s IH]; intros acc prev n; cbn; [trivial|].
  unfold is_int_char at 1. destruct (is_digit c); cbn.
  - apply IH.
  - destruct (Ascii.eqb c "_"); cbn; [|discriminate].
    destruct prev; cbn; [apply IH|discriminate].
Qed.

(** An integer literal is made of digits, underscores, a sign and
    whitespace: text with any other character is not one. *)
Lemma int_literal_chars s n : Py.int s = Ok n -> all_chars is_int_char s = true.
Proof.
  unfold Py.int. cbv zeta.
  set (body := Py.rstrip_with Py.is_int_space (Py.lstrip_with Py.is_int_space s)).
  intros H.
  assert (SP : forall c, Py.is_int_space c = true -> is_int_char c = true).
  { intros c C. unfold is_int_char. rewrite C. now rewrite !orb_true_r. }
  apply (all_chars_lstrip_true _ Py.is_int_space); [exact SP|].
  apply (all_chars_rstrip _ Py.is_int_space); [exact SP|]. fold body.
  destruct (Py.max_str_digits <? _); [discriminate|].
  destruct (Py.int_digits _ 0 false) as [v|] eqn:D; [|discriminate].
  clear H. destruct body as [|c r]; [reflexivity|].
  destruct (Ascii.eqb_spec c "-") as [->|N1].
  { cbn in D. apply int_digits_chars in D. exact D. }
  destruct (Ascii.eqb_spec c "+") as [->|N2].
  { cbn in D. apply int_digits_chars in D. exact D. }
  assert (E : match String c r with
              | String "-" r0 => (true, r0)
              | String "+" r0 => (false, r0)
              | _ => (false, String c r)
              end = (false, String c r)).
  { destruct c as [[] [] [] [] [] [] [] []]; try reflexivity; congruence. }
  rewrite E in D. cbn [snd] in D. apply int_digits_chars in D. exact D.
Qed.

(** ** The limit on the digits of a number *)

Lemma count_digits_nonneg s : 0 <= Py.count_digits s.
Proof.
  induction s as [|c s IH]; cbn [Py.count_digits]; [lia|].
  destruct (is_digit c); lia.
Qed.

(** A literal of [k] digits denotes a number below [10 ^ k]. *)
Lemma int_digits_bound s : forall acc prev n,
  0 <= acc -> Py.int_digits s acc prev = Some n ->
  0 <= n < (acc + 1) * 10 ^ Py.count_digits s.
Proof.
  induction s as [|c s IH]; intros acc prev n A; cbn [Py.int_digits Py.count_digits].
  - destruct prev; [|discriminate]. intros [= <-]. cbn. lia.
  - pose proof (count_digits_nonneg s) as C.
    destruct (is_digit c) eqn:D.
    + intros H. unfold is_digit in D.
      apply andb_true_iff in D as [D1 D2]. apply Z.leb_le in D1, D2.
      apply IH in H; [|unfold digit_value; lia].
      rewrite Z.pow_add_r, Z.pow_1_r by lia.
      unfold digit_value in H.
      assert (0 < 10 ^ Py.count_digits s) by (apply Z.pow_pos_nonneg; lia).
      nia.
    + destruct (Ascii.eqb c "_" && prev); [|discriminate].
      intros H. apply IH in H; [|assumption]. now rewrite Z.add_0_l.
Qed.

(** A number below [10 ^ k] is written with at most [k] digits. *)
Lemma digits_of_length fuel : forall n acc k,
  1 <= k -> 0 <= n < 10 ^ k ->
  Z.of_nat (String.length (Py.digits_of fuel n acc))
  <= k + Z.of_nat (String.length acc).
Proof.
  induction fuel as [|fuel IH]; intros n acc k K N; cbn [Py.digits_of].
  - lia.
  - destruct (Z.ltb_spec n 10) as [L|L].
    + cbn [String.length]. lia.
    + assert (2 <= k).
      { destruct (Z.eq_dec k 1) as [->|]; [|lia]. rewrite Z.pow_1_r in N. lia. }
      assert (P : 10 ^ k = 10 * 10 ^ (k - 1)).
      { rewrite <- Z.pow_succ_r by lia. f_equal. lia. }
      specialize (IH (n / 10) (String (digit_char (n mod 10)) acc) (k - 1)).
      cbn [String.length] in IH.
      assert (0 <= n / 10 < 10 ^ (k - 1)).
      { split; [apply Z.div_pos; lia|].
        apply Z.div_lt_upper_bound; lia. }
      lia.
Qed.

Lemma decimal_digits_bound n k :
  1 <= k -> Z.abs n < 10 ^ k -> Py.decimal_digits n <= k.
Proof.
  intros K N. unfold Py.decimal_digits, Py.str_nonneg.
  pose proof (digits_of_length (S (Z.to_nat (Z.log2 (Z.abs n)))) (Z.abs n)
                EmptyString k K ltac:(lia)) as L.
  cbn [String.length] in L. lia.
Qed.

Lemma digits_of_grows fuel : forall n acc,
  (String.length acc <= String.length (Py.digits_of fuel n acc))%nat.
Proof.
  induction fuel as [|fuel IH]; intros n acc; cbn [Py.digits_of]; [lia|].
  destruct (n <? 10); [cbn [String.length]; lia|].
  specialize (IH (n / 10) (String (digit_char (n mod 10)) acc)).
  cbn [String.length] in IH. lia.
Qed.

(** A number from [10 ^ k] on is written with more than [k] digits. *)
Lemma digits_of_length_lower fuel : forall n acc k,
  0 <= k -> 10 ^ k <= n -> Z.log2 n < Z.of_nat fuel ->
  k + 1 + Z.of_nat (String.length acc)
  <= Z.of_nat (String.length (Py.digits_of fuel n acc)).
Proof.
  induction fuel as [|fuel IH]; intros n acc k K N F.
  - pose proof (Z.log2_nonneg n). lia.
  - cbn [Py.digits_of].
    assert (P : 0 < 10 ^ k) by (apply Z.pow_pos_nonneg; lia).
    destruct (Z.ltb_spec n 10) as [L|L].
    + assert (k = 0).
      { destruct (Z.eq_dec k 0); [assumption|].
        assert (10 ^ 1 <= 10 ^ k) by (apply Z.pow_le_mono_r; lia).
        rewrite Z.pow_1_r in *. lia. }
      subst k. cbn [String.length]. lia.
    + destruct (Z.eq_dec k 0) as [->|K0].
      * pose proof (digits_of_grows fuel (n / 10)
                      (String (digit_char (n mod 10)) acc)) as G.
        cbn [String.length] in G. lia.
      * assert (Q : 10 ^ k = 10 * 10 ^ (k - 1)).
        { rewrite <- Z.pow_succ_r by lia. f_equal. lia. }
        specialize (IH (n / 10) (String (digit_char (n mod 10)) acc) (k - 1)).
        cbn [String.length] in IH.
        assert (10 ^ (k - 1) <= n / 10) by (apply Z.div_le_lower_bound; lia).
        assert (Z.log2 (n / 10) < Z.of_nat fuel).
        { assert (Z.log2 (n / 10) <= Z.log2 (n / 2))
            by (apply Z.log2_le_mono; Z.div_mod_to_equations; lia).
          assert (Z.log2 (2 * (n / 2)) <= Z.log2 n)
            by (apply Z.log2_le_mono; Z.div_mod_to_equations; lia).
          rewrite Z.log2_double in * by (Z.div_mod_to_equations; lia).
          lia. }
        lia.
Qed.

Lemma decimal_digits_lower n k :
  0 <= k -> 10 ^ k <= Z.abs n -> k < Py.decimal_digits n.
Proof.
  intros K N. unfold Py.decimal_digits, Py.str_nonneg.
  pose proof (digits_of_length_lower (S (Z.to_nat (Z.log2 (Z.abs n))))
                (Z.abs n) EmptyString k K N) as L.
  pose proof (Z.log2_nonneg (Z.abs n)).
  cbn [String.length] in L. lia.
Qed.

(** What [int] returns can be written again. *)
Lemma int_value_digits s n :
  Py.int s = Ok n -> Py.decimal_digits n <= Py.max_str_digits.
Proof.
  unfold Py.int. cbv zeta.
  destruct (Py.max_str_digits <? _) eqn:C; [discriminate|].
  apply Z.ltb_ge in C.
  destruct (Py.int_digits _ 0 false) as [v|] eqn:D; [|discriminate].
  apply int_digits_bound in D; [|lia]. rewrite Z.add_0_l, Z.mul_1_l in D.
  assert (P : 10 ^ Py.count_digits
                     (snd match Py.rstrip_with Py.is_int_space
                                  (Py.lstrip_with Py.is_int_space s) with
                          | String "-" r => (true, r)
                          | String "+" r => (false, r)
                          | _ => (false,
                                  Py.rstrip_with Py.is_int_space
                                    (Py.lstrip_with Py.is_int_space s))
                          end)
              <= 10 ^ Py.max_str_digits)
    by (apply Z.pow_le_mono_r; [lia|exact C]).
  intros [= <-]. apply decimal_digits_bound; [unfold Py.max_str_digits; lia|].
  destruct (fst _); lia.
Qed.

Lemma format_02d_ok n :
  Py.decimal_digits n <= Py.max_str_digits ->
  Py.format_02d n = Ok (Py.zero_padded n).
Proof.
  intros H. unfold Py.format_02d.
  now replace (Py.max_str_digits <? Py.decimal_digits n) with false
    by (symmetry; apply Z.ltb_ge; exact H).
Qed.

Lemma format_02d_raise n :
  Py.max_str_digits < Py.decimal_digits n ->
  Py.format_02d n = Raise ValueError.
Proof.
  intros H. unfold Py.format_02d.
  now replace (Py.max_str_digits <? Py.decimal_digits n) with true
    by (symmetry; apply Z.ltb_lt; exact H).
Qed.

(** C3, as amended. On ASCII text the normalizer never throws (it is a
    total function into an optional string) and returns nothing exactly
    when the text it reads does not split at the colon into two integer
    literals, of at most 4300 digits each as [int] demands, or the hour
    after the adjustment of AM and PM has more than 4300 digits, which
    the formatting refuses; a field with a character that is not a digit,
    sign, underscore or whitespace gives nothing. It checks no range:
    whatever integers the two fields denote, if the hour can be written
    they are formatted and returned. *)
Theorem normalizer_parse_failure time_str date :
  is_ascii time_str = true ->
  (parse_time_to_24hour time_str date = None <->
   ~ exists h m hour minute,
       Py.split (time_part time_str) ":" = [h; m]
       /\ Py.int h = Ok hour /\ Py.int m = Ok minute
       /\ Py.decimal_digits (adjust_hour time_str hour) <= Py.max_str_digits)
  /\ (forall h m, Py.split (time_part time_str) ":" = [h; m] ->
        all_chars is_int_char h = false \/ all_chars is_int_char m = false ->
        parse_time_to_24hour time_str date = None)
  /\ (forall h m hour minute,
        Py.split (time_part time_str) ":" = [h; m] ->
        Py.int h = Ok hour -> Py.int m = Ok minute ->
        Py.decimal_digits (adjust_hour time_str hour) <= Py.max_str_digits ->
        parse_time_to_24hour time_str date
        = Some (date ++ " " ++ Py.zero_padded (adjust_hour time_str hour) ++ ":"
                  ++ Py.zero_padded minute)%string).
Proof.
  intros _. rewrite parse_time_fields.
  destruct (unpack_hour_minute _) as [[hour minute]|e] eqn:U.
  - apply unpack_ok in U as (h & m & S & H & M). rewrite S.
    rewrite (format_02d_ok minute (int_value_digits _ _ M)).
    destruct (Z.le_gt_cases (Py.decimal_digits (adjust_hour time_str hour))
                Py.max_str_digits) as [L|L].
    + rewrite (format_02d_ok _ L). split; [|split].
      * split; [discriminate|]. intros N. exfalso. apply N.
        exists h, m, hour, minute. auto.
      * intros h' m' [= <- <-] [B|B];
          [apply int_literal_chars in H|apply int_literal_chars in M];
          congruence.
      * intros h' m' hour' minute' [= <- <-] H' M' _.
        rewrite H in H'. rewrite M in M'. injection H' as <-.
        injection M' as <-. reflexivity.
    + rewrite (format_02d_raise _ L). split; [|split].
      * split; [|reflexivity].
        intros _ (h' & m' & hour' & minute' & [= <- <-] & H' & _ & L').
        rewrite H in H'. injection H' as <-. lia.
      * reflexivity.
      * intros h' m' hour' minute' [= <- <-] H' _ L'.
        rewrite H in H'. injection H' as <-. lia.
  - split; [|split].
    + split; [|reflexivity].
      intros _ (h & m & hour & minute & S & H & M & _).
      assert (X : unpack_hour_minute (Py.split (time_part time_str) ":")
                  = Ok (hour, minute)) by (apply unpack_ok; eauto).
      congruence.
    + reflexivity.
    + intros h m hour minute S H M _.
      assert (X : unpack_hour_minute (Py.split (time_part time_str) ":")
                  = Ok (hour, minute)) by (apply unpack_ok; eauto).
      congruence.
Qed.

(** C3 fails as stated: out-of-range values are returned, not rejected. *)
Lemma out_of_range_time_accepted :
  parse_time_to_24hour "25:99" "2025-06-24" = Some "2025-06-24 25:99"%string
  /\ parse_time_to_24hour "13:00 PM" "2025-06-24" = Some "2025-06-24 25:00"%string
  /\ parse_time_to_24hour "7:75" "2025-06-24" <> None.
Proof. repeat split; discriminate. Qed.

(** The limit of 4300 digits: a field beyond it is no integer literal for
    [int], and an hour of 4300 nines cannot be written once PM has added
    12 to it. *)
Lemma oversized_numbers_rejected :
  parse_time_to_24hour ("1:" ++ nines 4301) "2025-06-24" = None
  /\ parse_time_to_24hour (nines 4300 ++ ":00 PM") "2025-06-24" = None.
Proof.
  split; [vm_compute; reflexivity|].
  rewrite parse_time_fields.
  replace (unpack_hour_minute (Py.split (time_part (nines 4300 ++ ":00 PM")) ":"))
    with (@Ok (Z * Z) (10 ^ 4300 - 1, 0)) by (vm_compute; reflexivity).
  replace (adjust_hour (nines 4300 ++ ":00 PM") (10 ^ 4300 - 1))
    with (10 ^ 4300 + 11) by (vm_compute; reflexivity).
  rewrite format_02d_raise; [reflexivity|].
  apply decimal_digits_lower; [unfold Py.max_str_digits; lia|].
  unfold Py.max_str_digits.
  assert (0 < 10 ^ 4300) by (apply Z.pow_pos_nonneg; lia).
  set (p := 10 ^ 4300) in *. lia.
Qed.

(** A run of C3 as amended. *)
Lemma normalizer_parse_failure_witness :
  parse_time_to_24hour "half past two" "2025-06-24" = None
  /\ parse_time_to_24hour "1x:30 PM" "2025-06-24" = None
  /\ parse_time_to_24hour "25:99" "2025-06-24" = Some "2025-06-24 25:99"%string.
Proof.
  split; [|split].
  - apply (proj1 (normalizer_parse_failure "half past two" "2025-06-24"
                    eq_refl)).
    intros (h & m & hour & minute & S & _). vm_compute in S. discriminate.
  - apply (proj1 (proj2 (normalizer_parse_failure "1x:30 PM" "2025-06-24"
                           eq_refl))
             "1X"%string "30"%string); [reflexivity|left; reflexivity].
  - apply (proj2 (proj2 (normalizer_parse_failure "25:99" "2025-06-24"
                           eq_refl))
             "25"%string "99"%string 25 99);
      [reflexivity|reflexivity|reflexivity|vm_compute; discriminate].
Defined.

(** * Properties of the tool-call parser and of the dispatch loop *)

(** The parser finds no tool call exactly when the marker or the brace is
    missing; otherwise it decodes, and answers an invocation or raises. *)
Lemma parse_tool_call_none response_text :
  parse_tool_call response_text = Ok None
  <-> Py.contains "tool_call" response_text && Py.contains "{" response_text = false.
Proof.
  unfold parse_tool_call.
  destruct (Py.contains "tool_call" response_text && Py.contains "{" response_text).
  - split; [|discriminate].
    destruct (Json.loads _) as [d|]; cbn; [|discriminate].
    destruct (getitem d "tool_call") as [t|]; cbn; [|discriminate].
    destruct (getitem t "name"); cbn; [|discriminate].
    destruct (getitem t "arguments"); cbn; discriminate.
  - split; reflexivity.
Qed.

(** Prose without braces is no tool call. *)
Lemma prose_without_braces response_text :
  Py.contains "{" response_text = false -> parse_tool_call response_text = Ok None.
Proof. intros H. apply parse_tool_call_none. rewrite H. apply andb_false_r. Qed.

(** The example of the specification. *)
Lemma example_tool_call_parsed :
  parse_tool_call example_tool_call
  = Ok (Some (JString "find_available_slots",
              JObject [("duration_minutes", JInt 30);
                       ("date_str", JString "2025-06-24")]%string)).
Proof. reflexivity. Qed.

(** Keyword arguments that name no parameter of the tool raise at the
    call, whatever the tool. *)
Lemma unexpected_keyword_raises parameters required d :
  forallb (fun kv => existsb (String.eqb (fst kv)) parameters) d = false ->
  bind_keywords parameters required (JObject d) = Raise TypeError.
Proof. intros H. unfold bind_keywords. now rewrite H. Qed.

(** Arguments that are not an object cannot be unpacked. *)
Lemma non_mapping_arguments_raise parameters required function_args :
  (forall d, function_args <> JObject d) ->
  bind_keywords parameters required function_args = Raise TypeError.
Proof.
  intros H. destruct function_args as [| | | | | |d]; try reflexivity.
  now elim (H d).
Qed.

(** Subscripting a decoded value that is not an object with a string. *)
Lemma getitem_non_object v key :
  (forall d, v <> JObject d) -> getitem v key = Raise TypeError.
Proof.
  intros H. destruct v as [| | | | | |d]; try reflexivity. now elim (H d).
Qed.

Section DispatchProperties.

Variable World : Type.
Variable listen_for_input : World -> option string * World.
Variable speak_response : string -> World -> World.
Variable send_message : list turn -> string -> World -> string * World.
Variable find_available_slots_tool : json -> json -> World -> string * World.
Variable schedule_meeting_tool :
  json -> json -> json -> json -> World -> string * World.

Local Abbreviation execute :=
  (execute_tool World find_available_slots_tool schedule_meeting_tool).
Local Abbreviation detect :=
  (detect_and_execute World find_available_slots_tool schedule_meeting_tool).
Local Abbreviation iterate :=
  (iteration World listen_for_input speak_response send_message
     find_available_slots_tool schedule_meeting_tool).
Local Abbreviation loop :=
  (main_loop World listen_for_input speak_response send_message
     find_available_slots_tool schedule_meeting_tool).

(** An unrecognized name runs no tool and yields the generic error. *)
Lemma unknown_tool_error function_name function_args w :
  is_name function_name "find_available_slots" = false ->
  is_name function_name "schedule_meeting" = false ->
  execute function_name function_args w = Ok (unknown_tool_result, w).
Proof. intros A B. unfold execute_tool. now rewrite A, B. Qed.

(** A decoding failure or a missing key is absorbed: the output is spoken
    and recorded as plain text. *)
Lemma decode_failure_is_plain_text history w u w1 response w2 e :
  listen_for_input w = (Some u, w1) -> u <> EmptyString ->
  existsb (String.eqb (Py.lower u)) exit_words = false ->
  send_message (history ++ [user_turn u]) u w1 = (response, w2) ->
  parse_tool_call (Py.strip response) = Raise e ->
  e = JSONDecodeError \/ e = KeyError ->
  iterate history w
  = (Continue,
     history ++ [user_turn u; model_turn (Py.strip response)],
     speak_response (Py.strip response) w2).
Proof.
  intros L N X S P E. unfold iteration. rewrite L.
  destruct u as [|c u]; [congruence|]. rewrite X, S.
  unfold detect_and_execute. rewrite P. cbn [bind].
  rewrite <- app_assoc. destruct E as [-> | ->]; reflexivity.
Qed.

(** An exception other than the two the [except] clause names leaves the
    iteration: the user turn stays appended, nothing is spoken and the
    model output is not recorded. *)
Lemma uncaught_exception_leaves_iteration history w u w1 response w2 e :
  listen_for_input w = (Some u, w1) -> u <> EmptyString ->
  existsb (String.eqb (Py.lower u)) exit_words = false ->
  send_message (history ++ [user_turn u]) u w1 = (response, w2) ->
  detect (Py.strip response) w2 = Raise e ->
  e <> JSONDecodeError -> e <> KeyError ->
  iterate history w = (Uncaught e, history ++ [user_turn u], w2).
Proof.
  intros L N X S D J K. unfold iteration. rewrite L.
  destruct u as [|c u]; [congruence|]. rewrite X, S, D.
  destruct e; congruence.
Qed.

(** Such an iteration is the last one: the exception ends the session. *)
Lemma uncaught_exception_ends_session n history w e h w' :
  iterate history w = (Uncaught e, h, w') ->
  loop (S n) history w = (Crashed e, h, w').
Proof. intros I. cbn [main_loop]. now rewrite I. Qed.


(** What one iteration appends. *)
Lemma iteration_appends history w :
  let r := iterate history w in
  exists appended,
    snd (fst r) = history ++ appended
    /\ match fst (fst r) with
       | Break => appended = []
       | Uncaught _ => exists u, appended = [user_turn u]
       | Continue =>
           (appended = []
            /\ (fst (listen_for_input w) = None
                \/ fst (listen_for_input w) = Some EmptyString))
           \/ exists u w1 w2,
               listen_for_input w = (Some u, w1) /\ u <> EmptyString
               /\ let response := fst (send_message (history ++ [user_turn u]) u w1) in
                  let output := model_turn (Py.strip response) in
                  snd (send_message (history ++ [user_turn u]) u w1) = w2
                  /\ (((detect (Py.strip response) w2 = Ok None
                        \/ detect (Py.strip response) w2 = Raise JSONDecodeError
                        \/ detect (Py.strip response) w2 = Raise KeyError)
                       /\ appended = [user_turn u; output])
                      \/ exists tool_result w3,
                          detect (Py.strip response) w2
                          = Ok (Some (tool_result, w3))
                          /\ let message :=
                               ("TOOL_RESPONSE: " ++ tool_result)%string in
                             appended
                             = [user_turn u; output; user_turn message;
                                model_turn
                                  (fst (send_message
                                          ((history ++ [user_turn u])
                                           ++ [user_turn u; model_turn response])
                                          message w3))])
       end.
Proof.
  cbv zeta. unfold iteration.
  destruct (listen_for_input w) as [[u|] w1] eqn:L.
  2:{ exists []. cbn. split; [now rewrite app_nil_r|]. left. auto. }
  destruct u as [|c u].
  { exists []. cbn. split; [now rewrite app_nil_r|]. left. auto. }
  set (said := String c u) in *.
  assert (N : said <> EmptyString) by discriminate.
  destruct (existsb _ exit_words).
  { exists []. cbn. split; [now rewrite app_nil_r|reflexivity]. }
  destruct (send_message (history ++ [user_turn said]) said w1) as [response w2] eqn:S.
  destruct (detect_and_execute _ _ _ (Py.strip response) w2)
    as [[[tool_result w3]|]|e] eqn:D.
  - destruct (send_message _ _ w3) as [summary w4] eqn:T.
    eexists. cbn [fst snd]. split.
    + rewrite <- !app_assoc. cbn [app]. reflexivity.
    + right. exists said, w1, w2. rewrite S. cbn [fst snd].
      split; [reflexivity|]. split; [exact N|]. split; [reflexivity|].
      right. exists tool_result, w3. split; [exact D|].
      cbv zeta. rewrite T. reflexivity.
  - eexists. cbn [fst snd]. split.
    + rewrite <- !app_assoc. cbn [app]. reflexivity.
    + right. exists said, w1, w2. rewrite S. cbn [fst snd].
      split; [reflexivity|]. split; [exact N|]. split; [reflexivity|].
      left. split; [now left|reflexivity].
  - destruct e; cbn [fst snd];
      try (exists [user_turn said]; split; [reflexivity|now exists said]).
    + eexists. split; [rewrite <- !app_assoc; cbn [app]; reflexivity|].
      right. exists said, w1, w2. rewrite S. cbn [fst snd].
      split; [reflexivity|]. split; [exact N|]. split; [reflexivity|].
      left. split; [right; now right|reflexivity].
    + eexists. split; [rewrite <- !app_assoc; cbn [app]; reflexivity|].
      right. exists said, w1, w2. rewrite S. cbn [fst snd].
      split; [reflexivity|]. split; [exact N|]. split; [reflexivity|].
      left. split; [right; now left|reflexivity].
Qed.


End DispatchProperties.

(** C2. The code breaks the claim: a tool call whose argument names are not
    the parameters of the tool raises [TypeError] at the call, outside the
    tool's own [try], and the [except] clause of the loop catches only
    [JSONDecodeError] and [KeyError]: the exception leaves the iteration and
    ends the session; nothing is spoken and no tool runs. *)
Theorem mismatched_arguments_crash :
  parse_tool_call mismatched_call
  = Ok (Some (JString "find_available_slots",
              JObject [("duration", JInt 30); ("date", JString "2025-06-24")]%string))
  /\ stub_iteration [] (hears_and_answers "half an hour on the 24th" mismatched_call)
     = (Uncaught TypeError,
        [user_turn "half an hour on the 24th"],
        {| utterances := []; model_outputs := []; spoken := []; tools_run := [] |}).
Proof. split; reflexivity. Qed.

(** The part of C2 that holds: an unknown tool yields the generic error
    result, which is fed to the summarization. *)
Lemma unknown_tool_is_reported :
  stub_iteration [] (hears_and_answers "cancel it" unknown_call)
  = (Continue,
     [user_turn "cancel it"; model_turn unknown_call;
      user_turn ("TOOL_RESPONSE: " ++ unknown_tool_result); model_turn ""],
     {| utterances := []; model_outputs := []; spoken := [""%string];
        tools_run := [] |}).
Proof. reflexivity. Qed.

(** C8. The code breaks the claim: when the decoded object has a
    ["tool_call"] member that is not an object, reading its ["name"] raises
    [TypeError], which the [except] clause does not catch: the parser does
    not yield none, and the session ends instead of treating the output as
    plain text. *)
Theorem non_object_tool_call_crashes :
  parse_tool_call malformed_call = Raise TypeError
  /\ stub_iteration [] (hears_and_answers "hello" malformed_call)
     = (Uncaught TypeError,
        [user_turn "hello"],
        {| utterances := []; model_outputs := []; spoken := []; tools_run := [] |}).
Proof. split; reflexivity. Qed.


(** The run of the specification's example: one tool execution, four turns
    appended. *)
Lemma tool_call_appends_four_turns :
  stub_iteration [] (hears_and_answers "30 minute meeting tomorrow" example_tool_call)
  = (Continue,
     [user_turn "30 minute meeting tomorrow"; model_turn example_tool_call;
      user_turn ("TOOL_RESPONSE: " ++ stub_result); model_turn ""],
     {| utterances := []; model_outputs := []; spoken := [""%string];
        tools_run := ["find_available_slots"%string] |}).
Proof. reflexivity. Qed.
(** * Dates *)

Lemma month_day_table :
  forallb (check_month_day false) (map Z.of_nat (seq 0 365))
  && forallb (check_month_day true) (map Z.of_nat (seq 0 366)) = true.
Proof. vm_compute. reflexivity. Qed.

Lemma month_day_ok (leapyear : bool) n :
  0 <= n < 365 + (if leapyear then 1 else 0) ->
  check_month_day leapyear n = true.
Proof.
  intros H. pose proof month_day_table as T.
  apply andb_true_iff in T as [T0 T1].
  pose proof (proj1 (forallb_forall _ _) T0) as F0.
  pose proof (proj1 (forallb_forall _ _) T1) as F1.
  assert (I : forall k, (Z.to_nat n < k)%nat -> In n (map Z.of_nat (seq 0 k))).
  { intros k K. apply in_map_iff. exists (Z.to_nat n). split; [lia|].
    apply in_seq. lia. }
  destruct leapyear; [apply F1|apply F0]; apply I; lia.
Qed.

(** The decomposition of an ordinal into cycles of 400, 100, 4 and 1
    years. *)
Lemma ord2ymd_cycles n :
  1 <= n <= Datetime.MAXORDINAL ->
  exists a b c e r,
    n - 1 = 146097 * a + 36524 * b + 1461 * c + 365 * e + r
    /\ 0 <= a <= 24 /\ 0 <= b <= 4 /\ 0 <= c <= 24 /\ 0 <= e <= 4
    /\ 0 <= r < 365
    /\ (b = 4 -> c = 0 /\ e = 0 /\ r = 0)
    /\ (e = 4 -> r = 0)
    /\ (b <> 4 -> c = 24 -> e <> 4)
    /\ (a = 24 -> b <= 3)
    /\ (n - 1) / Date.DI400Y = a
    /\ ((n - 1) mod Date.DI400Y) / Date.DI100Y = b
    /\ (((n - 1) mod Date.DI400Y) mod Date.DI100Y) / Date.DI4Y = c
    /\ ((((n - 1) mod Date.DI400Y) mod Date.DI100Y) mod Date.DI4Y) / 365 = e
    /\ ((((n - 1) mod Date.DI400Y) mod Date.DI100Y) mod Date.DI4Y) mod 365 = r.
Proof.
  unfold Datetime.MAXORDINAL, Date.DI400Y, Date.DI100Y, Date.DI4Y. intros H.
  exists ((n - 1) / 146097), (((n - 1) mod 146097) / 36524),
    ((((n - 1) mod 146097) mod 36524) / 1461),
    (((((n - 1) mod 146097) mod 36524) mod 1461) / 365),
    (((((n - 1) mod 146097) mod 36524) mod 1461) mod 365).
  repeat match goal with |- _ /\ _ => split end;
    try reflexivity; Z.div_mod_to_equations; lia.
Qed.

Lemma days_before_year_cycles a b c e :
  0 <= a -> 0 <= b <= 3 -> 0 <= c <= 24 -> 0 <= e <= 3 ->
  Datetime.days_before_year (400 * a + 100 * b + 4 * c + e + 1)
  = 146097 * a + 36524 * b + 1461 * c + 365 * e.
Proof.
  intros. unfold Datetime.days_before_year. cbv zeta.
  Z.div_mod_to_equations. lia.
Qed.

Lemma is_leap_cycles a b c e :
  0 <= a -> 0 <= b <= 3 -> 0 <= c <= 24 -> 0 <= e <= 3 ->
  Datetime.is_leap (400 * a + 100 * b + 4 * c + e + 1)
  = (e =? 3) && (negb (c =? 24) || (b =? 3)).
Proof.
  intros. unfold Datetime.is_leap.
  destruct (Z.eqb_spec e 3), (Z.eqb_spec c 24), (Z.eqb_spec b 3);
    cbn [andb orb negb];
    repeat match goal with
      | |- context [?x =? 0] => destruct (Z.eqb_spec x 0)
      end; cbn [andb orb negb]; try reflexivity;
    exfalso; Z.div_mod_to_equations; lia.
Qed.

Lemma december_31 y :
  Datetime.MINYEAR <= y <= Datetime.MAXYEAR ->
  Datetime.ymd2ord y 12 31
  = Ok (Datetime.days_before_year y + 365
        + (if Datetime.is_leap y then 1 else 0)).
Proof.
  intros H. unfold Datetime.ymd2ord, Datetime.days_in_month,
    Datetime.days_before_month.
  change (Z.to_nat (12 - 1)) with 11%nat. cbn [nth Datetime.DAYS_IN_MONTH
    Datetime.DAYS_BEFORE_MONTH]. change (12 =? 2) with false.
  change (2 <? 12) with true. cbn [andb].
  replace (_ && _) with true.
  - f_equal. destruct (Datetime.is_leap y); lia.
  - symmetry. rewrite !andb_true_iff, !Z.leb_le. lia.
Qed.

(** [ord2ymd] inverts [ymd2ord] on every day of the calendar. *)
Lemma ymd2ord_ord2ymd n :
  1 <= n <= Datetime.MAXORDINAL ->
  Datetime.ymd2ord (fst (fst (Date.ord2ymd n))) (snd (fst (Date.ord2ymd n)))
    (snd (Date.ord2ymd n)) = Ok n.
Proof.
  intros H.
  pose proof (ord2ymd_cycles n H) as D. destruct D
    as (a & b & c & e & r & E & A & B & C & E1 & R & S1 & S2 & S3 & S4
        & Qa & Qb & Qc & Qe & Qr).
  unfold Datetime.MAXORDINAL in H.
  unfold Date.ord2ymd. cbv zeta. rewrite Qa, Qb, Qc, Qe, Qr.
  clear Qa Qb Qc Qe Qr.
  destruct (Z.eqb_spec e 4) as [e4|e4]; cbn [orb].
  - (* the last day of a leap year that ends a 4-year cycle *)
    cbn [fst snd]. specialize (S2 e4). subst e r.
    assert (b <> 4) by (intros b4; destruct (S1 b4) as (_ & ? & _); lia).
    assert (c <> 24) by (intros c24; now apply (S3 H0 c24)).
    replace (a * 400 + 1 + b * 100 + c * 4 + 4 - 1)
      with (400 * a + 100 * b + 4 * c + 3 + 1) by lia.
    rewrite december_31
      by (unfold Datetime.MINYEAR, Datetime.MAXYEAR; lia).
    rewrite is_leap_cycles, days_before_year_cycles by lia.
    destruct (Z.eqb_spec c 24); [lia|]. cbn [Z.eqb andb negb orb Pos.eqb].
    f_equal. lia.
  - destruct (Z.eqb_spec b 4) as [b4|b4].
    + cbn [fst snd]. destruct (S1 b4) as (-> & -> & ->). subst b.
      replace (a * 400 + 1 + 4 * 100 + 0 * 4 + 0 - 1)
        with (400 * a + 100 * 3 + 4 * 24 + 3 + 1) by lia.
      rewrite december_31
        by (unfold Datetime.MINYEAR, Datetime.MAXYEAR; lia).
      rewrite is_leap_cycles, days_before_year_cycles by lia.
      cbn [Z.eqb andb negb orb Pos.eqb]. f_equal. lia.
    + set (leapyear := (e =? 3) && (negb (c =? 24) || (b =? 3))).
      assert (Rl : 0 <= r < 365 + (if leapyear then 1 else 0))
        by (destruct leapyear; lia).
      pose proof (month_day_ok leapyear r Rl) as M.
      unfold check_month_day in M.
      destruct (Date.month_day leapyear r) as [m d]. cbn [fst snd].
      rewrite !andb_true_iff, !Z.leb_le, Z.eqb_eq in M.
      destruct M as ((((M1 & M2) & D1) & D2) & S).
      replace (a * 400 + 1 + b * 100 + c * 4 + e)
        with (400 * a + 100 * b + 4 * c + e + 1) by lia.
      unfold Datetime.ymd2ord, Datetime.days_in_month, Datetime.days_before_month.
      rewrite is_leap_cycles, days_before_year_cycles by lia. fold leapyear.
      unfold Datetime.MINYEAR, Datetime.MAXYEAR.
      replace (_ && _) with true; [f_equal; lia|].
      symmetry. rewrite !andb_true_iff, !Z.leb_le. repeat split; try lia.
Qed.

(** ** Strings *)

Lemma append_assoc (a b c : string) :
  ((a ++ b) ++ c = a ++ (b ++ c))%string.
Proof. induction a as [|x a IH]; cbn; [reflexivity|now rewrite IH]. Qed.

Lemma append_empty_r (a : string) : (a ++ EmptyString)%string = a.
Proof. induction a as [|x a IH]; cbn; [reflexivity|now rewrite IH]. Qed.

(** ** Reading back what [strftime] writes *)

Lemma digit_char_digit k :
  0 <= k <= 9 -> is_digit (digit_char k) = true /\ digit_value (digit_char k) = k.
Proof.
  intros H.
  assert (E : k = 0 \/ k = 1 \/ k = 2 \/ k = 3 \/ k = 4 \/ k = 5 \/ k = 6
              \/ k = 7 \/ k = 8 \/ k = 9) by lia.
  repeat destruct E as [E|E]; subst k; split; reflexivity.
Qed.

Ltac enumerate v lo n :=
  let I := fresh "I" in
  assert (I : In v (map Z.of_nat (seq lo n))) by (apply in_range_list; lia);
  cbn in I; repeat destruct I as [<-|I]; [..|destruct I].

Lemma match_month_two_digits m rest :
  1 <= m <= 12 ->
  match_month (two_digits m ++ String "-" rest) = Some (m, rest).
Proof. intros H. enumerate m 1%nat 12%nat; reflexivity. Qed.

Lemma match_day_two_digits d rest :
  1 <= d <= 31 -> match_day (two_digits d ++ rest) = Some (d, rest).
Proof. intros H. enumerate d 1%nat 31%nat; reflexivity. Qed.

Lemma match_hour_two_digits h rest :
  0 <= h <= 23 ->
  match_hour (two_digits h ++ String ":" rest) = Some (h, rest).
Proof. intros H. enumerate h 0%nat 24%nat; reflexivity. Qed.

Lemma match_minute_two_digits m rest :
  0 <= m <= 59 -> match_minute (two_digits m ++ rest) = Some (m, rest).
Proof. intros H. enumerate m 0%nat 60%nat; reflexivity. Qed.

(** The decimal text of a year of four digits. *)
Lemma str_nonneg_year y :
  1000 <= y <= 9999 ->
  Py.str_nonneg y
  = String (digit_char (y / 1000)) (String (digit_char (y / 100 mod 10))
      (String (digit_char (y / 10 mod 10))
         (String (digit_char (y mod 10)) EmptyString))).
Proof.
  intros H. unfold Py.str_nonneg.
  assert (L : 9 <= Z.log2 y) by (apply (Z.log2_le_mono 512 y); lia).
  destruct (Z.to_nat (Z.log2 y)) as [|[|[|n]]] eqn:F; try lia.
  cbn [Py.digits_of].
  replace (y <? 10) with false by (symmetry; apply Z.ltb_ge; lia).
  replace (y / 10 <? 10) with false
    by (symmetry; apply Z.ltb_ge; Z.div_mod_to_equations; lia).
  replace (y / 10 / 10 <? 10) with false
    by (symmetry; apply Z.ltb_ge; Z.div_mod_to_equations; lia).
  replace (y / 10 / 10 / 10 <? 10) with true
    by (symmetry; apply Z.ltb_lt; Z.div_mod_to_equations; lia).
  rewrite !Z.div_div by lia. change (10 * 10) with 100.
  change (10 * 100) with 1000.
  replace (y / 1000 mod 10) with (y / 1000)
    by (Z.div_mod_to_equations; lia).
  reflexivity.
Qed.

Lemma lstrip_two_digits n rest :
  0 <= n <= 99 ->
  Py.lstrip_with Py.is_space (two_digits n ++ rest) = (two_digits n ++ rest)%string.
Proof.
  intros H. unfold two_digits. cbn [String.append Py.lstrip_with].
  assert (D : 0 <= n / 10 <= 9) by (Z.div_mod_to_equations; lia).
  enumerate (n / 10) 0%nat 10%nat; reflexivity.
Qed.

Ltac to_nat_values :=
  repeat match goal with
    | H : context [Z.to_nat ?z] |- _ =>
        let v := eval vm_compute in (Z.to_nat z) in
        change (Z.to_nat z) with v in H
    | |- context [Z.to_nat ?z] =>
        let v := eval vm_compute in (Z.to_nat z) in
        change (Z.to_nat z) with v
    end.

Lemma ymd2ord_fields y m d n :
  Datetime.ymd2ord y m d = Ok n ->
  1 <= y <= 9999 /\ 1 <= m <= 12 /\ 1 <= d <= 31.
Proof.
  unfold Datetime.ymd2ord, Datetime.MINYEAR, Datetime.MAXYEAR.
  destruct (_ && _) eqn:G; [|discriminate]. intros _.
  rewrite !andb_true_iff, !Z.leb_le in G.
  destruct G as [[[[[Y1 Y2] M1] M2] D1] D2].
  repeat split; try assumption.
  unfold Datetime.days_in_month in D2.
  enumerate m 1%nat 12%nat; destruct (Datetime.is_leap y);
    to_nat_values; cbn in D2; lia.
Qed.

Lemma toordinal_range t :
  Datetime.in_range t = true -> 1 <= Date.toordinal t <= Datetime.MAXORDINAL.
Proof.
  unfold Datetime.in_range, Date.toordinal, Datetime.MAXORDINAL,
    Datetime.us_per_day.
  rewrite andb_true_iff, Z.leb_le, Z.ltb_lt. intros [A B].
  Z.div_mod_to_equations. lia.
Qed.

(** The fields of a datetime are those of a calendar day and a time of
    day. *)
Lemma datetime_fields t :
  Datetime.in_range t = true ->
  Datetime.ymd2ord (Date.year t) (Date.month t) (Date.day t)
  = Ok (Date.toordinal t)
  /\ 1 <= Date.year t <= 9999 /\ 1 <= Date.month t <= 12
  /\ 1 <= Date.day t <= 31
  /\ 0 <= Datetime.hour t <= 23 /\ 0 <= Datetime.minute t <= 59.
Proof.
  intros R. pose proof (toordinal_range t R) as O.
  pose proof (ymd2ord_ord2ymd _ O) as E.
  fold (Date.year t) (Date.month t) (Date.day t) in E.
  split; [exact E|].
  destruct (ymd2ord_fields _ _ _ _ E) as (Y & M & D).
  repeat split; try lia;
    unfold Datetime.hour, Datetime.minute, Datetime.us_per_day,
      Datetime.us_per_hour, Datetime.us_per_minute;
    Z.div_mod_to_equations; lia.
Qed.

Lemma combine_fields t :
  Datetime.combine (Date.toordinal t) (Datetime.hour t) (Datetime.minute t)
  = t - t mod Datetime.us_per_minute.
Proof.
  unfold Datetime.combine, Date.toordinal, Datetime.hour, Datetime.minute,
    Datetime.us_per_day, Datetime.us_per_hour, Datetime.us_per_minute.
  Z.div_mod_to_equations. lia.
Qed.


Ltac year_digits y :=
  let D1 := fresh in let D2 := fresh in let D3 := fresh in let D4 := fresh in
  assert (D1 : 0 <= y / 1000 <= 9) by (Z.div_mod_to_equations; lia);
  assert (D2 : 0 <= y / 100 mod 10 <= 9) by (Z.div_mod_to_equations; lia);
  assert (D3 : 0 <= y / 10 mod 10 <= 9) by (Z.div_mod_to_equations; lia);
  assert (D4 : 0 <= y mod 10 <= 9) by (Z.div_mod_to_equations; lia);
  destruct (digit_char_digit _ D1) as [-> ->];
  destruct (digit_char_digit _ D2) as [-> ->];
  destruct (digit_char_digit _ D3) as [-> ->];
  destruct (digit_char_digit _ D4) as [-> ->];
  replace (1000 * (y / 1000) + 100 * (y / 100 mod 10) + 10 * (y / 10 mod 10)
           + y mod 10) with y by (Z.div_mod_to_equations; lia).

(** A slot written with [%Y-%m-%d %H:%M] is read back with the same format
    as the minute it lies in. *)
Lemma strptime_datetime_strftime t :
  Datetime.in_range t = true -> 1000 <= Date.year t ->
  strptime_datetime (strftime_YmdHM t) = Ok (t - t mod Datetime.us_per_minute).
Proof.
  intros R Y. destruct (datetime_fields t R) as (E & Y' & M & D & H & Mi).
  unfold strftime_YmdHM, strftime_Ymd, strftime_HM.
  rewrite str_nonneg_year by lia.
  rewrite !append_assoc. cbn [String.append].
  unfold strptime_datetime.
  year_digits (Date.year t). cbn [andb].
  rewrite match_month_two_digits by lia.
  rewrite match_day_two_digits by lia.
  cbn [match_spaces]. change (Py.is_space " ") with true. cbv iota.
  rewrite lstrip_two_digits by lia.
  rewrite match_hour_two_digits by lia.
  change (two_digits (Datetime.minute t))
    with (two_digits (Datetime.minute t) ++ EmptyString)%string.
  rewrite match_minute_two_digits by lia.
  rewrite E. cbn [bind]. now rewrite combine_fields.
Qed.

(** ** A date followed by a time of day *)

Lemma dash_case {A : Type} (c : ascii) (a b : A) :
  match c with
  | "-"%char => a
  | _ => b
  end = if Ascii.eqb c "-" then a else b.
Proof. destruct c as [[] [] [] [] [] [] [] []]; reflexivity. Qed.

Ltac split_conditions H :=
  repeat match type of H with
    | context [if ?c then _ else _] => destruct c eqn:?
    end; try discriminate.

(** What follows the month is left for the day. *)
Lemma match_month_app s m r t :
  match_month s = Some (m, r) ->
  match_month (s ++ t) = Some (m, (r ++ t)%string).
Proof.
  destruct s as [|c1 [|c2 [|c3 s3]]]; cbn [String.append]; unfold match_month.
  - discriminate.
  - discriminate.
  - rewrite !dash_case. intros H.
    destruct (Ascii.eqb_spec c2 "-") as [->|]; [|discriminate].
    destruct (in_chars "1" "9" c1) eqn:C; [|discriminate].
    injection H as <- <-.
    change (in_chars "0" "2" "-") with false.
    change (in_chars "1" "9" "-") with false.
    rewrite !andb_false_r. cbn [Ascii.eqb Bool.eqb].
    destruct t as [|c t]; [reflexivity|]. rewrite dash_case.
    destruct (Ascii.eqb c "-"); reflexivity.
  - rewrite !dash_case. intros H. split_conditions H;
      injection H as <- <-; reflexivity.
Qed.

(** A day that ends the text is the same day before a space. *)
Lemma match_day_app s d t :
  match_day s = Some (d, EmptyString) ->
  match_day (s ++ String " " t) = Some (d, String " " t).
Proof.
  destruct s as [|c1 [|c2 [|c3 s3]]]; cbn [String.append]; unfold match_day.
  - discriminate.
  - intros H. split_conditions H. injection H as <-.
    change (in_chars "0" "1" " ") with false.
    change (in_chars "1" "9" " ") with false.
    change (is_digit " ") with false.
    rewrite !andb_false_r. reflexivity.
  - intros H. split_conditions H; injection H as <-; reflexivity.
  - intros H. split_conditions H; injection H as <-; discriminate.
Qed.

(** A date that [strptime] reads, followed by a space and a time of day
    written with two digits each, is read as that time of that day. *)
Lemma strptime_datetime_canonical date day h m :
  strptime_date date = Ok day -> 0 <= h <= 23 -> 0 <= m <= 59 ->
  strptime_datetime (canonical date h m) = Ok (Datetime.combine day h m).
Proof.
  intros P H M. unfold canonical.
  destruct date as [|y1 [|y2 [|y3 [|y4 [|c5 rest]]]]]; try discriminate.
  unfold strptime_date in P. unfold strptime_datetime.
  cbn [String.append]. rewrite dash_case in P. rewrite dash_case.
  destruct (Ascii.eqb c5 "-"); [|discriminate].
  destruct (is_digit y1 && is_digit y2 && is_digit y3 && is_digit y4);
    [|discriminate].
  destruct (match_month rest) as [[mo rest1]|] eqn:Mo; [|discriminate].
  rewrite (match_month_app _ _ _ _ Mo).
  destruct (match_day rest1) as [[d rest2]|] eqn:D; [|discriminate].
  destruct rest2; [|discriminate].
  rewrite (match_day_app _ _ _ D).
  cbn [match_spaces]. change (Py.is_space " ") with true. cbv iota.
  rewrite lstrip_two_digits by lia.
  rewrite match_hour_two_digits by lia.
  change (two_digits m) with (two_digits m ++ EmptyString)%string.
  rewrite match_minute_two_digits by lia.
  rewrite P. reflexivity.
Qed.

(** * Further properties of the availability calculator *)

(** The loop looks at the busy intervals only through the test of the
    slots it visits. *)
Lemma scan_slots_congruence d busy busy' time_max fuel : forall s acc,
  (forall x, s <= x -> x + minutes d <= time_max ->
     is_free x (x + minutes d) busy = is_free x (x + minutes d) busy') ->
  scan_slots fuel d busy time_max s acc = scan_slots fuel d busy' time_max s acc.
Proof.
  induction fuel as [|fuel IH]; intros s acc H; [reflexivity|].
  cbn [scan_slots]. unfold Datetime.timedelta_minutes, Datetime.add.
  fold (minutes d).
  destruct (Z.abs (d / 1440) <=? 999999999); [|reflexivity].
  destruct (Datetime.in_range (s + minutes d)); [|reflexivity].
  destruct (s + minutes d <=? time_max) eqn:C; [|reflexivity].
  apply Z.leb_le in C. rewrite <- (H s) by lia.
  destruct (Datetime.in_range (s + 30 * Datetime.us_per_minute)); [|reflexivity].
  apply IH. intros x X1 X2. apply H; [|assumption].
  unfold Datetime.us_per_minute in X1. lia.
Qed.

Lemma find_available_slots_from d date events :
  find_available_slots d date (Ok events)
  = match strptime_date date, busy_slots_of events with
    | Ok day, Ok busy => slots_from d date day busy
    | _, _ => Error
    end.
Proof.
  destruct (strptime_date date) as [day|e] eqn:P.
  - destruct (busy_slots_of events) as [busy|e] eqn:B.
    + apply find_available_slots_run; assumption.
    + unfold find_available_slots. rewrite P. cbn [bind]. rewrite B. reflexivity.
  - unfold find_available_slots. rewrite P. reflexivity.
Qed.

Lemma slots_from_congruence d date day busy busy' :
  (forall x, time_min_of day <= x -> x + minutes d <= time_max_of day ->
     is_free x (x + minutes d) busy = is_free x (x + minutes d) busy') ->
  slots_from d date day busy = slots_from d date day busy'.
Proof.
  intros H. unfold slots_from.
  now rewrite (scan_slots_congruence d busy busy' _ _ _ _ H).
Qed.

(** A success comes from a date that is read, events that are read, and
    the accepted positions. *)
Lemma success_inversion d date events date' d' slots :
  find_available_slots d date (Ok events) = Success date' d' slots ->
  exists day busy,
    strptime_date date = Ok day /\ busy_slots_of events = Ok busy
    /\ slots = firstn 6 (accepted busy d (time_min_of day)).
Proof.
  intros H. pose proof H as H'. rewrite find_available_slots_from in H'.
  destruct (strptime_date date) as [day|] eqn:P; [|discriminate].
  destruct (busy_slots_of events) as [busy|] eqn:B; [|discriminate].
  exists day, busy. repeat split.
  now destruct (find_available_slots_success _ _ _ _ _ _ _ _ P B H)
    as (_ & _ & _ & ->).
Qed.

(** X1. The overlap test of line 113 holds exactly when the two half-open
    intervals have an instant in common. *)
Theorem overlap_is_common_instant slot_start slot_end busy_start busy_end :
  overlaps slot_start slot_end busy_start busy_end = true
  <-> exists t, slot_start <= t < slot_end /\ busy_start <= t < busy_end.
Proof.
  unfold overlaps. rewrite Z.ltb_lt. split.
  - intros H. exists (Z.max slot_start busy_start). lia.
  - intros (t & A & B). lia.
Qed.

Lemma busy_slots_of_untimed events1 ev events2 :
  ev_start ev = Absent \/ ev_end ev = Absent ->
  busy_slots_of (events1 ++ ev :: events2) = busy_slots_of (events1 ++ events2).
Proof.
  intros U. induction events1 as [|e r IH]; cbn [app busy_slots_of].
  - destruct U as [-> | U]; [reflexivity|]. rewrite U.
    destruct (ev_start ev); reflexivity.
  - now rewrite IH.
Qed.

(** X3. An event without a timed start or without a timed end (an all-day
    event) is skipped: the result is the one of the calendar without it,
    wherever it stands in the list. *)
Theorem untimed_events_ignored d date events1 ev events2 :
  ev_start ev = Absent \/ ev_end ev = Absent ->
  find_available_slots d date (Ok (events1 ++ ev :: events2))
  = find_available_slots d date (Ok (events1 ++ events2)).
Proof.
  intros U. rewrite !find_available_slots_from.
  now rewrite (busy_slots_of_untimed _ _ _ U).
Qed.

Lemma busy_slots_of_permutation events events' :
  Permutation events events' ->
  match busy_slots_of events, busy_slots_of events' with
  | Ok busy, Ok busy' => Permutation busy busy'
  | Raise _, Raise _ => True
  | _, _ => False
  end.
Proof.
  induction 1 as [|ev l l' P IH|a b l|l1 l2 l3 P12 IH12 P23 IH23].
  - constructor.
  - cbn [busy_slots_of].
    destruct (ev_start ev), (ev_end ev); try exact IH;
      destruct (busy_slots_of l), (busy_slots_of l'); cbn [bind];
      try exact I; try contradiction.
    now constructor.
  - cbn [busy_slots_of].
    destruct (ev_start a), (ev_end a), (ev_start b), (ev_end b);
      destruct (busy_slots_of l); cbn [bind];
      try exact I; try apply Permutation_refl.
    apply perm_swap.
  - destruct (busy_slots_of l1), (busy_slots_of l2), (busy_slots_of l3);
      try exact I; try contradiction.
    eapply Permutation_trans; eassumption.
Qed.

Lemma is_free_permutation s e busy busy' :
  Permutation busy busy' -> is_free s e busy = is_free s e busy'.
Proof.
  induction 1 as [|[bs be] l l' P IH|[bs be] [bs' be'] l|l1 l2 l3 P12 IH12 P23 IH23].
  - reflexivity.
  - cbn [is_free]. now rewrite IH.
  - cbn [is_free]. destruct (overlaps s e bs be), (overlaps s e bs' be'); reflexivity.
  - congruence.
Qed.

Lemma find_available_slots_permutation d date events events' :
  Permutation events events' ->
  find_available_slots d date (Ok events)
  = find_available_slots d date (Ok events').
Proof.
  intros P. rewrite !find_available_slots_from.
  destruct (strptime_date date) as [day|]; [|reflexivity].
  pose proof (busy_slots_of_permutation _ _ P) as B.
  destruct (busy_slots_of events) as [busy|], (busy_slots_of events') as [busy'|];
    try contradiction; [|reflexivity].
  apply slots_from_congruence. intros x _ _. now apply is_free_permutation.
Qed.

(** X4. When every timed event of the day can be read, the order in which
    the calendar lists the events does not matter: the events in any other
    order are read as the same busy intervals, in that order, and the
    result is the same. *)
Theorem event_order_irrelevant d date events events' busy :
  busy_slots_of events = Ok busy ->
  Permutation events events' ->
  exists busy',
    busy_slots_of events' = Ok busy' /\ Permutation busy busy'
    /\ find_available_slots d date (Ok events)
       = find_available_slots d date (Ok events').
Proof.
  intros B P. pose proof (busy_slots_of_permutation _ _ P) as Q.
  rewrite B in Q. destruct (busy_slots_of events') as [busy'|]; [|contradiction].
  exists busy'. split; [reflexivity|]. split; [exact Q|].
  now apply find_available_slots_permutation.
Qed.

(** X5. A timed event that ends by 09:00, starts at 17:00 or later, or
    ends no later than it starts, blocks nothing: the result is the one of
    the calendar without it. *)
Theorem events_outside_window_ignored d date day events1 events2 bs be :
  strptime_date date = Ok day ->
  be <= time_min_of day \/ time_max_of day <= bs \/ be <= bs ->
  find_available_slots d date
    (Ok (events1 ++ {| ev_start := Instant bs; ev_end := Instant be |} :: events2))
  = find_available_slots d date (Ok (events1 ++ events2)).
Proof.
  intros P O.
  rewrite <- (find_available_slots_permutation d date _ _
                (Permutation_middle events1 events2 _)).
  rewrite !find_available_slots_from, P. cbn [busy_slots_of ev_start ev_end].
  destruct (busy_slots_of (events1 ++ events2)) as [busy|]; [|reflexivity].
  cbn [bind]. apply slots_from_congruence. intros x A B.
  cbn [is_free]. unfold overlaps.
  replace (Z.max x bs <? Z.min (x + minutes d) be) with false; [reflexivity|].
  symmetry. apply Z.ltb_ge. lia.
Qed.

Lemma busy_slots_of_malformed events ev :
  In ev events ->
  (ev_start ev = Malformed /\ ev_end ev <> Absent)
  \/ ((exists s, ev_start ev = Instant s) /\ ev_end ev = Malformed) ->
  busy_slots_of events = Raise ValueError.
Proof.
  intros I M. induction events as [|e r IH]; [destruct I|].
  cbn [busy_slots_of]. destruct I as [->|I].
  - destruct M as [[-> N]|[[s ->] ->]]; [|reflexivity].
    destruct (ev_end ev); [contradiction|reflexivity|reflexivity].
  - rewrite (IH I). destruct (ev_start e), (ev_end e); reflexivity.
Qed.

(** X6. One timed event whose start or end is not an ISO date and time
    makes the whole request fail: the result has status [error], whatever
    the duration, the date and the other events. *)
Theorem malformed_event_is_error d date events ev :
  In ev events ->
  (ev_start ev = Malformed /\ ev_end ev <> Absent)
  \/ ((exists s, ev_start ev = Instant s) /\ ev_end ev = Malformed) ->
  find_available_slots d date (Ok events) = Error.
Proof.
  intros I M. rewrite find_available_slots_from.
  rewrite (busy_slots_of_malformed _ _ I M).
  destruct (strptime_date date); reflexivity.
Qed.

(** X7. A meeting longer than the eight hours of the window has no slot,
    however empty the calendar is: the result has status [no_slots]. *)
Theorem long_duration_no_slots d date events day busy :
  strptime_date date = Ok day -> busy_slots_of events = Ok busy ->
  480 < d -> Datetime.in_range (time_min_of day + minutes d) = true ->
  find_available_slots d date (Ok events) = NoSlots d date.
Proof.
  intros P B D R.
  destruct (window_in_range day (strptime_date_range _ _ P)) as [_ W].
  rewrite (find_available_slots_in_range _ _ _ _ _ P B R).
  - unfold accepted, cursor_positions, cursor_count.
    assert ((480 - d) / 30 < 0) by (apply Z.div_lt_upper_bound; lia).
    replace (Z.to_nat ((480 - d) / 30 + 1)) with O by lia. reflexivity.
  - unfold minutes, Datetime.us_per_minute in *. lia.
Qed.

(** * The texts of a slot *)

(** X8. A date written with [%Y-%m-%d], as [main.py] writes today's date
    into the prompt, is read by [find_available_slots] as the same day,
    from the year 1000 on. *)
Theorem strftime_date_read_back t :
  Datetime.in_range t = true -> 1000 <= Date.year t ->
  strptime_date (strftime_Ymd t) = Ok (Date.toordinal t).
Proof.
  intros R Y. destruct (datetime_fields t R) as (E & Y' & M & D & _).
  unfold strftime_Ymd. rewrite str_nonneg_year by lia.
  cbn [String.append]. unfold strptime_date.
  year_digits (Date.year t). cbn [andb].
  rewrite match_month_two_digits by lia.
  change (two_digits (Date.day t))
    with (two_digits (Date.day t) ++ EmptyString)%string.
  rewrite match_day_two_digits by lia. exact E.
Qed.

Lemma hour_minute_range t :
  0 <= Datetime.hour t <= 23 /\ 0 <= Datetime.minute t <= 59.
Proof.
  unfold Datetime.hour, Datetime.minute, Datetime.us_per_day,
    Datetime.us_per_hour, Datetime.us_per_minute.
  split; Z.div_mod_to_equations; lia.
Qed.

(** The 12-hour text of a time of day is a well-formed expression. *)
Lemma strftime_IMp_clock_text t :
  let h := Datetime.hour t in
  let h12 := if h mod 12 =? 0 then 12 else h mod 12 in
  let p := if h <? 12 then AM else PM in
  strftime_IMp t
  = clock_text (two_digits h12) (Datetime.minute t) " "
      (if h <? 12 then "AM" else "PM")
  /\ 1 <= h12 <= 12 /\ to_24hour h12 p = h
  /\ In (two_digits h12) (hour_texts h12).
Proof.
  cbv zeta. destruct (hour_minute_range t) as [H _].
  set (h := Datetime.hour t) in *. split; [|split; [|split]].
  - unfold strftime_IMp, clock_text. fold h.
    destruct (h <? 12); reflexivity.
  - destruct (Z.eqb_spec (h mod 12) 0); Z.div_mod_to_equations; lia.
  - unfold to_24hour.
    destruct (Z.ltb_spec h 12), (Z.eqb_spec (h mod 12) 0);
      cbn [Z.eqb Pos.eqb];
      repeat match goal with
        | |- context [?x =? 12] => destruct (Z.eqb_spec x 12)
        end; Z.div_mod_to_equations; lia.
  - unfold hour_texts.
    destruct (_ <? 10); cbn [In]; auto.
Qed.

(** The normalizer reads the 12-hour text of an instant as its 24-hour
    text. *)
Lemma slot_time_normalized t date :
  parse_time_to_24hour (strftime_IMp t) date
  = Some (date ++ " " ++ strftime_HM t)%string.
Proof.
  destruct (strftime_IMp_clock_text t) as (E & H & T & I).
  destruct (hour_minute_range t) as [_ M].
  rewrite E.
  rewrite (parse_12hour _ (Datetime.minute t)
             (if Datetime.hour t <? 12 then AM else PM)
             _ " " _ date H M I).
  - rewrite T. reflexivity.
  - cbn; auto.
  - destruct (_ <? 12); cbn; auto.
Qed.

(** X9. The three texts of a slot agree: the normalizer of [main.py],
    given the 12-hour ["time"] of a slot and its date, returns the slot's
    ["datetime"], whose time of day is the slot's ["time_24h"]. *)
Theorem slot_time_normalizes_to_datetime slot_start date :
  parse_time_to_24hour (slot_time (slot_entry_of slot_start)) date
  = Some (date ++ " " ++ slot_time_24h (slot_entry_of slot_start))%string
  /\ parse_time_to_24hour (slot_time (slot_entry_of slot_start))
       (strftime_Ymd slot_start)
     = Some (slot_datetime (slot_entry_of slot_start)).
Proof.
  cbn [slot_time slot_time_24h slot_datetime slot_entry_of].
  split; [|unfold strftime_YmdHM]; apply slot_time_normalized.
Qed.

(** * From an offered slot to a meeting *)

Lemma firstn_seq_bound a : forall start n k,
  In k (firstn a (seq start n)) -> (start <= k < start + a)%nat.
Proof.
  induction a as [|a IH]; intros start n k H; [destruct H|].
  destruct n as [|n]; [destruct H|]. cbn [seq firstn] in H.
  destruct H as [<-|H]; [lia|]. apply IH in H. lia.
Qed.

(** An offered slot starts within the working window. *)
Lemma offered_slot_in_window busy d t s :
  In s (firstn 6 (accepted busy d t)) -> t <= s <= t + minutes 480.
Proof.
  intros I. destruct (Z.le_gt_cases d 0) as [D|D].
  - rewrite accepted_nonpositive in I by assumption.
    unfold cursor_positions in I. rewrite firstn_map in I.
    destruct (proj1 (in_map_iff _ _ _) I) as (k & <- & K).
    apply firstn_seq_bound in K. unfold minutes, Datetime.us_per_minute. lia.
  - assert (C : In s (accepted busy d t)).
    { rewrite <- (firstn_skipn 6). apply in_or_app. now left. }
    unfold accepted in C. apply filter_In in C as [C _].
    apply cursor_positions_in_window in C.
    unfold minutes, Datetime.us_per_minute in *. lia.
Qed.

(** What a success tells about one of its slots. *)
Lemma offered_slot d date events day date' d' slots s :
  strptime_date date = Ok day ->
  find_available_slots d date (Ok events) = Success date' d' slots ->
  In s slots ->
  (time_min_of day <= s <= time_max_of day)
  /\ s + minutes d <= time_max_of day
  /\ (exists k, 0 <= k /\ s = time_min_of day + minutes (30 * k))
  /\ Datetime.in_range s = true
  /\ Datetime.in_range (s + minutes d) = true.
Proof.
  intros P H I.
  destruct (success_inversion _ _ _ _ _ _ H) as (day' & busy & P' & _ & ->).
  rewrite P in P'. injection P' as <-.
  pose proof (offered_slot_in_window _ _ _ _ I) as W.
  rewrite <- window_length in W.
  assert (C : In s (accepted busy d (time_min_of day))).
  { rewrite <- (firstn_skipn 6). apply in_or_app. now left. }
  unfold accepted in C. apply filter_In in C as [C _].
  destruct (cursor_positions_in_window _ _ _ C) as [A B].
  rewrite <- window_length in B.
  destruct (window_in_range day (strptime_date_range _ _ P)) as [W1 W2].
  assert (R : Datetime.in_range (time_min_of day + minutes d) = true).
  { destruct (Datetime.in_range (time_min_of day + minutes d)) eqn:R;
      [reflexivity|].
    rewrite (find_available_slots_out_of_range _ _ _ _ P R) in H.
    discriminate. }
  unfold Datetime.in_range in *.
  rewrite !andb_true_iff, !Z.leb_le, !Z.ltb_lt in *.
  unfold minutes, Datetime.us_per_minute in *.
  repeat split; try lia.
  unfold cursor_positions in C.
  destruct (proj1 (in_map_iff _ _ _) C) as (k & <- & _).
  exists (Z.of_nat k). unfold Datetime.us_per_minute. split; lia.
Qed.

(** X2. Every slot of a success lies in the working window of the day
    asked for: it starts between 09:00 and 17:00, on a multiple of 30
    minutes from 09:00, and it ends by 17:00. *)
Theorem slots_within_working_hours d date events day date' d' slots s :
  strptime_date date = Ok day ->
  find_available_slots d date (Ok events) = Success date' d' slots ->
  In s slots ->
  (time_min_of day <= s <= time_max_of day)
  /\ s + minutes d <= time_max_of day
  /\ exists k, 0 <= k /\ s = time_min_of day + minutes (30 * k).
Proof.
  intros P H I.
  destruct (offered_slot _ _ _ _ _ _ _ _ P H I) as (A & B & C & _).
  auto.
Qed.

Lemma minute_boundary day k :
  (time_min_of day + minutes (30 * k)) mod Datetime.us_per_minute = 0.
Proof.
  unfold time_min_of, Datetime.combine, minutes, Datetime.us_per_day,
    Datetime.us_per_hour, Datetime.us_per_minute.
  Z.div_mod_to_equations. lia.
Qed.

(** The ["datetime"] text of an offered slot is read by [schedule_meeting]
    as the start of the slot. *)
Lemma offered_slot_read_back d date events day date' d' slots s :
  strptime_date date = Ok day ->
  find_available_slots d date (Ok events) = Success date' d' slots ->
  In s slots -> 1000 <= Date.year s ->
  strptime_datetime (slot_datetime (slot_entry_of s)) = Ok s.
Proof.
  intros P H I Y.
  destruct (offered_slot _ _ _ _ _ _ _ _ P H I) as (_ & _ & (k & _ & E) & R & _).
  cbn [slot_datetime slot_entry_of].
  rewrite strptime_datetime_strftime by assumption.
  assert (B : s mod Datetime.us_per_minute = 0)
    by (rewrite E; apply minute_boundary).
  rewrite B, Z.sub_0_r. reflexivity.
Qed.

Section ScheduleProperties.

Variable Calendar : Type.
Variable get_calendar_service : Calendar -> res unit * Calendar.
Variable insert_event :
  event_body -> Calendar -> res (list (string * json)) * Calendar.

Local Abbreviation schedule :=
  (schedule_meeting Calendar get_calendar_service insert_event).

(** X10. A success means that one event was inserted: it starts at the
    instant the text of the start denotes and ends the duration later,
    whatever the sign of the duration and whatever the calendar holds; the
    details of the result name the same two instants. *)
Theorem scheduled_meeting_span title d start description c
    message event_id event_link details c' :
  schedule title d start description c
  = (Scheduled message event_id event_link details, c') ->
  exists start_dt c1 created,
    strptime_datetime start = Ok start_dt
    /\ Datetime.in_range (start_dt + minutes d) = true
    /\ get_calendar_service c = (Ok tt, c1)
    /\ insert_event
         {| body_summary := title; body_description := description;
            body_start := isoformat start_dt;
            body_end := isoformat (start_dt + minutes d) |} c1
       = (Ok created, c')
    /\ details_start_time details = strftime_YmdIMp start_dt
    /\ details_end_time details = strftime_YmdIMp (start_dt + minutes d).
Proof.
  unfold schedule_meeting, meeting_span.
  destruct (get_calendar_service c) as [[[]|e] c1]; [|destruct e; discriminate].
  destruct (strptime_datetime start) as [start_dt|e]; cbn [bind];
    [|destruct e; discriminate].
  unfold Datetime.timedelta_minutes.
  destruct (Z.abs (d / 1440) <=? 999999999); cbn [bind]; [|discriminate].
  unfold Datetime.add. fold (minutes d).
  destruct (Datetime.in_range (start_dt + minutes d)) eqn:R; cbn [bind];
    [|discriminate].
  destruct (insert_event _ c1) as [[created|e] c2] eqn:I;
    [|destruct e; discriminate].
  intros [= <- <- <- <- <-]. exists start_dt, c1, created.
  repeat split; try reflexivity; assumption.
Qed.

(** X11. A start that is not a date and a time of the form
    [YYYY-MM-DD HH:MM], or an end outside the calendar, is refused before
    anything is inserted: the result is an error and the calendar is as
    [get_calendar_service] left it. *)
Theorem unreadable_start_inserts_nothing title d start description c e :
  meeting_span d start = Raise e ->
  exists http,
    schedule title d start description c
    = (NotScheduled http, snd (get_calendar_service c)).
Proof.
  intros M. unfold schedule_meeting. rewrite M.
  destruct (get_calendar_service c) as [[[]|e'] c1]; cbn [snd].
  - destruct e; eauto.
  - destruct e'; eauto.
Qed.

End ScheduleProperties.

(** X12. A slot that [find_available_slots] offers can be booked as it is
    written: [schedule_meeting], given the ["datetime"] text of the slot
    and the same duration, inserts one event that starts at the slot and
    ends the duration later (on a calendar that accepts the insertion,
    from the year 1000 on). *)
Theorem offered_slot_is_scheduled d date events day date' d' slots s
    title description c :
  strptime_date date = Ok day ->
  find_available_slots d date (Ok events) = Success date' d' slots ->
  In s slots -> 1000 <= Date.year s ->
  exists message event_id event_link details,
    schedule_meeting (list event_body) recording_service recording_insert
      title d (slot_datetime (slot_entry_of s)) description c
    = (Scheduled message event_id event_link details,
       c ++ [{| body_summary := title; body_description := description;
                body_start := isoformat s;
                body_end := isoformat (s + minutes d) |}]).
Proof.
  intros P H I Y.
  destruct (offered_slot _ _ _ _ _ _ _ _ P H I) as (_ & _ & _ & R & R').
  unfold schedule_meeting, meeting_span, recording_service.
  rewrite (offered_slot_read_back _ _ _ _ _ _ _ _ P H I Y). cbn [bind].
  rewrite (timedelta_in_range d s R R'). cbn [bind].
  unfold Datetime.add. rewrite R'. cbn [bind recording_insert].
  eexists _, _, _, _. reflexivity.
Qed.

Lemma well_formed_times_in_range :
  forallb (fun c => (0 <=? fst (snd c)) && (fst (snd c) <=? 23)
                    && (0 <=? snd (snd c)) && (snd (snd c) <=? 59))
    (well_formed_12hour ++ well_formed_24hour) = true.
Proof. vm_compute. reflexivity. Qed.

Lemma well_formed_times_normalized :
  forallb normalizes (well_formed_12hour ++ well_formed_24hour) = true.
Proof.
  rewrite forallb_app, well_formed_12hour_normalized,
    well_formed_24hour_normalized. reflexivity.
Qed.

(** X13. What the normalizer returns for a well-formed time and a date that
    [strptime] reads is a start that [schedule_meeting] reads, as that time
    of that day. *)
Theorem normalized_time_is_schedulable text h m date day :
  In (text, (h, m)) (well_formed_12hour ++ well_formed_24hour) ->
  strptime_date date = Ok day ->
  exists start,
    parse_time_to_24hour text date = Some start
    /\ strptime_datetime start = Ok (Datetime.combine day h m).
Proof.
  intros I P.
  pose proof (forallb_In _ _ _ well_formed_times_in_range I) as B.
  pose proof (forallb_In _ _ _ well_formed_times_normalized I) as N.
  cbn [fst snd] in B. rewrite !andb_true_iff, !Z.leb_le in B.
  apply option_string_eqb_eq in N. cbn [fst snd] in N.
  exists (canonical date h m). split.
  - rewrite parse_time_date, N. reflexivity.
  - apply strptime_datetime_canonical; [assumption|lia|lia].
Qed.

(** * Runs on the example day *)

(** A run of X2: the first slot offered between the two meetings. *)
Lemma slots_within_working_hours_witness :
  (time_min_of example_day <= at_time 10 30 <= time_max_of example_day)
  /\ at_time 10 30 + minutes 30 <= time_max_of example_day
  /\ exists k, 0 <= k
       /\ at_time 10 30 = time_min_of example_day + minutes (30 * k).
Proof.
  apply (slots_within_working_hours 30 example_date
           [meeting 9 0 10 15; all_day_event; meeting 11 0 12 0]
           example_day example_date 30
           [at_time 10 30; at_time 12 0; at_time 12 30; at_time 13 0;
            at_time 13 30; at_time 14 0]).
  - reflexivity.
  - vm_compute. reflexivity.
  - left. reflexivity.
Defined.

(** A run of X3: an all-day event between two meetings. *)
Lemma untimed_events_ignored_witness :
  find_available_slots 30 example_date
    (Ok [meeting 9 0 10 15; all_day_event; meeting 11 0 12 0])
  = find_available_slots 30 example_date
      (Ok [meeting 9 0 10 15; meeting 11 0 12 0]).
Proof.
  apply (untimed_events_ignored 30 example_date [meeting 9 0 10 15]
           all_day_event [meeting 11 0 12 0]).
  left. reflexivity.
Defined.

(** A run of X4: the two meetings listed in the other order. *)
Lemma event_order_irrelevant_witness :
  exists busy',
    busy_slots_of [meeting 9 0 10 15; meeting 11 0 12 0] = Ok busy'
    /\ Permutation [(at_time 11 0, at_time 12 0); (at_time 9 0, at_time 10 15)]
         busy'
    /\ find_available_slots 30 example_date
         (Ok [meeting 11 0 12 0; meeting 9 0 10 15])
       = find_available_slots 30 example_date
           (Ok [meeting 9 0 10 15; meeting 11 0 12 0]).
Proof.
  apply (event_order_irrelevant 30 example_date
           [meeting 11 0 12 0; meeting 9 0 10 15]
           [meeting 9 0 10 15; meeting 11 0 12 0]
           [(at_time 11 0, at_time 12 0); (at_time 9 0, at_time 10 15)]).
  - reflexivity.
  - apply perm_swap.
Defined.

(** A run of X5: a meeting from 07:00 to 08:30. *)
Lemma events_outside_window_ignored_witness :
  find_available_slots 30 example_date
    (Ok [meeting 9 0 10 15; meeting 7 0 8 30; meeting 11 0 12 0])
  = find_available_slots 30 example_date
      (Ok [meeting 9 0 10 15; meeting 11 0 12 0]).
Proof.
  apply (events_outside_window_ignored 30 example_date example_day
           [meeting 9 0 10 15] [meeting 11 0 12 0]
           (at_time 7 0) (at_time 8 30)).
  - reflexivity.
  - left. vm_compute. discriminate.
Defined.

(** A run of X6: an event whose start is not an ISO date and time. *)
Lemma malformed_event_is_error_witness :
  find_available_slots 30 example_date
    (Ok [meeting 9 0 10 15;
         {| ev_start := Malformed; ev_end := Instant (at_time 12 0) |}])
  = Error.
Proof.
  apply (malformed_event_is_error 30 example_date _
           {| ev_start := Malformed; ev_end := Instant (at_time 12 0) |}).
  - right. left. reflexivity.
  - left. split; [reflexivity|discriminate].
Defined.

(** A run of X7: a meeting of 500 minutes on an empty day. *)
Lemma long_duration_no_slots_witness :
  find_available_slots 500 example_date (Ok []) = NoSlots 500 example_date.
Proof.
  apply (long_duration_no_slots 500 example_date [] example_day []).
  - reflexivity.
  - reflexivity.
  - lia.
  - vm_compute. reflexivity.
Defined.

(** A run of X8: the example day. *)
Lemma strftime_date_read_back_witness :
  strftime_Ymd (at_time 9 0) = example_date
  /\ strptime_date (strftime_Ymd (at_time 9 0))
     = Ok (Date.toordinal (at_time 9 0)).
Proof.
  split; [reflexivity|].
  apply (strftime_date_read_back (at_time 9 0)).
  - vm_compute. reflexivity.
  - vm_compute. discriminate.
Defined.

(** A run of X10: a half-hour meeting on an empty recording calendar. *)
Lemma scheduled_meeting_span_witness :
  exists start_dt c1 created,
    strptime_datetime "2025-06-24 10:30" = Ok start_dt
    /\ Datetime.in_range (start_dt + minutes 30) = true
    /\ recording_service [] = (Ok tt, c1)
    /\ recording_insert
         {| body_summary := "Team sync"; body_description := EmptyString;
            body_start := isoformat start_dt;
            body_end := isoformat (start_dt + minutes 30) |} c1
       = (Ok created,
          [{| body_summary := "Team sync"; body_description := EmptyString;
              body_start := "2025-06-24T10:30:00";
              body_end := "2025-06-24T11:00:00" |}])
    /\ "2025-06-24 10:30 AM"%string = strftime_YmdIMp start_dt
    /\ "2025-06-24 11:00 AM"%string = strftime_YmdIMp (start_dt + minutes 30).
Proof.
  apply (scheduled_meeting_span (list event_body) recording_service
           recording_insert "Team sync" 30 "2025-06-24 10:30" EmptyString []
           "Meeting 'Team sync' scheduled successfully for Tuesday, June 24 at 10:30 AM"
           (JString "e1") (JString EmptyString)
           {| details_title := "Team sync";
              details_start_time := "2025-06-24 10:30 AM";
              details_end_time := "2025-06-24 11:00 AM";
              details_duration := "30 minutes" |}).
  vm_compute. reflexivity.
Defined.

(** A run of X11: a start in words. *)
Lemma unreadable_start_inserts_nothing_witness :
  exists http,
    schedule_meeting (list event_body) recording_service recording_insert
      "Team sync" 30 "tomorrow at 3" EmptyString []
    = (NotScheduled http, snd (recording_service [])).
Proof.
  apply (unreadable_start_inserts_nothing (list event_body) recording_service
           recording_insert "Team sync" 30 "tomorrow at 3" EmptyString []
           ValueError).
  reflexivity.
Defined.

(** A run of X12: booking the first slot offered between the two
    meetings. *)
Lemma offered_slot_is_scheduled_witness :
  exists message event_id event_link details,
    schedule_meeting (list event_body) recording_service recording_insert
      "Team sync" 30 (slot_datetime (slot_entry_of (at_time 10 30)))
      EmptyString []
    = (Scheduled message event_id event_link details,
       [] ++ [{| body_summary := "Team sync"; body_description := EmptyString;
                 body_start := isoformat (at_time 10 30);
                 body_end := isoformat (at_time 10 30 + minutes 30) |}]).
Proof.
  apply (offered_slot_is_scheduled 30 example_date
           [meeting 9 0 10 15; all_day_event; meeting 11 0 12 0]
           example_day example_date 30
           [at_time 10 30; at_time 12 0; at_time 12 30; at_time 13 0;
            at_time 13 30; at_time 14 0]).
  - reflexivity.
  - vm_compute. reflexivity.
  - left. reflexivity.
  - vm_compute. discriminate.
Defined.

(** A run of X13: one o'clock in the morning. *)
Lemma normalized_time_is_schedulable_witness :
  exists start,
    parse_time_to_24hour "1:00AM" example_date = Some start
    /\ strptime_datetime start = Ok (Datetime.combine example_day 1 0).
Proof.
  apply (normalized_time_is_schedulable "1:00AM" 1 0 example_date example_day).
  - apply in_or_app. left. hnf. left. reflexivity.
  - reflexivity.
Defined.

(** * The listing of upcoming events *)

Lemma upcoming_entries_map events : forall entries,
  upcoming_entries events = Some entries
  <-> map upcoming_entry events = map Some entries.
Proof.
  induction events as [|ev r IH]; intros entries; cbn [upcoming_entries map].
  - split.
    + intros [= <-]. reflexivity.
    + destruct entries; [reflexivity|discriminate].
  - destruct (upcoming_entry ev) as [entry|].
    + destruct (upcoming_entries r) as [l|].
      * split.
        -- intros [= <-]. cbn [map]. f_equal. now apply IH.
        -- destruct entries as [|x entries]; [discriminate|].
           cbn [map]. intros [= <- H]. apply IH in H. congruence.
      * split; [discriminate|].
        destruct entries as [|x entries]; [discriminate|].
        cbn [map]. intros [= <- H]. apply IH in H. discriminate.
    + split; [discriminate|].
      destruct entries; discriminate.
Qed.

(** The entry of an event, from what the event holds. *)
Lemma upcoming_entry_some event entry :
  upcoming_entry event = Some entry
  <-> exists e s,
        event = JObject e /\ Json.dict_get "start" e = Some (JObject s)
        /\ entry
           = (match Json.dict_get "summary" e with
              | Some title => title
              | None => JString "No Title"
              end,
              match Json.dict_get "dateTime" s with
              | Some start => start
              | None => match Json.dict_get "date" s with
                        | Some start => start
                        | None => JNull
                        end
              end,
              match Json.dict_get "id" e with
              | Some id => id
              | None => JNull
              end).
Proof.
  unfold upcoming_entry, dict_get_default. split.
  - destruct event as [| | | | | |e]; try discriminate.
    destruct (Json.dict_get "start" e) as [[| | | | | |s]|] eqn:S;
      try discriminate.
    intros [= <-]. exists e, s. auto.
  - intros (e & s & -> & -> & ->). reflexivity.
Qed.

(** X14. [get_upcoming_events] answers a success exactly when every event
    listed is an object with an object under ["start"]. The success then
    holds one entry for each event, in the order of the listing: the title
    is the ["summary"] of the event, or [No Title] when it has none; the
    start is the ["dateTime"] of its start, or else the ["date"], or else
    null; the id is its ["id"], or null when it has none. *)
Theorem upcoming_events_all_or_nothing events entries :
  get_upcoming_events (Ok events) = Upcoming entries
  <-> Forall2
        (fun event entry =>
           exists e s,
             event = JObject e /\ Json.dict_get "start" e = Some (JObject s)
             /\ entry
                = (match Json.dict_get "summary" e with
                   | Some title => title
                   | None => JString "No Title"
                   end,
                   match Json.dict_get "dateTime" s with
                   | Some start => start
                   | None => match Json.dict_get "date" s with
                             | Some start => start
                             | None => JNull
                             end
                   end,
                   match Json.dict_get "id" e with
                   | Some id => id
                   | None => JNull
                   end))
        events entries.
Proof.
  assert (U : get_upcoming_events (Ok events) = Upcoming entries
              <-> map upcoming_entry events = map Some entries).
  { rewrite <- upcoming_entries_map. unfold get_upcoming_events.
    destruct (upcoming_entries events) as [l|]; split;
      congruence || discriminate. }
  rewrite U. clear U. revert entries.
  induction events as [|event events IH]; intros [|entry entries]; cbn [map].
  - split; [constructor|reflexivity].
  - split; [discriminate|]. intros H. inversion H.
  - split; [discriminate|]. intros H. inversion H.
  - split.
    + intros [= E H]. constructor; [now apply upcoming_entry_some|now apply IH].
    + intros H. inversion H as [|? ? ? ? E F]; subst.
      apply upcoming_entry_some in E. apply IH in F. congruence.
Qed.

(** X15. One listed event that has no ["start"], or whose ["start"] is not
    an object, turns the whole listing into an error: the events before it
    and after it are not reported. *)
Theorem upcoming_event_without_start events ev :
  In ev events ->
  (forall s, getitem ev "start" <> Ok (JObject s)) ->
  get_upcoming_events (Ok events) = UpcomingError.
Proof.
  intros I N. unfold get_upcoming_events.
  destruct (upcoming_entries events) as [entries|] eqn:E; [|reflexivity].
  apply upcoming_entries_map in E.
  assert (U : upcoming_entry ev = None).
  { unfold upcoming_entry. unfold getitem in N.
    destruct ev as [| | | | | |e]; try reflexivity.
    destruct (Json.dict_get "start" e) as [[| | | | | |s]|]; try reflexivity.
    now elim (N s). }
  assert (M : In (upcoming_entry ev) (map upcoming_entry events))
    by now apply in_map.
  rewrite E, U in M. apply in_map_iff in M as (x & X & _). discriminate.
Qed.

(** * The calendar service *)

(** X16. A service is returned only after the connection test has
    succeeded, and only with credentials that are the valid ones of
    [token.json], used without any other step, or credentials just
    refreshed or just obtained in the browser and written to [token.json]
    before the service is built. *)
Theorem service_after_connection_test env creds trace :
  get_calendar_service env = (Service creds, trace) ->
  build env creds = Ok tt /\ test_connection env = Ok tt
  /\ ((token_json env = Some (Ok creds) /\ creds_valid creds = true
       /\ trace = [Build; TestConnection])
      \/ (save_token env creds = Ok tt
          /\ exists step,
               trace = [step; SaveToken creds; Build; TestConnection]
               /\ ((step = Refresh
                    /\ exists stored, token_json env = Some (Ok stored)
                         /\ creds_valid stored = false
                         /\ refresh env stored = Ok creds)
                   \/ (step = BrowserLogin /\ credentials_json env = true
                       /\ browser_login env = Ok creds)))).
Proof.
  assert (C : forall c done,
    connect env c done = (Service creds, trace) ->
    c = creds /\ build env creds = Ok tt /\ test_connection env = Ok tt
    /\ trace = done ++ [Build; TestConnection]).
  { intros c done. unfold connect.
    destruct (build env c) as [[]|] eqn:B; [|discriminate].
    destruct (test_connection env) as [[]|]; [|discriminate].
    intros [= -> <-]. auto. }
  assert (S : forall c done,
    save_and_connect env c done = (Service creds, trace) ->
    c = creds /\ build env creds = Ok tt /\ test_connection env = Ok tt
    /\ save_token env creds = Ok tt
    /\ trace = done ++ [SaveToken creds; Build; TestConnection]).
  { intros c done. unfold save_and_connect.
    destruct (save_token env c) as [[]|] eqn:W; [|discriminate].
    intros H. apply C in H as (-> & B & T & ->).
    rewrite <- app_assoc. auto. }
  assert (L : log_in env = (Service creds, trace) ->
    build env creds = Ok tt /\ test_connection env = Ok tt
    /\ save_token env creds = Ok tt /\ credentials_json env = true
    /\ browser_login env = Ok creds
    /\ trace = [BrowserLogin; SaveToken creds; Build; TestConnection]).
  { unfold log_in. destruct (credentials_json env); [|discriminate].
    destruct (browser_login env) as [c|]; [|discriminate].
    intros H. apply S in H as (-> & B & T & W & ->). auto 10. }
  unfold get_calendar_service.
  destruct (token_json env) as [[stored|]|] eqn:J.
  - destruct (creds_valid stored) eqn:V.
    + intros H. apply C in H as (-> & B & T & ->). auto 10.
    + destruct (creds_expired stored && creds_refresh_token stored).
      * destruct (refresh env stored) as [c|] eqn:R; [|discriminate].
        intros H. apply S in H as (-> & B & T & W & ->).
        split; [assumption|]. split; [assumption|]. right.
        split; [assumption|]. exists Refresh. split; [reflexivity|].
        left. split; [reflexivity|]. exists stored. auto.
      * intros H. apply L in H as (B & T & W & K & G & ->).
        split; [assumption|]. split; [assumption|]. right.
        split; [assumption|]. exists BrowserLogin. auto 10.
  - discriminate.
  - intros H. apply L in H as (B & T & W & K & G & ->).
    split; [assumption|]. split; [assumption|]. right.
    split; [assumption|]. exists BrowserLogin. auto 10.
Qed.

Lemma connect_trace env c done :
  exists rest, snd (connect env c done) = done ++ rest
    /\ ~ In Refresh rest /\ ~ In BrowserLogin rest
    /\ forall x, ~ In (SaveToken x) rest.
Proof.
  unfold connect. destruct (build env c).
  - destruct (test_connection env); exists [Build; TestConnection];
      cbn; repeat split; try intros x; intuition discriminate.
  - exists [Build]; cbn; repeat split; try intros x; intuition discriminate.
Qed.

Lemma save_and_connect_trace env c done :
  exists rest, snd (save_and_connect env c done) = done ++ SaveToken c :: rest
    /\ ~ In Refresh rest /\ ~ In BrowserLogin rest
    /\ forall x, ~ In (SaveToken x) rest.
Proof.
  unfold save_and_connect. destruct (save_token env c).
  - destruct (connect_trace env c (done ++ [SaveToken c])) as (rest & E & H).
    exists rest. rewrite E, <- app_assoc. auto.
  - exists []. cbn. auto.
Qed.

(** X17. At most one way of authenticating is tried, and nothing stale is
    saved: a refresh is never followed by a login in the browser (a failed
    refresh is an error), the browser is opened only when
    [credentials.json] exists and [token.json] holds no valid credentials,
    and what is written to [token.json] is what the refresh or the login
    has just returned. *)
Theorem authentication_steps env :
  let trace := snd (get_calendar_service env) in
  (In Refresh trace -> ~ In BrowserLogin trace)
  /\ (In BrowserLogin trace ->
      credentials_json env = true
      /\ forall stored, token_json env = Some (Ok stored) ->
                        creds_valid stored = false)
  /\ (forall saved, In (SaveToken saved) trace ->
      browser_login env = Ok saved
      \/ exists stored, token_json env = Some (Ok stored)
           /\ refresh env stored = Ok saved).
Proof.
  cbv zeta.
  assert (L : let trace := snd (log_in env) in
    ~ In Refresh trace
    /\ (In BrowserLogin trace -> credentials_json env = true)
    /\ (forall saved, In (SaveToken saved) trace ->
        browser_login env = Ok saved)).
  { cbv zeta. unfold log_in. destruct (credentials_json env).
    - destruct (browser_login env) as [c|].
      + destruct (save_and_connect_trace env c [BrowserLogin])
          as (rest & -> & R & B & W).
        cbn [app In]. repeat split.
        * intros [H|[H|H]]; [discriminate|discriminate|contradiction].
        * intros saved [H|[H|H]]; [discriminate| |now elim (W saved)].
          now injection H as ->.
      + cbn. repeat split; try intros saved; intuition discriminate.
    - cbn. repeat split; try intros saved; intuition. }
  cbv zeta in L. destruct L as (L1 & L2 & L3).
  unfold get_calendar_service.
  destruct (token_json env) as [[stored|]|] eqn:J.
  - destruct (creds_valid stored) eqn:V.
    + destruct (connect_trace env stored []) as (rest & -> & R & B & W).
      cbn [app]. repeat split; try contradiction.
      intros saved H. now elim (W saved).
    + destruct (creds_expired stored && creds_refresh_token stored).
      * destruct (refresh env stored) as [c|] eqn:F.
        -- destruct (save_and_connect_trace env c [Refresh])
             as (rest & -> & R & B & W).
           cbn [app In]. repeat split.
           ++ intros _ [H|[H|H]]; [discriminate|discriminate|contradiction].
           ++ destruct H as [H|[H|H]]; [discriminate|discriminate|contradiction].
           ++ intros s [= <-]. assumption.
           ++ intros saved [H|[H|H]]; [discriminate| |now elim (W saved)].
              injection H as ->. right. exists stored. auto.
        -- cbn. repeat split; try intros saved; try intuition discriminate.
      * repeat split.
        -- intros H. now elim L1.
        -- now apply L2.
        -- intros s [= <-]. assumption.
        -- intros saved H. left. now apply L3.
  - cbn. repeat split; try intros saved; try intuition discriminate.
  - repeat split.
    + intros H. now elim L1.
    + now apply L2.
    + discriminate.
    + intros saved H. left. now apply L3.
Qed.

(** A run of X15: the second event of the listing has no start. *)
Lemma upcoming_event_without_start_witness :
  get_upcoming_events
    (Ok [JObject [("summary", JString "Standup");
                  ("start", JObject [("dateTime",
                                      JString "2025-06-24T09:00:00Z")])];
         JObject [("summary", JString "Draft")]]%string)
  = UpcomingError.
Proof.
  apply (upcoming_event_without_start _
           (JObject [("summary", JString "Draft")]%string)).
  - right. left. reflexivity.
  - intros s. discriminate.
Defined.

(** A run of X16: an expired token is refreshed, saved and used. *)
Lemma service_after_connection_test_witness :
  get_calendar_service (cooperative (Some expired_credentials))
  = (Service valid_credentials,
     [Refresh; SaveToken valid_credentials; Build; TestConnection])
  /\ save_token (cooperative (Some expired_credentials)) valid_credentials
     = Ok tt.
Proof.
  split; [reflexivity|].
  destruct (service_after_connection_test
              (cooperative (Some expired_credentials)) valid_credentials
              [Refresh; SaveToken valid_credentials; Build; TestConnection]
              eq_refl) as (_ & _ & [(_ & _ & H)|(H & _)]).
  - discriminate H.
  - exact H.
Defined.

(** * The roles of the transcript *)

Lemma dialogue_app a b : dialogue (a + b) = dialogue a ++ dialogue b.
Proof. induction a as [|a IH]; [reflexivity|]. cbn. now rewrite IH. Qed.

Section TranscriptRoles.

Variable World : Type.
Variable listen_for_input : World -> option string * World.
Variable speak_response : string -> World -> World.
Variable send_message : list turn -> string -> World -> string * World.
Variable get_calendar_service : World -> res unit * World.
Variable find_available_slots_tool : json -> json -> World -> string * World.
Variable schedule_meeting_tool :
  json -> json -> json -> json -> World -> string * World.
Variable SYSTEM_PROMPT : string.

(** The roles after one iteration that started on whole exchanges. *)
Lemma iteration_roles history w k :
  map turn_role history = dialogue k ->
  let r := iteration World listen_for_input speak_response send_message
             find_available_slots_tool schedule_meeting_tool history w in
  exists k',
    map turn_role (snd (fst r))
    = dialogue k' ++ match fst (fst r) with
                     | Uncaught _ => [user]
                     | _ => []
                     end.
Proof.
  intros H. cbv zeta.
  destruct (iteration_appends World listen_for_input speak_response
              send_message find_available_slots_tool schedule_meeting_tool
              history w) as (appended & -> & A).
  rewrite map_app, H.
  destruct (fst (fst (iteration _ _ _ _ _ _ history w))).
  - destruct A as [[-> _]|(u & w1 & w2 & _ & _ & _ & [[_ ->]|(t & w3 & _ & E)])].
    + exists k. reflexivity.
    + exists (k + 1)%nat. rewrite dialogue_app, app_nil_r. reflexivity.
    + cbv zeta in E. rewrite E.
      exists (k + 2)%nat. rewrite dialogue_app, app_nil_r. reflexivity.
  - subst appended. exists k. reflexivity.
  - destruct A as (u & ->). exists k. reflexivity.
Qed.

Lemma main_loop_roles n : forall history w k,
  map turn_role history = dialogue k ->
  let r := main_loop World listen_for_input speak_response send_message
             find_available_slots_tool schedule_meeting_tool n history w in
  exists k',
    map turn_role (snd (fst r))
    = dialogue k' ++ match fst (fst r) with
                     | Crashed _ => [user]
                     | _ => []
                     end.
Proof.
  induction n as [|n IH]; intros history w k H; cbv zeta.
  - exists k. cbn. now rewrite app_nil_r.
  - cbn [main_loop]. pose proof (iteration_roles history w k H) as (k' & R).
    cbv zeta in R.
    destruct (iteration _ _ _ _ _ _ history w) as [[[| |e] h] w'];
      cbn [fst snd] in *.
    + rewrite app_nil_r in R. apply (IH h w' k' R).
    + exists k'. exact R.
    + exists k'. exact R.
Qed.

(** X18. In the transcript the roles alternate: whatever is heard and
    whatever the model and the tools answer, the history [main] holds
    after any number of iterations is a sequence of exchanges, a turn of
    the user followed by a turn of the model, a tool call adding two
    exchanges; only a session that an exception ended leaves the turn of
    the user unanswered. *)
Theorem transcript_roles_alternate n w :
  let r := main World listen_for_input speak_response send_message
             get_calendar_service find_available_slots_tool
             schedule_meeting_tool SYSTEM_PROMPT n w in
  exists k,
    map turn_role (snd (fst r))
    = dialogue k ++ match fst (fst r) with
                    | Crashed _ => [user]
                    | _ => []
                    end.
Proof.
  cbv zeta. unfold main.
  destruct (get_calendar_service w) as [[[]|e] w'].
  - apply (main_loop_roles n _ _ 1%nat). reflexivity.
  - exists O. reflexivity.
Qed.

End TranscriptRoles.

(** * The labels of the slots *)

(** The 24-hour text of an instant tells its hour and its minute. *)
Lemma strftime_HM_fields t t' :
  strftime_HM t = strftime_HM t' ->
  Datetime.hour t = Datetime.hour t' /\ Datetime.minute t = Datetime.minute t'.
Proof.
  intros E. destruct (hour_minute_range t) as [H M].
  destruct (hour_minute_range t') as [H' M'].
  pose proof (match_hour_two_digits (Datetime.hour t)
                (two_digits (Datetime.minute t)) H) as A.
  pose proof (match_hour_two_digits (Datetime.hour t')
                (two_digits (Datetime.minute t')) H') as A'.
  change (two_digits (Datetime.hour t)
          ++ String ":" (two_digits (Datetime.minute t)))%string
    with (strftime_HM t) in A.
  change (two_digits (Datetime.hour t')
          ++ String ":" (two_digits (Datetime.minute t')))%string
    with (strftime_HM t') in A'.
  rewrite E, A' in A.
  assert (E1 : Datetime.hour t' = Datetime.hour t) by congruence.
  assert (E2 : two_digits (Datetime.minute t')
               = two_digits (Datetime.minute t)) by congruence.
  split; [auto|].
  pose proof (match_minute_two_digits (Datetime.minute t) EmptyString M) as B.
  pose proof (match_minute_two_digits (Datetime.minute t') EmptyString M') as B'.
  rewrite !append_empty_r in B, B'. rewrite E2, B in B'. congruence.
Qed.

(** The 12-hour text of an instant tells its hour and its minute. *)
Lemma strftime_IMp_fields t t' :
  strftime_IMp t = strftime_IMp t' ->
  Datetime.hour t = Datetime.hour t' /\ Datetime.minute t = Datetime.minute t'.
Proof.
  intros E. apply strftime_HM_fields.
  pose proof (slot_time_normalized t EmptyString) as A.
  rewrite E, slot_time_normalized in A. cbn [String.append] in A. congruence.
Qed.

Lemma sorted_NoDup l : StronglySorted Z.lt l -> NoDup l.
Proof.
  induction 1 as [|a l S IH F]; constructor; [|exact IH].
  intros I. rewrite Forall_forall in F. specialize (F a I). lia.
Qed.

Lemma NoDup_map_on {A B : Type} (f : A -> B) l :
  (forall x y, In x l -> In y l -> f x = f y -> x = y) ->
  NoDup l -> NoDup (map f l).
Proof.
  intros J N. induction N as [|a l I N IH]; cbn [map]; constructor.
  - intros M. apply in_map_iff in M as (y & E & Y). apply I.
    rewrite (J a y); [assumption|now left|now right|now symmetry].
  - apply IH. intros x y X Y. apply J; now right.
Qed.

(** X19. The slots of a success can be told apart by the time the user
    hears: no two of them have the same 12-hour text, nor the same 24-hour
    text. *)
Theorem slot_labels_distinct d date events date' d' slots :
  find_available_slots d date (Ok events) = Success date' d' slots ->
  NoDup (map (fun s => slot_time (slot_entry_of s)) slots)
  /\ NoDup (map (fun s => slot_time_24h (slot_entry_of s)) slots).
Proof.
  intros H.
  destruct (success_inversion _ _ _ _ _ _ H) as (day & busy & P & _ & E).
  assert (N : NoDup slots).
  { rewrite E. apply sorted_NoDup, sorted_firstn, sorted_filter.
    apply positions_sorted. }
  assert (J : forall x y, In x slots -> In y slots ->
    Datetime.hour x = Datetime.hour y /\ Datetime.minute x = Datetime.minute y ->
    x = y).
  { intros x y X Y [Eh Em].
    destruct (offered_slot _ _ _ _ _ _ _ _ P H X) as (Wx & _ & (kx & _ & Kx) & _).
    destruct (offered_slot _ _ _ _ _ _ _ _ P H Y) as (Wy & _ & (ky & _ & Ky) & _).
    pose proof (combine_fields x) as Cx. pose proof (combine_fields y) as Cy.
    assert (Bx : x mod Datetime.us_per_minute = 0)
      by (rewrite Kx; apply minute_boundary).
    assert (By : y mod Datetime.us_per_minute = 0)
      by (rewrite Ky; apply minute_boundary).
    assert (O : Date.toordinal x = Date.toordinal y).
    { clear - Wx Wy. unfold Date.toordinal, time_min_of, time_max_of,
        Datetime.combine, Datetime.us_per_day, Datetime.us_per_hour,
        Datetime.us_per_minute in *.
      Z.div_mod_to_equations. lia. }
    rewrite Eh, Em, O, Cy, Bx, By in Cx. lia. }
  split; apply NoDup_map_on; try assumption; intros x y X Y F;
    apply J; try assumption; cbn [slot_time slot_time_24h slot_entry_of] in F.
  - now apply strftime_IMp_fields.
  - now apply strftime_HM_fields.
Qed.

(** A run of X19: the six slots of an empty day. *)
Lemma slot_labels_distinct_witness :
  NoDup (map (fun s => slot_time (slot_entry_of s))
           [at_time 9 0; at_time 9 30; at_time 10 0; at_time 10 30;
            at_time 11 0; at_time 11 30])
  /\ NoDup (map (fun s => slot_time_24h (slot_entry_of s))
              [at_time 9 0; at_time 9 30; at_time 10 0; at_time 10 30;
               at_time 11 0; at_time 11 30]).
Proof.
  apply (slot_labels_distinct 30 example_date [] example_date 30).
  vm_compute. reflexivity.
Defined.

(** * The extraction of a tool call from the model output *)

Lemma substring_zero n : forall s, substring n 0 s = EmptyString.
Proof. induction n as [|n IH]; intros [|c s]; cbn; auto. Qed.

Lemma substring_prefix m : forall c,
  substring 0 (String.length m) (m ++ c) = m.
Proof.
  induction m as [|ch m IH]; intros c; cbn.
  - now destruct c.
  - now rewrite IH.
Qed.

Lemma substring_middle a m c :
  substring (String.length a) (String.length m) (a ++ m ++ c) = m.
Proof. induction a as [|ch a IH]; cbn; [apply substring_prefix|exact IH]. Qed.

Lemma length_app a b :
  String.length (a ++ b) = (String.length a + String.length b)%nat.
Proof. induction a as [|ch a IH]; cbn; [reflexivity|now rewrite IH]. Qed.

Lemma prefix_app sub : forall a b,
  prefix sub a = true -> prefix sub (a ++ b) = true.
Proof.
  induction sub as [|c sub IH]; intros a b; [now destruct a, b|].
  destruct a as [|c' a]; [discriminate|].
  change (prefix (String c sub) (String c' a ++ b))
    with (if ascii_dec c c' then prefix sub (a ++ b) else false).
  change (prefix (String c sub) (String c' a))
    with (if ascii_dec c c' then prefix sub a else false).
  destruct (ascii_dec c c'); [apply IH|discriminate].
Qed.

Lemma contains_app_l sub a b :
  Py.contains sub a = true -> Py.contains sub (a ++ b) = true.
Proof.
  induction a as [|c a IH].
  - destruct sub as [|c sub]; [intros _; now destruct b|].
    cbn. discriminate.
  - intros H. cbn [Py.contains] in H. cbn [String.append Py.contains].
    destruct (prefix sub (String c a)) eqn:P.
    + change (String c (a ++ b)) with (String c a ++ b)%string.
      now rewrite (prefix_app _ _ b P).
    + rewrite (IH H). now destruct (prefix sub (String c (a ++ b))).
Qed.

Lemma contains_app_r sub a b :
  Py.contains sub b = true -> Py.contains sub (a ++ b) = true.
Proof.
  intros H. induction a as [|c a IH]; [exact H|].
  cbn [String.append Py.contains]. rewrite IH.
  now destruct (prefix sub (String c (a ++ b))).
Qed.

(** A one-character pattern is found by looking at one character. *)
Lemma prefix_char c c' s :
  prefix (String c EmptyString) (String c' s) = Ascii.eqb c c'.
Proof.
  cbn. destruct (ascii_dec c c') as [->|N].
  - rewrite Ascii.eqb_refl. now destruct s.
  - symmetry. now apply Ascii.eqb_neq.
Qed.

Lemma find_from_first c before rest : forall i,
  Py.contains (String c EmptyString) before = false ->
  Py.find_from (String c EmptyString) (before ++ String c rest) i
  = i + Z.of_nat (String.length before).
Proof.
  induction before as [|c' before IH]; intros i H.
  - cbn [String.append Py.find_from]. rewrite prefix_char, Ascii.eqb_refl.
    cbn. lia.
  - cbn [Py.contains] in H. rewrite prefix_char in H.
    cbn [String.append Py.find_from]. rewrite prefix_char.
    destruct (Ascii.eqb c c'); [discriminate|].
    rewrite IH by assumption. cbn [String.length]. lia.
Qed.

Lemma rfind_from_absent sub s : forall i,
  Py.contains sub s = false -> Py.rfind_from sub s i = -1.
Proof.
  induction s as [|c s IH]; intros i H; cbn [Py.contains] in H;
    cbn [Py.rfind_from].
  - destruct (prefix sub EmptyString); [discriminate|reflexivity].
  - destruct (prefix sub (String c s)); [discriminate|].
    rewrite IH by assumption. reflexivity.
Qed.

Lemma rfind_from_last c x after : forall i,
  0 <= i -> Py.contains (String c EmptyString) after = false ->
  Py.rfind_from (String c EmptyString) (x ++ String c after) i
  = i + Z.of_nat (String.length x).
Proof.
  induction x as [|c' x IH]; intros i I H.
  - cbn [String.append Py.rfind_from]. rewrite rfind_from_absent by assumption.
    rewrite prefix_char, Ascii.eqb_refl. cbn. lia.
  - cbn [String.append Py.rfind_from]. rewrite IH by (assumption || lia).
    replace (0 <=? i + 1 + Z.of_nat (String.length x)) with true
      by (symmetry; apply Z.leb_le; lia).
    cbn [String.length]. lia.
Qed.

Lemma rfind_from_lower sub s : forall i, -1 <= i -> -1 <= Py.rfind_from sub s i.
Proof.
  induction s as [|c s IH]; intros i I; cbn [Py.rfind_from].
  - destruct (prefix sub EmptyString); lia.
  - specialize (IH (i + 1) ltac:(lia)).
    destruct (0 <=? Py.rfind_from sub s (i + 1)); [assumption|].
    destruct (prefix sub (String c s)); lia.
Qed.

Lemma slice_empty s a b : 0 <= b <= a -> Py.slice s a b = EmptyString.
Proof.
  intros H. unfold Py.slice.
  replace (a <? 0) with false by (symmetry; apply Z.ltb_ge; lia).
  replace (b <? 0) with false by (symmetry; apply Z.ltb_ge; lia).
  set (n := Z.of_nat (String.length s)).
  replace (Z.to_nat (Z.min b n - Z.min a n)) with O by lia.
  apply substring_zero.
Qed.

Lemma slice_middle a m c :
  Py.slice (a ++ m ++ c) (Z.of_nat (String.length a))
    (Z.of_nat (String.length a) + Z.of_nat (String.length m))
  = m.
Proof.
  unfold Py.slice. rewrite !length_app.
  replace (_ <? 0) with false by (symmetry; apply Z.ltb_ge; lia).
  replace (_ + _ <? 0) with false by (symmetry; apply Z.ltb_ge; lia).
  set (la := String.length a). set (lm := String.length m).
  set (lc := String.length c).
  replace (Z.to_nat (Z.min (Z.of_nat la) (Z.of_nat (la + (lm + lc)))))
    with la by lia.
  replace (Z.to_nat (Z.min (Z.of_nat la + Z.of_nat lm)
                       (Z.of_nat (la + (lm + lc)))
                     - Z.min (Z.of_nat la) (Z.of_nat (la + (lm + lc)))))
    with lm by lia.
  apply substring_middle.
Qed.

(** What lines 171-173 cut out of a text: from the first opening brace to
    the last closing brace. *)
Lemma outermost_braces before inner after :
  Py.contains "{" before = false -> Py.contains "}" after = false ->
  let text := (before ++ "{" ++ inner ++ "}" ++ after)%string in
  Py.slice text (Py.find text "{") (Py.rfind text "}" + 1)
  = ("{" ++ inner ++ "}")%string.
Proof.
  intros B A. cbv zeta. unfold Py.find, Py.rfind.
  cbn [String.append]. rewrite find_from_first by assumption.
  assert (R : Py.rfind_from "}"
                (before ++ String "{" (inner ++ String "}" after)) 0
              = 0 + Z.of_nat (String.length (before ++ String "{" inner))).
  { rewrite <- (rfind_from_last "}" _ after) by (assumption || lia).
    f_equal. rewrite append_assoc. reflexivity. }
  rewrite R, length_app. cbn [String.length].
  pose proof (slice_middle before (String "{" (inner ++ String "}" EmptyString))
                after) as S.
  cbn [String.append String.length] in S.
  rewrite length_app, append_assoc in S.
  cbn [String.append String.length] in S.
  etransitivity; [|exact S]. f_equal; lia.
Qed.

(** X20. Prose around a tool call does not matter: what stands before the
    first opening brace and after the last closing brace of the model
    output is dropped before the call is decoded. *)
Theorem tool_call_in_prose before inner after :
  Py.contains "{" before = false -> Py.contains "}" after = false ->
  Py.contains "tool_call" ("{" ++ inner ++ "}") = true ->
  parse_tool_call (before ++ "{" ++ inner ++ "}" ++ after)
  = parse_tool_call ("{" ++ inner ++ "}").
Proof.
  intros B A M. unfold parse_tool_call.
  pose proof (outermost_braces before inner after B A) as S.
  pose proof (outermost_braces EmptyString inner EmptyString eq_refl eq_refl)
    as S'.
  cbv zeta in S, S'. cbn [String.append] in S, S' |- *.
  cbn [String.append] in M.
  rewrite S, S'.
  assert (M' : Py.contains "tool_call"
                 (before ++ String "{" (inner ++ String "}" after)) = true).
  { apply contains_app_r.
    replace (String "{" (inner ++ String "}" after))
      with (String "{" (inner ++ String "}" EmptyString) ++ after)%string
      by (cbn [String.append]; rewrite append_assoc; reflexivity).
    now apply contains_app_l. }
  assert (C : forall rest, Py.contains "{" (String "{" rest) = true).
  { intros rest. cbn [Py.contains]. now rewrite prefix_char. }
  rewrite M, M', C, (contains_app_r "{" before _ (C _)).
  reflexivity.
Qed.

(** A run of X20: the example of the prompt between two sentences. *)
Lemma tool_call_in_prose_witness :
  parse_tool_call
    ("Let me check. " ++ "{"
       ++ (String dquote "tool_call" ++ String dquote ": {"
           ++ String dquote "name" ++ String dquote ": "
           ++ String dquote "get_upcoming_events" ++ String dquote ", "
           ++ String dquote "arguments" ++ String dquote ": {}}")
       ++ "}" ++ " One moment.")
  = parse_tool_call
      ("{"
       ++ (String dquote "tool_call" ++ String dquote ": {"
           ++ String dquote "name" ++ String dquote ": "
           ++ String dquote "get_upcoming_events" ++ String dquote ", "
           ++ String dquote "arguments" ++ String dquote ": {}}")
       ++ "}").
Proof.
  apply (tool_call_in_prose "Let me check. " _ " One moment.");
    reflexivity.
Defined.

Lemma parse_tool_call_unclosed response_text :
  Py.rfind response_text "}" < Py.find response_text "{" ->
  parse_tool_call response_text = Ok None
  \/ parse_tool_call response_text = Raise JSONDecodeError.
Proof.
  intros H. unfold parse_tool_call.
  destruct (_ && _); [right|now left].
  pose proof (rfind_from_lower "}" response_text 0 ltac:(lia)) as L.
  fold (Py.rfind response_text "}") in L.
  rewrite slice_empty by lia. reflexivity.
Qed.

Section UnclosedCall.

Variable World : Type.
Variable listen_for_input : World -> option string * World.
Variable speak_response : string -> World -> World.
Variable send_message : list turn -> string -> World -> string * World.
Variable find_available_slots_tool : json -> json -> World -> string * World.
Variable schedule_meeting_tool :
  json -> json -> json -> json -> World -> string * World.

(** X21. A model output whose last closing brace stands before its first
    opening brace, in particular one that opens a brace and never closes
    it, runs no tool: it is spoken and recorded as plain text, whatever
    else it contains. *)
Theorem unclosed_call_is_plain_text history w u w1 response w2 :
  listen_for_input w = (Some u, w1) -> u <> EmptyString ->
  existsb (String.eqb (Py.lower u)) exit_words = false ->
  send_message (history ++ [user_turn u]) u w1 = (response, w2) ->
  Py.rfind (Py.strip response) "}" < Py.find (Py.strip response) "{" ->
  iteration World listen_for_input speak_response send_message
    find_available_slots_tool schedule_meeting_tool history w
  = (Continue,
     history ++ [user_turn u; model_turn (Py.strip response)],
     speak_response (Py.strip response) w2).
Proof.
  intros L N X S H. unfold iteration. rewrite L.
  destruct u as [|c u]; [congruence|]. rewrite X, S.
  unfold detect_and_execute.
  destruct (parse_tool_call_unclosed _ H) as [-> | ->]; cbn [bind];
    rewrite <- app_assoc; reflexivity.
Qed.

End UnclosedCall.

(** A run of X21: a call that is cut off. *)
Lemma unclosed_call_is_plain_text_witness :
  stub_iteration [] (hears_and_answers "book it" "tool_call: { name")
  = (Continue,
     [] ++ [user_turn "book it"; model_turn (Py.strip "tool_call: { name")],
     stub_speak (Py.strip "tool_call: { name")
       {| utterances := []; model_outputs := []; spoken := [];
          tools_run := [] |}).
Proof.
  apply (unclosed_call_is_plain_text script stub_listen stub_speak stub_send
           (fun _ _ => stub_tool "find_available_slots" stub_result)
           (fun _ _ _ _ => stub_tool "schedule_meeting" stub_result)
           [] (hears_and_answers "book it" "tool_call: { name") "book it"
           {| utterances := []; model_outputs := ["tool_call: { name"%string];
              spoken := []; tools_run := [] |}
           "tool_call: { name").
  - reflexivity.
  - discriminate.
  - reflexivity.
  - reflexivity.
  - vm_compute. reflexivity.
Defined.
